(** * ResumeForge: the synthesis pipeline, embedded and verified

    A shallow embedding of the backend's synthesis pipeline
    (text sanitizer, format parsers, repository ranker, response
    recovery, schema reconciliation and validation), followed by the
    theorems that settle the specification's claims about it.

    Conventions of the embedding:
    - a Python [str] is a list of Unicode code points ([N]);
    - [bytes] is a list of byte values ([N] below 256);
    - a raised exception is an [Err] result carrying the error kind;
    - calls that leave the process (the model call, the clock, the
      Unicode database, the JSON decoder of the standard library) are
      variables of the section that uses them. *)

From Stdlib Require Import String Ascii.
From Stdlib Require Import NArith ZArith Bool Lia Floats List.
From Stdlib Require DecimalString.
From Stdlib Require Import Sorting.Sorted Sorting.Permutation.
Import ListNotations.

#[local] Set Warnings "-register-all".
#[local] Open Scope N_scope.
#[local] Open Scope list_scope.

(* ================================================================= *)
(** ** Python primitives *)

Module Py.

(** A character is a Unicode code point. *)
Definition char := N.
Definition str := list char.
Definition bytes := list N.

(** An ASCII literal as a Python string. *)
Definition py (s : string) : str :=
  List.map N_of_ascii (list_ascii_of_string s).

Definition NUL : char := 0.
Definition TAB : char := 9.
Definition LF : char := 10.
Definition CR : char := 13.

Fixpoint str_eqb (a b : str) : bool :=
  match a, b with
  | [], [] => true
  | x :: a', y :: b' => (x =? y) && str_eqb a' b'
  | _, _ => false
  end.

(** [c in s] for a single character [c]. *)
Definition char_in (c : char) (s : str) : bool :=
  existsb (N.eqb c) s.

(** [s.startswith(p)]. *)
Fixpoint startswith (s p : str) {struct p} : bool :=
  match p with
  | [] => true
  | c :: p' =>
      match s with
      | [] => false
      | d :: s' => (d =? c) && startswith s' p'
      end
  end.

(** [s.endswith(p)]. *)
Definition endswith (s p : str) : bool :=
  startswith (rev s) (rev p).

(** [s.find(p)]: the lowest index where [p] occurs, [None] for -1. *)
Fixpoint find (s p : str) : option nat :=
  if startswith s p then Some O
  else match s with
       | [] => None
       | _ :: s' => option_map S (find s' p)
       end.

(** [s.rfind(c)] for a one-character pattern: the highest index. *)
Fixpoint rfind_char (s : str) (c : char) : option nat :=
  match s with
  | [] => None
  | d :: s' =>
      match rfind_char s' c with
      | Some i => Some (S i)
      | None => if d =? c then Some O else None
      end
  end.

(** [p in s] for a substring [p]. *)
Definition contains (s p : str) : bool :=
  match find s p with Some _ => true | None => false end.

(** [s[a:b]] for non-negative [a] and [b]. *)
Definition slice (s : str) (a b : nat) : str :=
  firstn (b - a) (skipn a s).

(** [s.replace(old, new)]: occurrences are found left to right and do
    not overlap.  [skip] counts the characters of a matched occurrence
    that are still to be dropped. *)
Fixpoint replace_from (old new : str) (skip : nat) (s : str) : str :=
  match s with
  | [] => []
  | c :: s' =>
      match skip with
      | S k => replace_from old new k s'
      | O =>
          if startswith s old
          then new ++ replace_from old new (length old - 1) s'
          else c :: replace_from old new 0 s'
      end
  end.

Definition replace (s old new : str) : str :=
  match old with
  | [] => new ++ flat_map (fun c => c :: new) s
  | _ :: _ => replace_from old new 0 s
  end.

(** [c.isspace()]: the white-space characters of the Unicode database
    (bidirectional class WS, B or S, or category Zs). *)
Definition isspace (c : char) : bool :=
  ((9 <=? c) && (c <=? 13)) || ((28 <=? c) && (c <=? 32))
  || (c =? 133) || (c =? 160) || (c =? 5760)
  || ((8192 <=? c) && (c <=? 8202))
  || (c =? 8232) || (c =? 8233) || (c =? 8239) || (c =? 8287)
  || (c =? 12288).

Fixpoint lstrip (s : str) : str :=
  match s with
  | [] => []
  | c :: s' => if isspace c then lstrip s' else s
  end.

Definition rstrip (s : str) : str := rev (lstrip (rev s)).

(** [s.strip()]. *)
Definition strip (s : str) : str := rstrip (lstrip s).

(** [str.lower] on the ASCII letters; it agrees with Python wherever
    the lower-cased string is compared with an ASCII word that has no
    letter k (the Kelvin sign is the one other character whose lower
    case is ASCII). *)
Definition lower_char (c : char) : char :=
  if (65 <=? c) && (c <=? 90) then c + 32 else c.

Definition ascii_lower (s : str) : str := List.map lower_char s.

(** [PurePosixPath(s).suffix] for a path that does not end in a slash:
    the last dot of the final component and what follows it, unless
    that dot opens or closes the name. *)
Definition posix_name (s : str) : str :=
  match rfind_char s 47 with
  | Some i => skipn (S i) s
  | None => s
  end.

Definition posix_suffix (s : str) : str :=
  let name := posix_name s in
  match rfind_char name 46 with
  | Some i =>
      if (0 <? i)%nat && (S i <? List.length name)%nat
      then skipn i name else []
  | None => []
  end.

(** [sep.join(parts)]. *)
Fixpoint join (sep : str) (parts : list str) : str :=
  match parts with
  | [] => []
  | p :: rest =>
      match rest with
      | [] => p
      | _ :: _ => p ++ sep ++ join sep rest
      end
  end.

(** Some character of [s] is not white space. *)
Definition has_nonspace (s : str) : bool :=
  existsb (fun c => negb (isspace c)) s.

(** Truthiness of a string: non-empty. *)
Definition truthy_str (s : str) : bool :=
  match s with [] => false | _ :: _ => true end.

(** Results of operations that may raise. *)
Inductive result (E A : Type) : Type :=
| Ok (a : A)
| Err (e : E).
Arguments Ok {E A} a.
Arguments Err {E A} e.

Definition bind {E A B} (r : result E A) (k : A -> result E B) : result E B :=
  match r with
  | Ok a => k a
  | Err e => Err e
  end.

End Py.

Import Py.

Notation "'let*' x ':=' r 'in' k" := (Py.bind r (fun x => k))
  (at level 10, x name, r at level 100, k at level 200).

(* ================================================================= *)
(** ** app/core/utils.py *)

Module Utils.

Section Sanitizer.

(** [str.isprintable] on one character: a lookup in the Unicode
    character database. *)
Variable isprintable : char -> bool.

Definition keep (c : char) : bool :=
  isprintable c || char_in c [LF; CR; TAB].

(** [sanitize_text]; callers also pass [None], which the guard
    [if not text] maps to the empty string. *)
Definition sanitize_text (text : option str) : str :=
  match text with
  | None => []
  | Some [] => []
  | Some t => List.filter keep (replace t [NUL] [])
  end.

(** A character that survives sanitizing, and input that needs no
    cleaning. *)
Definition ok_char (c : char) : bool := negb (c =? NUL) && keep c.

Definition is_clean (t : str) : bool := forallb ok_char t.

End Sanitizer.

(** The printable characters of the ASCII range, for running the
    repository's own test table. *)
Definition ascii_isprintable (c : char) : bool :=
  (32 <=? c) && (c <? 127).

End Utils.

(* ================================================================= *)
(** ** Codecs of [bytes.decode] *)

Module Codec.

Definition byte_val (b : Byte.byte) : N := Byte.to_N b.

(** A continuation byte lies in [lo, hi]. *)
Definition between (lo hi b : N) : bool := (lo <=? b) && (b <=? hi).

Definition cont_bits (b : N) : N := N.land b 63.

(** Strict UTF-8: shortest form only, no surrogates, at most U+10FFFF.
    [None] stands for [UnicodeDecodeError]. *)
Fixpoint utf8_decode (bs : list Byte.byte) : option str :=
  match bs with
  | [] => Some []
  | x0 :: r0 =>
      let b0 := byte_val x0 in
      if b0 <? 128 then option_map (cons b0) (utf8_decode r0)
      else if between 194 223 b0 then
        match r0 with
        | x1 :: r1 =>
            let b1 := byte_val x1 in
            if between 128 191 b1
            then option_map (cons (N.land b0 31 * 64 + cont_bits b1))
                            (utf8_decode r1)
            else None
        | _ => None
        end
      else if between 224 239 b0 then
        match r0 with
        | x1 :: x2 :: r2 =>
            let b1 := byte_val x1 in
            let b2 := byte_val x2 in
            let lo := if b0 =? 224 then 160 else 128 in
            let hi := if b0 =? 237 then 159 else 191 in
            if between lo hi b1 && between 128 191 b2
            then option_map
                   (cons (N.land b0 15 * 4096 + cont_bits b1 * 64 + cont_bits b2))
                   (utf8_decode r2)
            else None
        | _ => None
        end
      else if between 240 244 b0 then
        match r0 with
        | x1 :: x2 :: x3 :: r3 =>
            let b1 := byte_val x1 in
            let b2 := byte_val x2 in
            let b3 := byte_val x3 in
            let lo := if b0 =? 240 then 144 else 128 in
            let hi := if b0 =? 244 then 143 else 191 in
            if between lo hi b1 && between 128 191 b2 && between 128 191 b3
            then option_map
                   (cons (N.land b0 7 * 262144 + cont_bits b1 * 4096
                          + cont_bits b2 * 64 + cont_bits b3))
                   (utf8_decode r3)
            else None
        | _ => None
        end
      else None
  end.

(** [utf-8-sig]: a leading byte order mark EF BB BF is dropped. *)
Definition utf8_sig_decode (bs : list Byte.byte) : option str :=
  match List.map byte_val bs with
  | 239 :: 187 :: 191 :: _ => utf8_decode (skipn 3 bs)
  | _ => utf8_decode bs
  end.

(** A character-map codec fails as soon as one byte has no image. *)
Fixpoint charmap_decode (table : N -> option char) (bs : list Byte.byte)
  : option str :=
  match bs with
  | [] => Some []
  | x :: r =>
      match table (byte_val x) with
      | Some c => option_map (cons c) (charmap_decode table r)
      | None => None
      end
  end.

(** [latin-1]: byte [b] is code point [b]. *)
Definition latin1_table (b : N) : option char := Some b.

(** [cp1252]: five bytes of the range 80..9F are undefined. *)
Definition cp1252_high : list (option char) :=
  [Some 8364; None; Some 8218; Some 402; Some 8222; Some 8230; Some 8224;
   Some 8225; Some 710; Some 8240; Some 352; Some 8249; Some 338; None;
   Some 381; None; None; Some 8216; Some 8217; Some 8220; Some 8221;
   Some 8226; Some 8211; Some 8212; Some 732; Some 8482; Some 353;
   Some 8250; Some 339; None; Some 382; Some 376].

Definition cp1252_table (b : N) : option char :=
  if between 128 159 b
  then nth (N.to_nat (b - 128)) cp1252_high None
  else Some b.

(** The UTF-8 byte order mark and the character it encodes. *)
Definition BOM : list Byte.byte := [Byte.xef; Byte.xbb; Byte.xbf].
Definition U_FEFF : char := 65279.

Inductive encoding := UTF8 | UTF8_SIG | LATIN1 | CP1252.

Inductive UnicodeDecodeError := DecodeError (enc : encoding).

(** [content.decode(encoding)] with the default strict error policy. *)
Definition decode (enc : encoding) (content : list Byte.byte)
  : result UnicodeDecodeError str :=
  let r := match enc with
           | UTF8 => utf8_decode content
           | UTF8_SIG => utf8_sig_decode content
           | LATIN1 => charmap_decode latin1_table content
           | CP1252 => charmap_decode cp1252_table content
           end in
  match r with
  | Some s => Ok s
  | None => Err (DecodeError enc)
  end.

End Codec.

(* ================================================================= *)
(** ** app/services/parsers *)

Module Parsers.
Import Codec.

(** [ParseResult] of [base.py]. *)
Record ParseResult := mkParseResult {
  text : str;
  page_count : N;
  character_count : N;
  warnings : list str
}.

Definition len {A} (l : list A) : N := N.of_nat (List.length l).

(** The dataclass constructor with its [__post_init__]: a character
    count of zero is replaced by the length of the text. *)
Definition new_ParseResult (t : str) (pages count : N) (w : list str)
  : ParseResult :=
  mkParseResult t pages (if count =? 0 then len t else count) w.

(** Why [validate_file] turned a file down. *)
Inductive reason :=
| InvalidExtension
| FileEmpty
| FileTooLarge (max_kb : N)
| NoReadableText
| FailedToRead
| NotLatex
| NotPdf
| PasswordProtected
| PdfValidationFailed.

(** What [validate_file] did to the content on its way: the calls into
    the decoder or the PDF reader, in order. *)
Inductive step := StepDecode | StepOpenPdf.

Record validation := mkValidation {
  is_valid : bool;
  error : option reason;
  steps : list step
}.

Definition reject (r : reason) (done : list step) : validation :=
  mkValidation false (Some r) done.

Definition accept (done : list step) : validation :=
  mkValidation true None done.

(** The decoding chain shared by the Markdown and the LaTeX parser.
    [lossy] is [content.decode("utf-8", errors="ignore")], which
    returns a string for every input. *)
Fixpoint decode_first (encodings : list encoding) (lossy : list Byte.byte -> str)
    (content : list Byte.byte) : result UnicodeDecodeError str :=
  match encodings with
  | [] => Ok (lossy content)
  | enc :: rest =>
      match decode enc content with
      | Ok s => Ok s
      | Err _ => decode_first rest lossy content
      end
  end.

(** *** base.py *)
Module BaseParser.
Section WithLibraries.
(** [Path(filename).suffix] of pathlib and [str.lower]. *)
Variables (path_suffix : str -> str) (lower : str -> str).

Definition get_extension (filename : str) : str :=
  lower (path_suffix filename).

Definition can_handle (SUPPORTED_EXTENSIONS : list str) (filename : str)
  : bool :=
  existsb (str_eqb (get_extension filename)) SUPPORTED_EXTENSIONS.
End WithLibraries.
End BaseParser.

(** *** markdown_parser.py *)
Module MarkdownParser.

Definition SUPPORTED_EXTENSIONS : list str := [py ".md"; py ".markdown"].
Definition MAX_FILE_SIZE : N := 1024 * 1024.

(** The loop [while "\n\n\n" in text: text = text.replace(...)].  Every
    round shortens the text, so its length bounds the rounds. *)
Fixpoint collapse_loop (fuel : nat) (text : str) : str :=
  match fuel with
  | O => text
  | S k =>
      if contains text [LF; LF; LF]
      then collapse_loop k (replace text [LF; LF; LF] [LF; LF])
      else text
  end.

Definition _clean_text (text : str) : str :=
  let text := replace (replace text [CR; LF] [LF]) [CR] [LF] in
  let text := collapse_loop (List.length text) text in
  strip text.

Section WithLibraries.
Variables (path_suffix : str -> str) (lower : str -> str).
Variable utf8_decode_ignore : list Byte.byte -> str.

Definition _decode_content (content : list Byte.byte)
  : result UnicodeDecodeError str :=
  decode_first [UTF8; UTF8_SIG; LATIN1; CP1252] utf8_decode_ignore content.

Definition parse (file_content : list Byte.byte) (filename : str)
  : result UnicodeDecodeError ParseResult :=
  let* text := _decode_content file_content in
  let text := _clean_text text in
  Ok (new_ParseResult text 1 (len text) []).

Definition validate_file (file_content : list Byte.byte) (filename : str)
  : validation :=
  if negb (BaseParser.can_handle path_suffix lower SUPPORTED_EXTENSIONS filename)
  then reject InvalidExtension []
  else match file_content with
  | [] => reject FileEmpty []
  | _ :: _ =>
    if MAX_FILE_SIZE <? len file_content
    then reject (FileTooLarge (MAX_FILE_SIZE / 1024)) []
    else match _decode_content file_content with
         | Ok text =>
             if negb (truthy_str (strip text))
             then reject NoReadableText [StepDecode]
             else accept [StepDecode]
         | Err _ => reject FailedToRead [StepDecode]
         end
  end.
End WithLibraries.
End MarkdownParser.

(** *** latex_parser.py *)
Module LaTeXParser.

Definition SUPPORTED_EXTENSIONS : list str := [py ".tex"; py ".latex"].
Definition MAX_FILE_SIZE : N := 1024 * 1024.
Definition BACKSLASH : char := 92.

Definition graphics_warning : str :=
  py "Graphics/diagrams in LaTeX file were not extracted".

Section WithLibraries.
Variables (path_suffix : str -> str) (lower : str -> str).
Variable utf8_decode_ignore : list Byte.byte -> str.
(** [_extract_text]: a fixed sequence of [re.sub] rewrites; the
    regular-expression engine is not modelled. *)
Variable _extract_text : str -> str.

Definition _decode_content (content : list Byte.byte)
  : result UnicodeDecodeError str :=
  decode_first [UTF8; UTF8_SIG; LATIN1; CP1252] utf8_decode_ignore content.

Definition parse (file_content : list Byte.byte) (filename : str)
  : result UnicodeDecodeError ParseResult :=
  let* text := _decode_content file_content in
  let extracted := _extract_text text in
  let warnings :=
    if contains text (BACKSLASH :: py "begin{tikzpicture}")
       || contains text (BACKSLASH :: py "includegraphics")
    then [graphics_warning] else [] in
  Ok (new_ParseResult extracted 1 (len extracted) warnings).

Definition validate_file (file_content : list Byte.byte) (filename : str)
  : validation :=
  if negb (BaseParser.can_handle path_suffix lower SUPPORTED_EXTENSIONS filename)
  then reject InvalidExtension []
  else match file_content with
  | [] => reject FileEmpty []
  | _ :: _ =>
    if MAX_FILE_SIZE <? len file_content
    then reject (FileTooLarge (MAX_FILE_SIZE / 1024)) []
    else match _decode_content file_content with
         | Ok text =>
             if negb (truthy_str (strip text))
             then reject NoReadableText [StepDecode]
             else if negb (char_in BACKSLASH text)
             then reject NotLatex [StepDecode]
             else accept [StepDecode]
         | Err _ => reject FailedToRead [StepDecode]
         end
  end.
End WithLibraries.
End LaTeXParser.

(** *** pdf_parser.py *)
Module PDFParser.

Definition SUPPORTED_EXTENSIONS : list str := [py ".pdf"].

(** What [pypdf.PdfReader] reports about a document it could open:
    whether it is encrypted, and its pages unless enumerating them
    raises. *)
Record PdfReader := mkPdfReader {
  is_encrypted : bool;
  pages : option N
}.

Definition magic : list Byte.byte :=
  [Byte.x25; Byte.x50; Byte.x44; Byte.x46].

Fixpoint bytes_startswith (s p : list Byte.byte) {struct p} : bool :=
  match p with
  | [] => true
  | c :: p' =>
      match s with
      | [] => false
      | d :: s' => Byte.eqb d c && bytes_startswith s' p'
      end
  end.

Section WithLibraries.
Variables (path_suffix : str -> str) (lower : str -> str).
(** [PdfReader(io.BytesIO(content))]; [None] when it raises. *)
Variable open_pdf : list Byte.byte -> option PdfReader.

Definition validate_file (file_content : list Byte.byte) (filename : str)
  : validation :=
  if negb (BaseParser.can_handle path_suffix lower SUPPORTED_EXTENSIONS filename)
  then reject InvalidExtension []
  else match file_content with
  | [] => reject FileEmpty []
  | _ :: _ =>
    if negb (bytes_startswith file_content magic)
    then reject NotPdf []
    else match open_pdf file_content with
         | Some reader =>
             if is_encrypted reader
             then reject PasswordProtected [StepOpenPdf]
             else match pages reader with
                  | Some _ => accept [StepOpenPdf]
                  | None => reject PdfValidationFailed [StepOpenPdf]
                  end
         | None => reject PdfValidationFailed [StepOpenPdf]
         end
  end.
End WithLibraries.

(** *** [parse] and its two strategies *)

Inductive parse_error :=
| NoTextExtracted
| LibraryError
| FailedToParsePDF.

Definition fallback_warning : str :=
  py "Parsed with fallback parser - some formatting may be lost".

Section WithExtractors.
(** What the two libraries give for a file: the text of every page in
    order (the empty string for a page without text), or [None] when
    opening the file or extracting a page raises. *)
Variable pdfplumber_pages : list Byte.byte -> option (list str).
Variable pypdf_pages : list Byte.byte -> option (list str).

Definition _parse_with_pdfplumber (file_content : list Byte.byte)
  : result parse_error ParseResult :=
  match pdfplumber_pages file_content with
  | None => Err LibraryError
  | Some pages =>
      let page_count := len pages in
      let text_parts := List.filter truthy_str pages in
      let full_text := join [LF; LF] text_parts in
      if negb (truthy_str (strip full_text)) then Err NoTextExtracted
      else Ok (new_ParseResult (strip full_text) page_count (len full_text) [])
  end.

Definition _parse_with_pypdf (file_content : list Byte.byte)
  : result parse_error ParseResult :=
  match pypdf_pages file_content with
  | None => Err LibraryError
  | Some pages =>
      let page_count := len pages in
      let text_parts := List.filter truthy_str pages in
      let full_text := join [LF; LF] text_parts in
      if negb (truthy_str (strip full_text)) then Err NoTextExtracted
      else Ok (new_ParseResult (strip full_text) page_count (len full_text) [])
  end.

Definition parse (file_content : list Byte.byte) (filename : str)
  : result parse_error ParseResult :=
  match _parse_with_pdfplumber file_content with
  | Ok result => Ok result
  | Err _ =>
      match _parse_with_pypdf file_content with
      | Ok result =>
          Ok (mkParseResult (text result) (page_count result)
                (character_count result)
                (warnings result ++ [fallback_warning]))
      | Err _ => Err FailedToParsePDF
      end
  end.
End WithExtractors.
(** What either strategy returns when it returns. *)
Definition well_extracted (r : ParseResult) : Prop :=
  text r <> []
  /\ strip (text r) = text r
  /\ len (text r) <= character_count r
  /\ 1 <= page_count r
  /\ warnings r = [].

End PDFParser.

(** *** parsers/__init__.py and the upload route *)
Module ParserFactory.

Inductive parser := PDF | Markdown | LaTeX.

Definition _parsers : list parser := [PDF; Markdown; LaTeX].

Definition extensions_of (p : parser) : list str :=
  match p with
  | PDF => PDFParser.SUPPORTED_EXTENSIONS
  | Markdown => MarkdownParser.SUPPORTED_EXTENSIONS
  | LaTeX => LaTeXParser.SUPPORTED_EXTENSIONS
  end.


(** [get_supported_extensions]. *)
Definition get_supported_extensions : list str :=
  flat_map extensions_of _parsers.

Inductive upload_error :=
| InvalidFileTypeError
| FileTooLargeError (size max_size : N)
| FileParsingError (why : option reason).

Section WithLibraries.
Variables (path_suffix : str -> str) (lower : str -> str).
Variable utf8_decode_ignore : list Byte.byte -> str.
Variable open_pdf : list Byte.byte -> option PDFParser.PdfReader.

Definition get_parser (filename : str) : option parser :=
  List.find
    (fun p => BaseParser.can_handle path_suffix lower (extensions_of p) filename)
    _parsers.

Definition is_supported (filename : str) : bool :=
  match get_parser filename with Some _ => true | None => false end.

Definition validate_file (p : parser) (content : list Byte.byte)
    (filename : str) : validation :=
  match p with
  | PDF => PDFParser.validate_file path_suffix lower open_pdf content filename
  | Markdown =>
      MarkdownParser.validate_file path_suffix lower utf8_decode_ignore
        content filename
  | LaTeX =>
      LaTeXParser.validate_file path_suffix lower utf8_decode_ignore
        content filename
  end.

(** [upload_resume] of routes/resume.py up to the point where the
    upload record is created: the parser chosen and what validating
    did, or the error raised. *)
Definition upload_resume_checks (max_upload_size_bytes : N)
    (filename : str) (content : list Byte.byte)
  : result upload_error parser * list step :=
  if negb (is_supported filename) then (Err InvalidFileTypeError, [])
  else if max_upload_size_bytes <? len content
  then (Err (FileTooLargeError (len content) max_upload_size_bytes), [])
  else match get_parser filename with
       | Some p =>
           let v := validate_file p content filename in
           if negb (is_valid v)
           then (Err (FileParsingError (error v)), steps v)
           else (Ok p, steps v)
       | None => (Err (FileParsingError None), [])
       end.
End WithLibraries.
End ParserFactory.

(** *** What the Markdown clean-up computes, said directly *)
Module MarkdownSpec.

(** Every line ending becomes one LF: CR LF and a lone CR alike. *)
Fixpoint eol_to_lf (s : str) : str :=
  match s with
  | [] => []
  | c :: s' =>
      if c =? CR
      then match s' with
           | d :: _ => if d =? LF then eol_to_lf s' else LF :: eol_to_lf s'
           | [] => [LF]
           end
      else c :: eol_to_lf s'
  end.

(** Keep at most [cap] line feeds of every run of line feeds; [run] is
    the number already kept of the current run. *)
Fixpoint cap_newlines (cap run : nat) (s : str) : str :=
  match s with
  | [] => []
  | c :: s' =>
      if c =? LF
      then if (run <? cap)%nat
           then LF :: cap_newlines cap (S run) s'
           else cap_newlines cap run s'
      else c :: cap_newlines cap 0 s'
  end.

Definition LLL : str := [LF; LF; LF].
Definition LL : str := [LF; LF].

(** The decoding chain as far as it can get: Latin-1 takes every byte
    string that the two UTF-8 codecs turn down. *)
Definition first_lossless (content : list Byte.byte) : str :=
  match Codec.utf8_decode content with
  | Some s => s
  | None =>
      match Codec.utf8_sig_decode content with
      | Some s => s
      | None => List.map Codec.byte_val content
      end
  end.

End MarkdownSpec.

End Parsers.

(* ================================================================= *)
(** ** app/services/github_service.py *)

Module GitHubService.
#[local] Open Scope Z_scope.

(** The fields of a PyGithub [Repository] that ranking reads.  Times
    are naive UTC instants in microseconds, the resolution of
    [datetime]; [topics] is what [repo.get_topics()] returns. *)
Record Repository := mkRepository {
  name : str;
  archived : bool;
  fork : bool;
  description : option str;
  size : Z;
  pushed_at : option Z;
  stargazers_count : Z;
  forks_count : Z;
  topics : list str
}.

Definition MAX_REPOS : nat := 15.

(** Truthiness of an optional string: [None] and [""] are false. *)
Definition truthy (d : option str) : bool :=
  match d with
  | Some (_ :: _) => true
  | _ => false
  end.

Definition _should_include_repo (repo : Repository) : bool :=
  if archived repo then false
  else if fork repo then false
  else if negb (truthy (description repo)) && (size repo =? 0) then false
  else true.

Definition DAY : Z := 86400 * 1000000.

(** [timedelta.days] of a difference of [d] microseconds: the floor. *)
Definition days (d : Z) : Z := d / DAY.

(** The clock is read once for every repository that has a push time;
    [clock k] is the [k]-th reading of [datetime.now] and the state is
    the number of readings so far.  The score is a float built from
    small integers only, which float addition keeps exact, so it is an
    integer here. *)
Definition _calculate_repo_score (clock : nat -> Z) (reads : nat)
    (repo : Repository) : Z * nat :=
  let score := 0 in
  let '(score, reads) :=
    match pushed_at repo with
    | Some pushed =>
        let now := clock reads in
        let days_since_update := days (now - pushed) in
        (if days_since_update <? 30 then score + 50
         else if days_since_update <? 90 then score + 30
         else if days_since_update <? 180 then score + 15
         else score, S reads)
    | None => (score, reads)
    end in
  let score := score + Z.min (stargazers_count repo * 5) 50 in
  let score := score + Z.min (forks_count repo * 2) 20 in
  let score := if truthy (description repo) then score + 10 else score in
  let score := match topics repo with _ :: _ => score + 10 | [] => score end in
  let score :=
    if (10 <? size repo) && (size repo <? 100000) then score + 5 else score in
  (score, reads).

(** The comprehension that pairs every repository with its score. *)
Fixpoint score_repos (clock : nat -> Z) (reads : nat)
    (repos : list Repository) : list (Repository * Z) :=
  match repos with
  | [] => []
  | repo :: rest =>
      let '(score, reads') := _calculate_repo_score clock reads repo in
      (repo, score) :: score_repos clock reads' rest
  end.

(** [list.sort(key=lambda x: x[1], reverse=True)].  The built-in sort
    is stable, also when reversed; a stable sort has one possible
    result, which insertion computes: a pair goes in front of the
    first pair whose score is not larger. *)
Fixpoint insert_desc (x : Repository * Z) (l : list (Repository * Z))
  : list (Repository * Z) :=
  match l with
  | [] => [x]
  | y :: l' => if snd x <? snd y then y :: insert_desc x l' else x :: l
  end.

Definition sort_desc (l : list (Repository * Z)) : list (Repository * Z) :=
  fold_right insert_desc [] l.

Definition scored_repos (clock : nat -> Z) (all_repos : list Repository)
  : list (Repository * Z) :=
  sort_desc (score_repos clock 0 (List.filter _should_include_repo all_repos)).

Definition top_repos (clock : nat -> Z) (all_repos : list Repository)
  : list (Repository * Z) :=
  firstn MAX_REPOS (scored_repos clock all_repos).

(** The repositories whose data [_fetch_repositories] extracts, in the
    order of its result. *)
Definition _fetch_repositories (clock : nat -> Z) (all_repos : list Repository)
  : list Repository :=
  List.map fst (top_repos clock all_repos).

(** *** Extraction and [fetch_user_data] *)

Definition README_PREVIEW_LENGTH : nat := 2000.

(** What the further calls on a repository answer: [get_languages]
    (its keys), [get_topics] and [get_readme] (the decoded content),
    each [None] when the call raises; and the plain attributes. *)
Record RepoApi := mkRepoApi {
  language : option str;
  html_url : str;
  created_at : option Z;
  get_languages : option (list str);
  get_topics : option (list str);
  get_readme : option (list Byte.byte)
}.

(** The dict that [_extract_repo_data] returns. *)
Record RepoData := mkRepoData {
  data_name : str;
  data_description : str;
  data_url : str;
  data_languages : list str;
  data_primary_language : option str;
  data_topics : list str;
  data_stars : Z;
  data_forks : Z;
  data_created_at : option str;
  data_updated_at : option str;
  data_readme : option str
}.

(** A PyGithub user: the attributes that [_extract_profile] reads and
    the answer of [get_repos]. *)
Record User := mkUser {
  login : str;
  user_name : option str;
  bio : option str;
  user_location : option str;
  user_email : option str;
  public_repos : Z;
  followers : Z
}.

(** The profile dict, as far as it is read again. *)
Record Profile := mkProfile {
  profile_username : str;
  profile_name : str;
  profile_bio : str;
  profile_location : str;
  profile_email : option str;
  profile_public_repos : Z;
  profile_followers : Z
}.

(** A [GithubException]: its status, and what
    [e.data.get('message', str(e))] prints when [e.data] is a dict;
    [None] when [e.data] is [None], as for an answer without a body,
    which has no [get]. *)
Record GithubException := mkGithubException {
  status : Z;
  data_message : option str
}.

(** What leaves [fetch_user_data]: the [ValueError] with its message,
    or the [AttributeError] of [e.data.get] on [None]. *)
Inductive fetch_error :=
| ValueError (message : str)
| AttributeError.

Section WithGitHub.
Variable isprintable : char -> bool.
(** [bytes.decode("utf-8", errors="ignore")] and [datetime.isoformat]. *)
Variable utf8_decode_ignore : list Byte.byte -> str.
Variable isoformat : Z -> str.
(** The API behind the client. *)
Variable get_user : str -> result GithubException User.
Variable get_repos : User -> result GithubException (list Repository).
Variable api : Repository -> RepoApi.
Variable clock : nat -> Z.

Definition _extract_profile (user : User) : Profile :=
  mkProfile (login user)
    (Utils.sanitize_text isprintable (user_name user))
    (Utils.sanitize_text isprintable (bio user))
    (Utils.sanitize_text isprintable (user_location user))
    (user_email user) (public_repos user) (followers user).

Definition _extract_repo_data (repo : Repository) : RepoData :=
  let languages :=
    match get_languages (api repo) with
    | Some keys => keys
    | None =>
        match language (api repo) with
        | Some (c :: l) => [c :: l]
        | _ => []
        end
    end in
  let topics :=
    match get_topics (api repo) with
    | Some t => t
    | None => []
    end in
  let readme_content :=
    match get_readme (api repo) with
    | Some decoded_content =>
        let content := utf8_decode_ignore decoded_content in
        Some (firstn README_PREVIEW_LENGTH
                (Utils.sanitize_text isprintable (Some content)))
    | None => None
    end in
  mkRepoData (name repo)
    (Utils.sanitize_text isprintable (description repo))
    (html_url (api repo)) languages (language (api repo)) topics
    (stargazers_count repo) (forks_count repo)
    (option_map isoformat (created_at (api repo)))
    (option_map isoformat (pushed_at repo))
    readme_content.

(** The handler of [GithubException] in [fetch_user_data]: what it
    raises for the exception [e]. *)
Definition error_raised (username : str) (e : GithubException) : fetch_error :=
  if status e =? 404
  then ValueError (py "GitHub user '" ++ username ++ py "' not found")
  else if status e =? 403
  then ValueError (py "GitHub API rate limit exceeded. Please try again later.")
  else match data_message e with
       | Some message => ValueError (py "GitHub API error: " ++ message)
       | None => AttributeError
       end.

(** [fetch_user_data]: the profile and the data of the ranked
    repositories, or what the handler raises.  The topics that the
    ranking reads are the [topics] of the repository, a read that is
    taken to answer; the second read, in the extraction, is the one
    of [RepoApi] and may fail. *)
Definition fetch_user_data (username : str)
  : result fetch_error (Profile * list RepoData) :=
  match get_user username with
  | Err e => Err (error_raised username e)
  | Ok user =>
      let profile := _extract_profile user in
      match get_repos user with
      | Err e => Err (error_raised username e)
      | Ok all_repos =>
          Ok (profile,
              List.map _extract_repo_data (_fetch_repositories clock all_repos))
      end
  end.

(** *** routes/github.py *)

Definition CACHE_DURATION_HOURS : Z := 24.

(** [get_cache_expiry], at the instant [now] that its clock reads. *)
Definition get_cache_expiry (now : Z) : Z :=
  now + CACHE_DURATION_HOURS * 3600 * 1000000.

(** A row of the table of fetched GitHub data. *)
Record GitHubData := mkGitHubData {
  row_id : Z;
  row_username : str;
  profile_data : Profile;
  repositories : list RepoData;
  cache_expires_at : Z
}.

(** [GitHubRepoSummary] and [GitHubFetchResponse]. *)
Record GitHubRepoSummary := mkGitHubRepoSummary {
  summary_name : str;
  summary_description : option str;
  summary_url : str;
  summary_languages : list str;
  summary_stars : Z;
  summary_forks : Z;
  summary_updated_at : str
}.

Record GitHubFetchResponse := mkGitHubFetchResponse {
  github_data_id : Z;
  response_profile : Profile;
  repository_count : N;
  top_repositories : list GitHubRepoSummary;
  response_cached : bool
}.

(** What leaves the route: its two errors, the validation error of
    the response model, and the [AttributeError] of the service, which
    the handler of [ValueError] does not catch. *)
Inductive route_error :=
| GitHubUserNotFoundError (username : str)
| GitHubAPIError (message : str)
| ResponseValidationError
| UncaughtAttributeError.

(** [GitHubRepoSummary(...)] for one stored repository: [updated_at]
    is declared [str], and [repo.get("updated_at", "")] gives the
    stored [None] of a repository that was never pushed to, which
    does not validate. *)
Definition repo_summary (repo : RepoData) : option GitHubRepoSummary :=
  match data_updated_at repo with
  | Some updated_at =>
      Some (mkGitHubRepoSummary (data_name repo) (Some (data_description repo))
              (data_url repo) (data_languages repo) (data_stars repo)
              (data_forks repo) updated_at)
  | None => None
  end.

Fixpoint repo_summaries (repos : list RepoData)
  : option (list GitHubRepoSummary) :=
  match repos with
  | [] => Some []
  | repo :: rest =>
      match repo_summary repo, repo_summaries rest with
      | Some s, Some ss => Some (s :: ss)
      | _, _ => None
      end
  end.

Definition _build_response (github_data : GitHubData) (cached : bool)
  : result route_error GitHubFetchResponse :=
  let profile := profile_data github_data in
  let repos := repositories github_data in
  match repo_summaries (firstn 5 repos) with
  | Some top =>
      Ok (mkGitHubFetchResponse (row_id github_data) profile
            (N.of_nat (List.length repos)) top cached)
  | None => Err ResponseValidationError
  end.

(** [fetch_github_data]: [cached] is the row that the table holds for
    the user name, [now] the instant read for the cache check,
    [later] the instant that [get_cache_expiry] reads, and [new_id]
    the key that the table gives a new row.  Beside the response
    stands the row as the handler leaves it.  Instants are naive UTC
    instants, as the configured SQLite database gives them back.  The
    words [not found] have no letter that lower-casing a character
    outside ASCII could produce, so the ASCII lower-casing finds them
    exactly where [str.lower] does. *)
Definition fetch_github_data (cached : option GitHubData) (now later : Z)
    (new_id : Z) (username : str)
  : result route_error GitHubFetchResponse * option GitHubData :=
  let username := strip username in
  let fresh :=
    match fetch_user_data username with
    | Err (ValueError error_msg) =>
        if contains (ascii_lower error_msg) (py "not found")
        then (Err (GitHubUserNotFoundError username), cached)
        else (Err (GitHubAPIError error_msg), cached)
    | Err AttributeError => (Err UncaughtAttributeError, cached)
    | Ok (profile, repos) =>
        let row :=
          mkGitHubData
            (match cached with Some old => row_id old | None => new_id end)
            username profile repos (get_cache_expiry later) in
        (_build_response row false, Some row)
    end in
  match cached with
  | Some row =>
      if now <? cache_expires_at row
      then (_build_response row true, cached)
      else fresh
  | None => fresh
  end.

End WithGitHub.

(** *** The score in closed form, over the code's [days] *)

Definition recency_term (since_push : option Z) : Z :=
  match since_push with
  | None => 0
  | Some d =>
      if d <? 30 then 50 else if d <? 90 then 30 else if d <? 180 then 15
      else 0
  end.

Definition spec_score (now : Z) (repo : Repository) : Z :=
  recency_term (option_map (fun pushed => days (now - pushed)) (pushed_at repo))
  + Z.min (stargazers_count repo * 5) 50
  + Z.min (forks_count repo * 2) 20
  + (if truthy (description repo) then 10 else 0)
  + (match topics repo with [] => 0 | _ :: _ => 10 end)
  + (if (10 <? size repo) && (size repo <? 100000) then 5 else 0).

Definition has_score (s : Z) (p : Repository * Z) : bool := snd p =? s.

Definition by_score_desc (a b : Repository * Z) : Prop := snd b <= snd a.

(** The repository of the scoring example, seen at instant [now]. *)
Definition example_repo (now : Z) : Repository :=
  mkRepository (py "demo") false false (Some (py "A demo")) 500
    (Some (now - 10 * DAY)) 3 1 [py "cli"].

(** A GitHub with one user, [octo], who owns the repository of the
    scoring example and one that was never pushed to; the README of
    both is the bytes of [Hi], a NUL and [!]. *)
Definition example_user : User :=
  mkUser (py "octo") (Some (py "Octo Cat")) None None None 2 0.

Definition never_pushed : Repository :=
  mkRepository (py "empty") false false (Some (py "Nothing yet")) 1 None 0 0 [].

Definition example_get_user (username : str) : result GithubException User :=
  if str_eqb username (py "octo") then Ok example_user
  else Err (mkGithubException 404 (Some (py "Not Found"))).

Definition limited_get_user (username : str) : result GithubException User :=
  Err (mkGithubException 403 (Some (py "API rate limit exceeded"))).

Definition example_get_repos (user : User)
  : result GithubException (list Repository) :=
  Ok [never_pushed; example_repo 0].

Definition example_api (repo : Repository) : RepoApi :=
  mkRepoApi (Some (py "Python")) (py "https://github.com/octo/" ++ name repo)
    None None None (Some [Byte.x48; Byte.x69; Byte.x00; Byte.x21]).

(** Decoding of bytes of the ASCII range, and a calendar that prints
    the same day for every instant. *)
Definition ascii_decode (content : list Byte.byte) : str :=
  List.map Byte.to_N content.

Definition example_isoformat (instant : Z) : str := py "2024-01-01T00:00:00".

Definition example_row (repos : list Repository) : GitHubData :=
  mkGitHubData 1 (py "octo") (_extract_profile Utils.ascii_isprintable example_user)
    (List.map (_extract_repo_data Utils.ascii_isprintable ascii_decode
                 example_isoformat example_api) repos)
    0.

End GitHubService.

(* ================================================================= *)
(** ** JSON values and Python dicts *)

Module Json.

(** What [json.loads] returns.  A dict keeps its keys in insertion
    order; it is a list of bindings with the first binding of a key
    the one that counts. *)
Unset Elimination Schemes.
Inductive json : Type :=
| JNull
| JBool (b : bool)
| JInt (z : Z)
| JFloat (f : float)
| JStr (s : str)
| JArr (items : list json)
| JObj (bindings : list (str * json)).
Set Elimination Schemes.

Definition dict := list (str * json).

(** [d.get(k)]. *)
Fixpoint dict_get (k : str) (d : dict) : option json :=
  match d with
  | [] => None
  | (k', v) :: d' => if str_eqb k' k then Some v else dict_get k d'
  end.

(** [k in d]. *)
Definition dict_has (k : str) (d : dict) : bool :=
  match dict_get k d with Some _ => true | None => false end.

(** [d.pop(k)], the dict that is left. *)
Fixpoint dict_pop (k : str) (d : dict) : dict :=
  match d with
  | [] => []
  | (k', v) :: d' =>
      if str_eqb k' k then dict_pop k d' else (k', v) :: dict_pop k d'
  end.

(** [d[k] = v]: a present key keeps its place, a new key goes last. *)
Fixpoint dict_set (k : str) (v : json) (d : dict) : dict :=
  match d with
  | [] => [(k, v)]
  | (k', v') :: d' =>
      if str_eqb k' k then (k', v) :: d' else (k', v') :: dict_set k v d'
  end.

(** Truthiness. *)
Definition truthy (v : json) : bool :=
  match v with
  | JNull => false
  | JBool b => b
  | JInt z => negb (z =? 0)%Z
  | JFloat f => negb (PrimFloat.eqb f PrimFloat.zero)
  | JStr s => truthy_str s
  | JArr l => match l with [] => false | _ :: _ => true end
  | JObj d => match d with [] => false | _ :: _ => true end
  end.

End Json.

(* ================================================================= *)
(** ** app/schemas/resume_schema.py *)

Module Schema.
Import Json.

Record ContactInfo := mkContactInfo {
  full_name : option str;
  email : option str;
  phone : option str;
  contact_location : option str;
  github : option str;
  linkedin : option str;
  website : option str
}.

Record TechnicalSkills := mkTechnicalSkills {
  languages : list str;
  frameworks_libraries : list str;
  tools_platforms : list str;
  databases : list str;
  other : list str
}.

Record Project := mkProject {
  project_name : str;
  project_description : str;
  project_technologies : list str;
  project_source : str;
  project_url : option str;
  highlights : list str;
  project_start_date : option str;
  project_end_date : option str
}.

Record Education := mkEducation {
  degree : str;
  institution : str;
  education_location : option str;
  graduation_date : option str;
  gpa : option str;
  relevant_coursework : list str;
  honors : list str
}.

Record Experience := mkExperience {
  role : str;
  organization : str;
  experience_location : option str;
  start_date : option str;
  end_date : option str;
  experience_description : list str;
  experience_technologies : list str
}.

Record Certification := mkCertification {
  certification_name : str;
  issuer : option str;
  date : option str;
  credential_id : option str;
  certification_url : option str
}.

Record CanonicalResume := mkCanonicalResume {
  contact : ContactInfo;
  summary : option str;
  technical_skills : TechnicalSkills;
  projects : list Project;
  education : list Education;
  experience : list Experience;
  certifications : list Certification;
  additional_info : option str
}.

Record DecisionLogEntry := mkDecisionLogEntry {
  section : str;
  action : str;
  items : list str;
  reason : str;
  source : str;
  confidence : str
}.

(** *** Field validation, as pydantic does it for these annotations.
    [None] is a [ValidationError]; keys the model does not declare are
    ignored. *)

Definition opt_bind {A B} (o : option A) (k : A -> option B) : option B :=
  match o with Some a => k a | None => None end.

Fixpoint traverse {A B} (f : A -> option B) (l : list A) : option (list B) :=
  match l with
  | [] => Some []
  | a :: l' =>
      match f a, traverse f l' with
      | Some b, Some bs => Some (b :: bs)
      | _, _ => None
      end
  end.

Definition as_str (v : json) : option str :=
  match v with JStr s => Some s | _ => None end.

Definition as_list {A} (f : json -> option A) (v : json) : option (list A) :=
  match v with JArr l => traverse f l | _ => None end.

(** [name: T = Field(...)]: the key must be there. *)
Definition required {A} (f : json -> option A) (k : string) (d : dict)
  : option A :=
  match dict_get (py k) d with Some v => f v | None => None end.

(** [name: Optional[T] = Field(None)]. *)
Definition optional {A} (f : json -> option A) (k : string) (d : dict)
  : option (option A) :=
  match dict_get (py k) d with
  | None => Some None
  | Some JNull => Some None
  | Some v => option_map Some (f v)
  end.

(** [name: T = Field(default_factory=...)]. *)
Definition defaulted {A} (f : json -> option A) (dflt : A) (k : string)
    (d : dict) : option A :=
  match dict_get (py k) d with
  | None => Some dflt
  | Some v => f v
  end.

(** A nested model takes a dict. *)
Definition as_model {A} (f : dict -> option A) (v : json) : option A :=
  match v with JObj d => f d | _ => None end.

(** The validators of closed vocabularies: [v.lower()] must be one of
    the allowed words, and it is what the field gets. *)
Definition one_of (allowed : list string) (v : str) : option str :=
  let w := ascii_lower v in
  if existsb (fun a => str_eqb w (py a)) allowed then Some w else None.

Definition validate_source : str -> option str :=
  one_of ["resume"; "github"; "both"]%string.

Definition validate_action : str -> option str :=
  one_of ["included"; "excluded"; "merged"; "normalized"]%string.

Definition validate_confidence : str -> option str :=
  one_of ["high"; "medium"; "low"]%string.

(** The validator of [gpa]; it does not run on the default, which is
    [None] as well. *)
Definition validate_gpa (v : option str) : option str :=
  match v with None => None | Some s => Some (strip s) end.

Notation "'let?' x ':=' r 'in' k" := (opt_bind r (fun x => k))
  (at level 10, x name, r at level 100, k at level 200).

Section WithEmailValidator.
(** [EmailStr]: the check and normalisation of the email-validator
    package. *)
Variable validate_email : str -> option str.

Definition as_email (v : json) : option str :=
  opt_bind (as_str v) validate_email.

Definition new_ContactInfo (d : dict) : option ContactInfo :=
  let? full_name := optional as_str "full_name" d in
  let? email := optional as_email "email" d in
  let? phone := optional as_str "phone" d in
  let? location := optional as_str "location" d in
  let? github := optional as_str "github" d in
  let? linkedin := optional as_str "linkedin" d in
  let? website := optional as_str "website" d in
  Some (mkContactInfo full_name email phone location github linkedin website).

Definition new_TechnicalSkills (d : dict) : option TechnicalSkills :=
  let? languages := defaulted (as_list as_str) [] "languages" d in
  let? frameworks := defaulted (as_list as_str) [] "frameworks_libraries" d in
  let? tools := defaulted (as_list as_str) [] "tools_platforms" d in
  let? databases := defaulted (as_list as_str) [] "databases" d in
  let? other := defaulted (as_list as_str) [] "other" d in
  Some (mkTechnicalSkills languages frameworks tools databases other).

Definition new_Project (d : dict) : option Project :=
  let? name := required as_str "name" d in
  let? description := required as_str "description" d in
  let? technologies := required (as_list as_str) "technologies" d in
  let? source := required (fun v => opt_bind (as_str v) validate_source)
                   "source" d in
  let? url := optional as_str "url" d in
  let? highlights := defaulted (as_list as_str) [] "highlights" d in
  let? start_date := optional as_str "start_date" d in
  let? end_date := optional as_str "end_date" d in
  Some (mkProject name description technologies source url highlights
          start_date end_date).

Definition new_Education (d : dict) : option Education :=
  let? degree := required as_str "degree" d in
  let? institution := required as_str "institution" d in
  let? location := optional as_str "location" d in
  let? graduation_date := optional as_str "graduation_date" d in
  let? gpa := optional as_str "gpa" d in
  let? coursework := defaulted (as_list as_str) [] "relevant_coursework" d in
  let? honors := defaulted (as_list as_str) [] "honors" d in
  Some (mkEducation degree institution location graduation_date
          (validate_gpa gpa) coursework honors).

Definition new_Experience (d : dict) : option Experience :=
  let? role := required as_str "role" d in
  let? organization := required as_str "organization" d in
  let? location := optional as_str "location" d in
  let? start_date := optional as_str "start_date" d in
  let? end_date := optional as_str "end_date" d in
  let? description := required (as_list as_str) "description" d in
  let? technologies := defaulted (as_list as_str) [] "technologies" d in
  Some (mkExperience role organization location start_date end_date
          description technologies).

Definition new_Certification (d : dict) : option Certification :=
  let? name := required as_str "name" d in
  let? issuer := optional as_str "issuer" d in
  let? date := optional as_str "date" d in
  let? credential_id := optional as_str "credential_id" d in
  let? url := optional as_str "url" d in
  Some (mkCertification name issuer date credential_id url).

(** [CanonicalResume] called on the bindings of [resume_data]. *)
Definition new_CanonicalResume (d : dict) : option CanonicalResume :=
  let? contact := required (as_model new_ContactInfo) "contact" d in
  let? summary := optional as_str "summary" d in
  let? skills := defaulted (as_model new_TechnicalSkills)
                   (mkTechnicalSkills [] [] [] [] []) "technical_skills" d in
  let? projects := defaulted (as_list (as_model new_Project)) [] "projects" d in
  let? education :=
    defaulted (as_list (as_model new_Education)) [] "education" d in
  let? experience :=
    defaulted (as_list (as_model new_Experience)) [] "experience" d in
  let? certifications :=
    defaulted (as_list (as_model new_Certification)) [] "certifications" d in
  let? additional_info := optional as_str "additional_info" d in
  Some (mkCanonicalResume contact summary skills projects education
          experience certifications additional_info).

End WithEmailValidator.

(** [DecisionLogEntry] called on the bindings of [entry]. *)
Definition new_DecisionLogEntry (d : dict) : option DecisionLogEntry :=
  let? section := required as_str "section" d in
  let? action := required (fun v => opt_bind (as_str v) validate_action)
                   "action" d in
  let? items := required (as_list as_str) "items" d in
  let? reason := required as_str "reason" d in
  let? source := required as_str "source" d in
  let? confidence :=
    required (fun v => opt_bind (as_str v) validate_confidence)
      "confidence" d in
  Some (mkDecisionLogEntry section action items reason source confidence).

End Schema.

(* ================================================================= *)
(** ** app/services/llm_service.py *)

Module LLMService.
Import Json Schema.

Definition QUOTE : char := 34.
Definition COLON : char := 58.
Definition BACKTICK : char := 96.
Definition LBRACE : char := 123.
Definition RBRACE : char := 125.

(** Exceptions below [ValueError]: those inside the validating [try]
    block, which all end as a schema validation error, and those that
    leave [_build_user_prompt]. *)
Inductive exn := AttributeError | TypeError | KeyError | ValidationError.

(** What leaves [structure_resume]: its [ValueError]s, by what they
    report, and an exception that building the prompt raised, which
    nothing catches there. *)
Inductive error :=
| MissingDataSource
| LLMApiError (message : str)
| ResponseRecoveryError
| SchemaValidationError
| PromptError (e : exn).

(** The records written to the log. *)
Inductive log_event :=
| calling_llm (has_resume has_github : bool)
| llm_response_received
| llm_api_error (message : str)
| attempting_json_repair
| json_parse_failed
| invalid_decision_entry (entry : json)
| schema_validation_error (parsed_data : json).

(** *** [_normalize_schema] *)

(** [if canonical not in entry and alias in entry:
       entry[canonical] = entry.pop(alias)] *)
Definition rename_alias (canonical alias : str) (entry : dict) : dict :=
  if negb (dict_has canonical entry) && dict_has alias entry
  then match dict_get alias entry with
       | Some v => dict_set canonical v (dict_pop alias entry)
       | None => entry
       end
  else entry.

(** [if "description" in entry and isinstance(entry["description"], str):
       entry["description"] = [entry["description"]]] *)
Definition wrap_description (entry : dict) : dict :=
  match dict_get (py "description") entry with
  | Some (JStr s) => dict_set (py "description") (JArr [JStr s]) entry
  | _ => entry
  end.

Definition normalize_experience (entry : dict) : dict :=
  let entry := rename_alias (py "role") (py "title") entry in
  let entry := rename_alias (py "organization") (py "company") entry in
  wrap_description entry.

Definition normalize_education (entry : dict) : dict :=
  let entry := rename_alias (py "institution") (py "school") entry in
  rename_alias (py "institution") (py "university") entry.

Definition normalize_project (entry : dict) : dict :=
  let entry := rename_alias (py "highlights") (py "achievements") entry in
  rename_alias (py "highlights") (py "bullets") entry.

(** One of the three loops: the entries of [resume[key]] that are
    dicts are rewritten where they stand, when [resume[key]] is a
    list. *)
Definition on_dict (f : dict -> dict) (entry : json) : json :=
  match entry with
  | JObj d => JObj (f d)
  | _ => entry
  end.

Definition normalize_entries (key : str) (f : dict -> dict) (resume : dict)
  : dict :=
  match dict_get key resume with
  | Some (JArr entries) => dict_set key (JArr (List.map (on_dict f) entries)) resume
  | _ => resume
  end.

Definition normalize_resume (resume : dict) : dict :=
  let resume := normalize_entries (py "experience") normalize_experience resume in
  let resume := normalize_entries (py "education") normalize_education resume in
  normalize_entries (py "projects") normalize_project resume.

(** The function mutates [data] in place; here it returns the dict as
    it stands afterwards.  [get] on a value that is not a dict raises
    [AttributeError], before anything has been changed. *)
Definition _normalize_schema (data : json) : result exn json :=
  match data with
  | JObj d =>
      let resume :=
        match dict_get (py "structured_resume") d with
        | Some r => r
        | None => JObj []
        end in
      if negb (truthy resume) then Ok data
      else match resume with
           | JObj r =>
               Ok (JObj (dict_set (py "structured_resume")
                           (JObj (normalize_resume r)) d))
           | _ => Err AttributeError
           end
  | _ => Err AttributeError
  end.

(** *** [_attempt_json_repair] *)

Definition markers : list str :=
  [ LBRACE :: QUOTE :: py "structured_resume" ++ [QUOTE; COLON];
    QUOTE :: py "structured_resume" ++ [QUOTE; COLON];
    [LBRACE] ].

(** [content.rfind("}") + 1]. *)
Definition end_of (content : str) : nat :=
  match rfind_char content RBRACE with
  | Some j => S j
  | None => O
  end.

(** *** [_build_user_prompt] *)

(** [StructuringSettings] of api_schemas.py. *)
Record StructuringSettings := mkStructuringSettings {
  project_count : Z;
  resume_language : str;
  verbosity : str;
  primary_color : str
}.

(** The decimal digits of an integer, as [str] prints them. *)
Definition decimal (z : Z) : str :=
  py (DecimalString.NilZero.string_of_int (Z.to_int z)).

(** The values that a loop over [v] yields, which are also what
    [len(v)] counts: the items of a list, the keys of a dict, the
    characters of a string; anything else raises [TypeError]. *)
Definition iterate (v : json) : result exn (list json) :=
  match v with
  | JArr l => Ok l
  | JObj d => Ok (List.map (fun kv => JStr (fst kv)) d)
  | JStr s => Ok (List.map (fun c => JStr [c]) s)
  | _ => Err TypeError
  end.

Section WithFormatting.
(** The Unicode database behind [sanitize_text], and [repr] of a
    float, a list or a dict. *)
Variable isprintable : char -> bool.
Variable repr : json -> str.

(** What a replacement field of an f-string prints: [str(v)]. *)
Definition format (v : json) : str :=
  match v with
  | JStr s => s
  | JNull => py "None"
  | JBool true => py "True"
  | JBool false => py "False"
  | JInt z => decimal z
  | _ => repr v
  end.

(** [v.get(k, default)]: only a dict has [get]. *)
Definition get (v : json) (k : string) (default : json) : result exn json :=
  match v with
  | JObj d =>
      Ok (match dict_get (py k) d with Some x => x | None => default end)
  | _ => Err AttributeError
  end.

(** [v[k]] for a string [k]. *)
Definition subscript (v : json) (k : string) : result exn json :=
  match v with
  | JObj d =>
      match dict_get (py k) d with
      | Some x => Ok x
      | None => Err KeyError
      end
  | _ => Err TypeError
  end.

(** [sanitize_text(v)] for a value that need not be a string: a falsy
    value gives the empty string, and of the others only a string has
    [replace]. *)
Definition sanitize_value (v : json) : result exn str :=
  if negb (truthy v) then Ok []
  else match v with
       | JStr s => Ok (Utils.sanitize_text isprintable (Some s))
       | _ => Err AttributeError
       end.

(** [sep.join(v)]: what the loop over [v] yields must be strings. *)
Definition join_value (sep : str) (v : json) : result exn str :=
  match iterate v with
  | Ok items =>
      match traverse as_str items with
      | Some l => Ok (join sep l)
      | None => Err TypeError
      end
  | Err e => Err e
  end.

(** The lines of one repository, the [i]-th of the loop. *)
Definition repo_lines (i : nat) (repo : json) : result exn (list str) :=
  let* name := subscript repo "name" in
  let* description := get repo "description" JNull in
  let* description := sanitize_value description in
  let* languages := get repo "languages" (JArr []) in
  let* languages := join_value (py ", ") languages in
  let* url := get repo "url" (JStr (py "N/A")) in
  let* stars := get repo "stars" (JInt 0) in
  let* readme_value := get repo "readme" JNull in
  let* readme :=
    if truthy readme_value
    then
      let* value := subscript repo "readme" in
      let* readme := sanitize_value value in
      Ok [py "   README: " ++ firstn 500 readme]
    else Ok [] in
  Ok ([decimal (Z.of_nat i) ++ py ". " ++ format name;
       py "   Description: "
         ++ (if truthy_str description then description
             else py "No description");
       py "   Languages: " ++ languages;
       py "   URL: " ++ format url;
       py "   Stars: " ++ format stars]
      ++ readme ++ [[]]).

(** [for i, repo in enumerate(repos, 1)]. *)
Fixpoint repos_lines (i : nat) (repos : list json) : result exn (list str) :=
  match repos with
  | [] => Ok []
  | repo :: rest =>
      let* lines := repo_lines i repo in
      let* more := repos_lines (S i) rest in
      Ok (lines ++ more)
  end.

(** The lines between the [github_data] tags for a dict that is not
    empty. *)
Definition github_lines (github_data : dict) : result exn (list str) :=
  let profile :=
    match dict_get (py "profile") github_data with
    | Some p => p
    | None => JObj []
    end in
  let* username := get profile "username" (JStr (py "N/A")) in
  let* name := get profile "name" (JStr (py "N/A")) in
  let* name := sanitize_value name in
  let* bio := get profile "bio" (JStr (py "N/A")) in
  let* bio := sanitize_value bio in
  let* location := get profile "location" (JStr (py "N/A")) in
  let* location := sanitize_value location in
  let* email := get profile "email" (JStr (py "N/A")) in
  let repos :=
    match dict_get (py "repositories") github_data with
    | Some r => r
    | None => JArr []
    end in
  let* items := iterate repos in
  let* lines := repos_lines 1 items in
  Ok ([py "PROFILE:";
       py "  Username: " ++ format username;
       py "  Name: " ++ name;
       py "  Bio: " ++ bio;
       py "  Location: " ++ location;
       py "  Email: " ++ format email;
       [];
       py "REPOSITORIES (" ++ decimal (Z.of_nat (List.length items))
         ++ py " total):"]
      ++ lines).

(** [_build_user_prompt]: the prompt, or the exception that a value
    of [github_data] of another shape than the code expects raises. *)
Definition _build_user_prompt (resume_text : option str)
    (github_data : option dict) (custom_instructions : option str)
    (settings : option StructuringSettings) : result exn str :=
  let resume :=
    match resume_text with
    | Some (c :: t) =>
        strip (Utils.sanitize_text isprintable (Some (c :: t)))
    | _ => py "Not provided"
    end in
  let* github :=
    match github_data with
    | Some (b :: d) => github_lines (b :: d)
    | _ => Ok [py "Not provided"]
    end in
  let custom :=
    match custom_instructions with
    | Some (c :: t) =>
        [py "<custom_instructions>"; strip (c :: t);
         py "</custom_instructions>"; [];
         py "</custom_instructions>"; []]
    | _ => []
    end in
  let rules :=
    match settings with
    | Some s =>
        [py "2. Write the resume content in " ++ resume_language s ++ py ".";
         py "3. Use a " ++ verbosity s ++ py " writing style.";
         py "4. Select exactly " ++ decimal (project_count s)
           ++ py " of the most relevant projects."]
    | None => [py "2. Include 5-8 most relevant projects."]
    end in
  let follow :=
    match custom_instructions with
    | Some (_ :: _) => [py "5. Follow the custom instructions provided above."]
    | _ => []
    end in
  Ok (join [LF]
        ([py "Please structure the following data into a canonical resume.";
          [];
          py "<unstructured_resume>";
          resume;
          py "</unstructured_resume>";
          [];
          py "<github_data>"]
         ++ github
         ++ [py "</github_data>"; []]
         ++ custom
         ++ [py "GOAL: Extract and normalize information from the tags above into the JSON schema.";
             py "RULES:";
             py "1. Use only the provided information."]
         ++ rules ++ follow)).

End WithFormatting.

Section WithJsonDecoder.
(** [json.loads]; [None] is [JSONDecodeError]. *)
Variable json_loads : str -> option json.

Fixpoint repair_loop (content : str) (ms : list str) : result error json :=
  match ms with
  | [] => Err ResponseRecoveryError
  | marker :: rest =>
      match find content marker with
      | None => repair_loop content rest
      | Some start =>
          let end_ := end_of content in
          if (start <? end_)%nat
          then
            let candidate := slice content start end_ in
            let candidate :=
              if negb (startswith candidate [LBRACE])
              then LBRACE :: candidate else candidate in
            match json_loads candidate with
            | Some parsed => Ok parsed
            | None => repair_loop content rest
            end
          else repair_loop content rest
      end
  end.

Definition _attempt_json_repair (content : str) : result error json :=
  repair_loop content markers.

(** *** [_parse_response] *)

(** The loop over the decision log, [for entry in decision_log_data]
    with [iterate] for what it yields: an entry that does not validate
    (or is no dict at all) is logged and left out. *)
Fixpoint decision_log_loop (entries : list json)
  : list DecisionLogEntry * list log_event :=
  match entries with
  | [] => ([], [])
  | entry :: rest =>
      let '(decision_log, warnings) := decision_log_loop rest in
      match as_model new_DecisionLogEntry entry with
      | Some e => (e :: decision_log, warnings)
      | None => (decision_log, invalid_decision_entry entry :: warnings)
      end
  end.

Section WithEmailValidator.
Variable validate_email : str -> option str.

Definition response := (CanonicalResume * list DecisionLogEntry)%type.

(** The second [try] block of [_parse_response], on the parsed value. *)
Definition validate_parsed (parsed : json)
  : result error response * list log_event :=
  match _normalize_schema parsed with
  | Err _ => (Err SchemaValidationError, [schema_validation_error parsed])
  | Ok parsed =>
      let failed := (Err SchemaValidationError, [schema_validation_error parsed]) in
      match parsed with
      | JObj d =>
          let resume_data :=
            match dict_get (py "structured_resume") d with
            | Some r => r
            | None => JObj []
            end in
          match as_model (new_CanonicalResume validate_email) resume_data with
          | None => failed
          | Some structured_resume =>
              let decision_log_data :=
                match dict_get (py "decision_log") d with
                | Some l => l
                | None => JArr []
                end in
              match iterate decision_log_data with
              | Err _ => failed
              | Ok entries =>
                  let '(decision_log, warnings) := decision_log_loop entries in
                  (Ok (structured_resume, decision_log), warnings)
              end
          end
      | _ => failed
      end
  end.

Definition _parse_response (content : str)
  : result error response * list log_event :=
  match json_loads content with
  | Some parsed => validate_parsed parsed
  | None =>
      match _attempt_json_repair content with
      | Ok parsed =>
          let '(r, logs) := validate_parsed parsed in
          (r, attempting_json_repair :: logs)
      | Err e => (Err e, [attempting_json_repair; json_parse_failed])
      end
  end.

(** *** [structure_resume] *)

(** The fences are taken off the model's answer. *)
Definition clean_content (content : str) : str :=
  let clean_content := strip content in
  let clean_content :=
    if startswith clean_content ([BACKTICK; BACKTICK; BACKTICK] ++ py "json")
    then skipn 7 clean_content else clean_content in
  let clean_content :=
    if endswith clean_content [BACKTICK; BACKTICK; BACKTICK]
    then firstn (List.length clean_content - 3) clean_content
    else clean_content in
  strip clean_content.

(** The service object and the world it acts on: the cached system
    prompt, the calls made to the model so far (with their prompts),
    and the log. *)
Record service := mkService {
  _system_prompt : option str;
  model_calls : list (str * str);
  log : list log_event
}.

Definition truthy_text (t : option str) : bool :=
  match t with Some (_ :: _) => true | _ => false end.

Definition truthy_dict (d : option dict) : bool :=
  match d with Some (_ :: _) => true | _ => false end.

Section WithModel.
(** The Unicode database and [repr] behind the prompt builder, the
    prompt file if it exists, the inline prompt, and the model behind
    the Groq client, which answers with a text or raises with a
    message. *)
Variable isprintable : char -> bool.
Variable repr : json -> str.
Variable prompt_file : option str.
Variable _get_default_system_prompt : str.
Variable complete : str -> str -> result str str.

Definition _load_system_prompt (self : service) : str * service :=
  match _system_prompt self with
  | Some p => (p, self)
  | None =>
      let p := match prompt_file with
               | Some text => text
               | None => _get_default_system_prompt
               end in
      (p, mkService (Some p) (model_calls self) (log self))
  end.

(** [structure_resume].  An exception of the prompt builder leaves
    the function as it is, after the system prompt was loaded and
    before anything is logged or asked. *)
Definition structure_resume (resume_text : option str)
    (github_data : option dict) (custom_instructions : option str)
    (settings : option StructuringSettings) (self : service)
  : result error response * service :=
  if negb (truthy_text resume_text) && negb (truthy_dict github_data)
  then (Err MissingDataSource, self)
  else
    let '(_, self) := _load_system_prompt self in
    let '(system_prompt, self) := _load_system_prompt self in
    match _build_user_prompt isprintable repr resume_text github_data
            custom_instructions settings with
    | Err e => (Err (PromptError e), self)
    | Ok user_prompt =>
        let called :=
          calling_llm (truthy_text resume_text) (truthy_dict github_data) in
        let calls := model_calls self ++ [(system_prompt, user_prompt)] in
        match complete system_prompt user_prompt with
        | Err message =>
            (Err (LLMApiError message),
             mkService (_system_prompt self) calls
               (log self ++ [called; llm_api_error message]))
        | Ok content =>
            let '(r, logs) := _parse_response (clean_content content) in
            (r, mkService (_system_prompt self) calls
                  (log self ++ [called; llm_response_received] ++ logs))
        end
    end.

End WithModel.
End WithEmailValidator.
End WithJsonDecoder.

(** *** The reconciler and the recovery in executable form, over the
    primitives of the code; they stand between the code and the
    relations of [Specification] *)

(** [entry'] is [entry] with [alias] renamed to [canonical], which
    happens only when [canonical] is absent and [alias] is present;
    every other key keeps its value. *)
Definition renamed (canonical alias : str) (entry entry' : dict) : Prop :=
  match dict_get canonical entry, dict_get alias entry with
  | None, Some v =>
      dict_get canonical entry' = Some v
      /\ dict_get alias entry' = None
      /\ forall k, k <> canonical -> k <> alias ->
                   dict_get k entry' = dict_get k entry
  | _, _ => entry' = entry
  end.

(** [entry'] is [entry] with a string under [description] wrapped into
    a list of one. *)
Definition description_wrapped (entry entry' : dict) : Prop :=
  match dict_get (py "description") entry with
  | Some (JStr s) =>
      dict_get (py "description") entry' = Some (JArr [JStr s])
      /\ forall k, k <> py "description" ->
                   dict_get k entry' = dict_get k entry
  | _ => entry' = entry
  end.

(** The candidate that an anchor yields: the text from the anchor to
    the last closing brace, with an opening brace put in front when it
    has none. *)
Definition candidate_at (content anchor : str) : option str :=
  match find content anchor, rfind_char content RBRACE with
  | Some i, Some j =>
      if (i <=? j)%nat
      then let sub := slice content i (S j) in
           Some (if startswith sub [LBRACE] then sub else LBRACE :: sub)
      else None
  | _, _ => None
  end.

Definition anchor_1 : str :=
  LBRACE :: QUOTE :: py "structured_resume" ++ [QUOTE; COLON].
Definition anchor_2 : str := QUOTE :: py "structured_resume" ++ [QUOTE; COLON].
Definition anchor_3 : str := [LBRACE].

Definition try_anchor (json_loads : str -> option json)
    (content anchor : str) : option json :=
  match candidate_at content anchor with
  | Some candidate => json_loads candidate
  | None => None
  end.

Definition repair_in_order (json_loads : str -> option json) (content : str)
  : result error json :=
  match try_anchor json_loads content anchor_1 with
  | Some parsed => Ok parsed
  | None =>
      match try_anchor json_loads content anchor_2 with
      | Some parsed => Ok parsed
      | None =>
          match try_anchor json_loads content anchor_3 with
          | Some parsed => Ok parsed
          | None => Err ResponseRecoveryError
          end
      end
  end.

(** *** The validator, as the specification words it *)

(** A parsed response whose decision log is the list [entries]. *)
Definition with_decision_log (d : dict) (entries : list json) : json :=
  JObj (dict_set (py "decision_log") (JArr entries) d).

(** The entries that validate, in their order. *)
Definition valid_entries (entries : list json) : list DecisionLogEntry :=
  flat_map (fun entry =>
              match as_model new_DecisionLogEntry entry with
              | Some e => [e]
              | None => []
              end) entries.

(** The resume of a parsed response, reconciled and validated. *)
Definition validated_resume (validate_email : str -> option str)
    (parsed : json) : option CanonicalResume :=
  match _normalize_schema parsed with
  | Ok (JObj d) =>
      as_model (new_CanonicalResume validate_email)
        (match dict_get (py "structured_resume") d with
         | Some r => r
         | None => JObj []
         end)
  | _ => None
  end.

(** *** Sample data *)

Definition jstr (s : string) : json := JStr (py s).

(** The experience entry of the reconciler example. *)
Definition example_entry : dict :=
  [(py "title", jstr "Engineer"); (py "company", jstr "Acme");
   (py "description", jstr "Did X")].

(** The keys of the reconciler. *)
Definition k_resume : str := py "structured_resume".
Definition k_role : str := py "role".
Definition k_title : str := py "title".
Definition k_organization : str := py "organization".
Definition k_company : str := py "company".
Definition k_institution : str := py "institution".
Definition k_school : str := py "school".
Definition k_university : str := py "university".
Definition k_highlights : str := py "highlights".
Definition k_achievements : str := py "achievements".
Definition k_bullets : str := py "bullets".

(** An entry that has both the canonical key and its alias. *)
Definition example_both : dict :=
  [(py "role", jstr "Lead"); (py "title", jstr "Engineer")].

(** The closed vocabularies. *)
Definition SOURCES : list str := [py "resume"; py "github"; py "both"].
Definition ACTIONS : list str :=
  [py "included"; py "excluded"; py "merged"; py "normalized"].
Definition CONFIDENCES : list str := [py "high"; py "medium"; py "low"].

(** A project that validates as long as nothing is done to it. *)
Definition example_project : dict :=
  [(py "name", jstr "ResumeForge"); (py "description", jstr "A resume tool");
   (py "technologies", JArr [jstr "Python"]); (py "source", jstr "GitHub");
   (py "achievements", JInt 3)].

(** An experience entry that names its fields the other way. *)
Definition example_aliased : dict :=
  [(py "title", jstr "Engineer"); (py "location", jstr "Paris");
   (py "company", jstr "Acme"); (py "description", jstr "Did X")].

(** The text of the recovery example and the object inside it. *)
Definition example_payload : str :=
  anchor_1 ++ py " {" ++ [QUOTE] ++ py "contact" ++ [QUOTE] ++ py ":{}}}".

Definition example_raw : str :=
  py "Here is the result " ++ example_payload ++ py " and some trailing notes".

Definition example_object : json :=
  JObj [(py "structured_resume", JObj [(py "contact", JObj [])])].

(** A decoder that knows the example payload and nothing else. *)
Definition example_loads (s : str) : option json :=
  if str_eqb s example_payload then Some example_object else None.

(** A service that has done nothing yet, a model that answers with the
    recovery example, and an email check that takes everything. *)
Definition fresh_service : service := mkService None [] [].

Definition example_model (system_prompt user_prompt : str) : result str str :=
  Ok example_raw.

Definition any_email (s : str) : option str := Some s.

(** A [repr] that prints nothing, for inputs that need none. *)
Definition no_repr (v : json) : str := [].

(** GitHub data whose one repository has no name, and GitHub data
    whose profile is a string. *)
Definition nameless_repository : dict := [(py "repositories", JArr [JObj []])].

Definition profile_of_text : dict := [(py "profile", JStr (py "octo"))].

Definition empty_resume : CanonicalResume :=
  mkCanonicalResume (mkContactInfo None None None None None None None) None
    (mkTechnicalSkills [] [] [] [] []) [] [] [] [] None.

(** The bindings of a decision-log entry with the given confidence. *)
Definition decision_fields (confidence : string) : dict :=
  [(py "section", jstr "projects"); (py "action", jstr "Merged");
   (py "items", JArr [jstr "ResumeForge"]); (py "reason", jstr "recent");
   (py "source", jstr "somewhere else"); (py "confidence", jstr confidence)].

(** A model that is out of reach. *)
Definition failing_model (system_prompt user_prompt : str) : result str str :=
  Err (py "quota").

(** A decision-log entry with the given confidence. *)
Definition example_decision (confidence : string) : json :=
  JObj [(py "section", jstr "projects"); (py "action", jstr "included");
        (py "items", JArr [jstr "ResumeForge"]); (py "reason", jstr "recent");
        (py "source", jstr "github"); (py "confidence", jstr confidence)].

Definition example_response : json :=
  JObj [(py "structured_resume", JObj [(py "contact", JObj [])]);
        (py "decision_log",
         JArr [example_decision "high"; example_decision "very high";
               example_decision "LOW"])].

End LLMService.

(* ================================================================= *)
(** ** app/api/routes/resume.py *)

Module ResumeRoutes.
Import Json Schema Parsers ParserFactory.

(** *** models/resume.py *)

Inductive UploadStatus :=
| PENDING | PARSING | PARSED | STRUCTURING | COMPLETED | FAILED.

(** What made [parser.parse] raise. *)
Inductive parse_failure :=
| PdfFailure (e : PDFParser.parse_error)
| DecodeFailure (e : Codec.UnicodeDecodeError).

(** The exception whose [str(e)] an upload keeps as its
    [error_message]. *)
Inductive failure :=
| ParseFailure (e : parse_failure)
| StructureFailure (e : LLMService.error).

(** A row of [resume_uploads]. *)
Record ResumeUpload := mkResumeUpload {
  upload_id : Z;
  upload_filename : str;
  file_type : str;
  file_size : N;
  raw_text : option str;
  upload_status : UploadStatus;
  upload_error_message : option failure
}.

(** A row of [structured_resumes]; the JSON columns hold what
    [model_dump] gave. *)
Record StructuredResume := mkStructuredResume {
  structured_id : Z;
  row_resume_upload_id : option Z;
  row_github_data_id : option Z;
  row_contact : option dict;
  row_summary : option str;
  row_technical_skills : option dict;
  row_projects : option (list dict);
  row_education : option (list dict);
  row_experience : option (list dict);
  row_certifications : option (list dict);
  row_additional_info : option str
}.

(** A row of [decision_logs]. *)
Record DecisionLog := mkDecisionLog {
  structured_resume_id : Z;
  decisions : list dict
}.

(** *** [model_dump] of the models of resume_schema.py: every field
    under its name, [None] for an absent optional value. *)

Definition dump_opt (v : option str) : json :=
  match v with Some s => JStr s | None => JNull end.

Definition dump_list (l : list str) : json := JArr (List.map JStr l).

Definition dump_ContactInfo (c : ContactInfo) : dict :=
  [(py "full_name", dump_opt (full_name c));
   (py "email", dump_opt (email c));
   (py "phone", dump_opt (phone c));
   (py "location", dump_opt (contact_location c));
   (py "github", dump_opt (github c));
   (py "linkedin", dump_opt (linkedin c));
   (py "website", dump_opt (website c))].

Definition dump_TechnicalSkills (s : TechnicalSkills) : dict :=
  [(py "languages", dump_list (languages s));
   (py "frameworks_libraries", dump_list (frameworks_libraries s));
   (py "tools_platforms", dump_list (tools_platforms s));
   (py "databases", dump_list (databases s));
   (py "other", dump_list (other s))].

Definition dump_Project (p : Project) : dict :=
  [(py "name", JStr (project_name p));
   (py "description", JStr (project_description p));
   (py "technologies", dump_list (project_technologies p));
   (py "source", JStr (project_source p));
   (py "url", dump_opt (project_url p));
   (py "highlights", dump_list (highlights p));
   (py "start_date", dump_opt (project_start_date p));
   (py "end_date", dump_opt (project_end_date p))].

Definition dump_Education (e : Education) : dict :=
  [(py "degree", JStr (degree e));
   (py "institution", JStr (institution e));
   (py "location", dump_opt (education_location e));
   (py "graduation_date", dump_opt (graduation_date e));
   (py "gpa", dump_opt (gpa e));
   (py "relevant_coursework", dump_list (relevant_coursework e));
   (py "honors", dump_list (honors e))].

Definition dump_Experience (e : Experience) : dict :=
  [(py "role", JStr (role e));
   (py "organization", JStr (organization e));
   (py "location", dump_opt (experience_location e));
   (py "start_date", dump_opt (start_date e));
   (py "end_date", dump_opt (end_date e));
   (py "description", dump_list (experience_description e));
   (py "technologies", dump_list (experience_technologies e))].

Definition dump_Certification (c : Certification) : dict :=
  [(py "name", JStr (certification_name c));
   (py "issuer", dump_opt (issuer c));
   (py "date", dump_opt (date c));
   (py "credential_id", dump_opt (credential_id c));
   (py "url", dump_opt (certification_url c))].

Definition dump_DecisionLogEntry (e : DecisionLogEntry) : dict :=
  [(py "section", JStr (section e));
   (py "action", JStr (action e));
   (py "items", dump_list (items e));
   (py "reason", JStr (Schema.reason e));
   (py "source", JStr (source e));
   (py "confidence", JStr (confidence e))].

(** [[f(x) for x in l] if l else None]. *)
Definition dumps_or_none {A} (f : A -> dict) (l : list A)
  : option (list dict) :=
  match l with
  | [] => None
  | _ :: _ => Some (List.map f l)
  end.

(** *** [upload_resume] *)

Definition DOT : char := 46.

(** [filename.split(".")[-1]]: what follows the last dot, the whole
    name when it has none. *)
Definition last_part (filename : str) : str :=
  match rfind_char filename DOT with
  | Some i => skipn (S i) filename
  | None => filename
  end.

(** [raw_text[:500] if raw_text else None]. *)
Definition preview (raw_text : option str) : option str :=
  match raw_text with
  | Some (c :: t) => Some (firstn 500 (c :: t))
  | _ => None
  end.

Record ResumeUploadResponse := mkResumeUploadResponse {
  response_upload_id : Z;
  response_filename : str;
  response_file_type : str;
  response_file_size : N;
  response_status : UploadStatus;
  text_preview : option str
}.

(** The errors of the route: one of the three that are raised before
    there is a record, or the [FileParsingError] for a file that did
    not parse. *)
Inductive upload_route_error :=
| BeforeRecord (e : upload_error)
| FailedToParseFile (e : parse_failure).

Section WithLibraries.
Variables (path_suffix : str -> str) (lower : str -> str).
Variable utf8_decode_ignore : list Byte.byte -> str.
Variable open_pdf : list Byte.byte -> option PDFParser.PdfReader.
Variable _extract_text : str -> str.
Variable pdfplumber_pages : list Byte.byte -> option (list str).
Variable pypdf_pages : list Byte.byte -> option (list str).
Variable max_upload_size_bytes : N.

(** [parser.parse(content, filename)]. *)
Definition parse (p : parser) (content : list Byte.byte) (filename : str)
  : result parse_failure ParseResult :=
  match p with
  | PDF =>
      match PDFParser.parse pdfplumber_pages pypdf_pages content filename with
      | Ok r => Ok r
      | Err e => Err (PdfFailure e)
      end
  | Markdown =>
      match MarkdownParser.parse utf8_decode_ignore content filename with
      | Ok r => Ok r
      | Err e => Err (DecodeFailure e)
      end
  | LaTeX =>
      match LaTeXParser.parse utf8_decode_ignore _extract_text content
              filename with
      | Ok r => Ok r
      | Err e => Err (DecodeFailure e)
      end
  end.

(** [upload_resume]: the response or the error, and the row that the
    handler committed; [new_id] is the key that the table gives the
    row.  Both ways out that leave a row commit it. *)
Definition upload_resume (new_id : Z) (filename : str)
    (content : list Byte.byte)
  : result upload_route_error ResumeUploadResponse * option ResumeUpload :=
  match fst (upload_resume_checks path_suffix lower utf8_decode_ignore
               open_pdf max_upload_size_bytes filename content) with
  | Err e => (Err (BeforeRecord e), None)
  | Ok parser =>
      let file_ext :=
        if truthy_str filename then lower (last_part filename)
        else py "unknown" in
      let name := if truthy_str filename then filename else py "unknown" in
      match parse parser content filename with
      | Ok result =>
          let upload :=
            mkResumeUpload new_id name file_ext (len content)
              (Some (text result)) PARSED None in
          (Ok (mkResumeUploadResponse new_id name file_ext (len content)
                 PARSED (preview (raw_text upload))),
           Some upload)
      | Err e =>
          (Err (FailedToParseFile e),
           Some (mkResumeUpload new_id name file_ext (len content) None
                   FAILED (Some (ParseFailure e))))
      end
  end.

End WithLibraries.

(** *** [structure_resume], the route *)

Record StructureRequest := mkStructureRequest {
  resume_upload_id : option Z;
  github_data_id : option Z;
  custom_instructions : option str;
  request_settings : option LLMService.StructuringSettings
}.

(** The JSON columns of a GitHub row, as they are read back: the
    dicts that [_extract_profile] and [_extract_repo_data] returned.
    Of the profile the keys are listed that the row keeps here; the
    others are read nowhere. *)
Definition profile_json (p : GitHubService.Profile) : json :=
  JObj [(py "username", JStr (GitHubService.profile_username p));
        (py "name", JStr (GitHubService.profile_name p));
        (py "bio", JStr (GitHubService.profile_bio p));
        (py "location", JStr (GitHubService.profile_location p));
        (py "email", dump_opt (GitHubService.profile_email p));
        (py "public_repos", JInt (GitHubService.profile_public_repos p));
        (py "followers", JInt (GitHubService.profile_followers p))].

Definition repo_json (r : GitHubService.RepoData) : json :=
  JObj [(py "name", JStr (GitHubService.data_name r));
        (py "description", JStr (GitHubService.data_description r));
        (py "url", JStr (GitHubService.data_url r));
        (py "languages", dump_list (GitHubService.data_languages r));
        (py "primary_language",
         dump_opt (GitHubService.data_primary_language r));
        (py "topics", dump_list (GitHubService.data_topics r));
        (py "stars", JInt (GitHubService.data_stars r));
        (py "forks", JInt (GitHubService.data_forks r));
        (py "created_at", dump_opt (GitHubService.data_created_at r));
        (py "updated_at", dump_opt (GitHubService.data_updated_at r));
        (py "readme", dump_opt (GitHubService.data_readme r))].

Definition repositories_json (l : list GitHubService.RepoData) : json :=
  JArr (List.map repo_json l).

(** Truthiness of an optional id: [None] and 0 are false. *)
Definition truthy_id (i : option Z) : bool :=
  match i with
  | Some z => negb (z =? 0)%Z
  | None => false
  end.

Inductive invalid :=
| NoDataSource
| UploadNotReady (status : UploadStatus).

Inductive structure_error :=
| ValidationError (why : invalid)
| ResourceNotFoundError (resource : str) (resource_id : option Z)
| LLMServiceError (e : LLMService.error).

Definition is_parsed (s : UploadStatus) : bool :=
  match s with PARSED => true | _ => false end.

(** What a request leaves behind: the upload it named, as the handler
    last set it; the rows it added; whether the handler committed; and
    the service with the calls that it made to the model. *)
Record session := mkSession {
  upload_after : option ResumeUpload;
  stored : option StructuredResume;
  stored_log : option DecisionLog;
  committed : bool;
  service_after : LLMService.service
}.

Definition set_status (s : UploadStatus) (e : option failure)
    (u : ResumeUpload) : ResumeUpload :=
  mkResumeUpload (upload_id u) (upload_filename u) (file_type u) (file_size u)
    (raw_text u) s
    (match e with Some _ => e | None => upload_error_message u end).

(** The rows that the handler adds for a structured resume. *)
Definition new_StructuredResume (new_id : Z) (rid gid : option Z)
    (structured_resume : CanonicalResume) : StructuredResume :=
  mkStructuredResume new_id rid gid
    (Some (dump_ContactInfo (contact structured_resume)))
    (summary structured_resume)
    (Some (dump_TechnicalSkills (technical_skills structured_resume)))
    (dumps_or_none dump_Project (projects structured_resume))
    (dumps_or_none dump_Education (education structured_resume))
    (dumps_or_none dump_Experience (experience structured_resume))
    (dumps_or_none dump_Certification (certifications structured_resume))
    (additional_info structured_resume).

Definition new_DecisionLog (new_id : Z) (decision_log : list DecisionLogEntry)
  : option DecisionLog :=
  match decision_log with
  | [] => None
  | _ :: _ =>
      Some (mkDecisionLog new_id (List.map dump_DecisionLogEntry decision_log))
  end.

Section WithService.
Variable json_loads : str -> option json.
Variable validate_email : str -> option str.
Variable isprintable : char -> bool.
Variable repr : json -> str.
Variable prompt_file : option str.
Variable _get_default_system_prompt : str.
Variable complete : str -> str -> result str str.
(** The tables, by key. *)
Variable find_upload : Z -> option ResumeUpload.
Variable find_github : Z -> option GitHubService.GitHubData.

(** The first half of the handler: the resume text and the upload
    that the request names. *)
Definition fetch_resume (request : StructureRequest)
  : result structure_error (option str * option ResumeUpload) :=
  if truthy_id (resume_upload_id request)
  then
    match opt_bind (resume_upload_id request) find_upload with
    | None =>
        Err (ResourceNotFoundError (py "Resume upload")
               (resume_upload_id request))
    | Some resume_upload =>
        if negb (is_parsed (upload_status resume_upload))
        then Err (ValidationError (UploadNotReady (upload_status resume_upload)))
        else Ok (raw_text resume_upload, Some resume_upload)
    end
  else Ok (None, None).

Definition fetch_github (request : StructureRequest)
  : result structure_error (option dict) :=
  if truthy_id (github_data_id request)
  then
    match opt_bind (github_data_id request) find_github with
    | None =>
        Err (ResourceNotFoundError (py "GitHub data") (github_data_id request))
    | Some github_data =>
        Ok (Some [(py "profile",
                   profile_json (GitHubService.profile_data github_data));
                  (py "repositories",
                   repositories_json (GitHubService.repositories github_data))])
    end
  else Ok None.

(** [structure_resume] of the route; [new_id] is the key that the
    table gives the structured resume.  A new [LLMService] is made for
    every request. *)
Definition structure_resume (new_id : Z) (request : StructureRequest)
  : result structure_error Z * session :=
  let untouched := mkSession None None None false LLMService.fresh_service in
  if negb (truthy_id (resume_upload_id request))
     && negb (truthy_id (github_data_id request))
  then (Err (ValidationError NoDataSource), untouched)
  else
    match fetch_resume request with
    | Err e => (Err e, untouched)
    | Ok (resume_text, resume_upload) =>
        match fetch_github request with
        | Err e =>
            (Err e, mkSession resume_upload None None false
                      LLMService.fresh_service)
        | Ok github_data_dict =>
            let resume_upload :=
              option_map (set_status STRUCTURING None) resume_upload in
            let '(outcome, llm_service) :=
              LLMService.structure_resume json_loads validate_email
                isprintable repr prompt_file _get_default_system_prompt
                complete resume_text github_data_dict
                (custom_instructions request) (request_settings request)
                LLMService.fresh_service in
            match outcome with
            | Err e =>
                (Err (LLMServiceError e),
                 mkSession
                   (option_map (set_status FAILED (Some (StructureFailure e)))
                      resume_upload)
                   None None false llm_service)
            | Ok (structured_resume, decision_log) =>
                (Ok new_id,
                 mkSession
                   (option_map (set_status COMPLETED None) resume_upload)
                   (Some (new_StructuredResume new_id
                            (resume_upload_id request)
                            (github_data_id request) structured_resume))
                   (new_DecisionLog new_id decision_log)
                   true llm_service)
            end
        end
    end.

(** *** [get_structured_resume] *)

Record StructuredResumeResponse := mkStructuredResumeResponse {
  response_id : Z;
  resume : CanonicalResume;
  decision_log : list DecisionLogEntry;
  from_resume : bool;
  from_github : bool
}.

Inductive read_error :=
| StructuredResumeNotFound (resume_id : Z)
| StoredDataInvalid.

Definition is_some {A} (o : option A) : bool :=
  match o with Some _ => true | None => false end.

(** [[Model(x) for x in stored] if stored else []]. *)
Definition load_all {A} (f : dict -> option A) (stored : option (list dict))
  : option (list A) :=
  match stored with
  | Some (x :: l) => traverse f (x :: l)
  | _ => Some []
  end.

(** The loop over the stored decisions: an entry that does not
    validate is passed over. *)
Fixpoint load_decisions (stored : list dict) : list DecisionLogEntry :=
  match stored with
  | [] => []
  | d :: rest =>
      match new_DecisionLogEntry d with
      | Some entry => entry :: load_decisions rest
      | None => load_decisions rest
      end
  end.

Variable find_structured : Z -> option StructuredResume.
Variable find_decision_log : Z -> option DecisionLog.

Definition get_structured_resume (resume_id : Z)
  : result read_error StructuredResumeResponse :=
  match find_structured resume_id with
  | None => Err (StructuredResumeNotFound resume_id)
  | Some structured =>
      let decision_log := find_decision_log resume_id in
      let built :=
        let? contact :=
          match row_contact structured with
          | Some (b :: d) => new_ContactInfo validate_email (b :: d)
          | _ =>
              new_ContactInfo validate_email
                [(py "full_name", JStr (py "Unknown"));
                 (py "email", JStr (py "unknown@example.com"))]
          end in
        let? skills :=
          match row_technical_skills structured with
          | Some (b :: d) => new_TechnicalSkills (b :: d)
          | _ => new_TechnicalSkills []
          end in
        let? projects := load_all new_Project (row_projects structured) in
        let? education := load_all new_Education (row_education structured) in
        let? experience :=
          load_all new_Experience (row_experience structured) in
        let? certifications :=
          load_all new_Certification (row_certifications structured) in
        Some (mkCanonicalResume contact (row_summary structured) skills
                projects education experience certifications
                (row_additional_info structured)) in
      match built with
      | None => Err StoredDataInvalid
      | Some resume =>
          let decision_entries :=
            match decision_log with
            | Some l => load_decisions (decisions l)
            | None => []
            end in
          Ok (mkStructuredResumeResponse (structured_id structured) resume
                decision_entries
                (is_some (row_resume_upload_id structured))
                (is_some (row_github_data_id structured)))
      end
  end.

End WithService.

(** *** A small world for running the routes: an upload that was
    parsed, under key 7 of its table; no GitHub rows; a request that
    names the upload; and a decoder that reads every answer of the
    model as the example response. *)
Definition example_upload : ResumeUpload :=
  mkResumeUpload 7 (py "cv.md") (py "md") 6 (Some (py "# Ada")) PARSED None.

Definition example_uploads (z : Z) : option ResumeUpload :=
  if (z =? 7)%Z then Some example_upload else None.

Definition no_github (z : Z) : option GitHubService.GitHubData := None.

Definition example_request : StructureRequest :=
  mkStructureRequest (Some 7%Z) None None None.

Definition reads_example_response (s : str) : option json :=
  Some LLMService.example_response.

(** The prompt for the text of the example upload, with nothing
    else. *)
Definition example_user_prompt : str :=
  join [LF]
    [py "Please structure the following data into a canonical resume.";
     []; py "<unstructured_resume>"; py "# Ada";
     py "</unstructured_resume>"; []; py "<github_data>";
     py "Not provided"; py "</github_data>"; [];
     py "GOAL: Extract and normalize information from the tags above into the JSON schema.";
     py "RULES:"; py "1. Use only the provided information.";
     py "2. Include 5-8 most relevant projects."].

(** The bytes of a Markdown file with one heading. *)
Definition example_markdown : list Byte.byte :=
  [Byte.x23; Byte.x20; Byte.x41; Byte.x64; Byte.x61; Byte.x0a].

End ResumeRoutes.

(* ================================================================= *)
(** ** The properties, as the specification words them *)

(** The definitions of this part read the data of the program and
    nothing of its code: strings are taken apart with [++], dicts are
    read as lists of bindings, and characters, keys and thresholds are
    written out. *)
Module Specification.
Import Json.

(** *** The sanitizer *)

(** A character that clean text may hold: not U+0000, and printable
    or one of LF, CR and TAB. *)
Definition admitted (isprintable : char -> bool) (c : char) : Prop :=
  c <> 0
  /\ (isprintable c = true \/ c = 10 \/ c = 13 \/ c = 9).

(** *** The ranker *)

Definition no_description (r : GitHubService.Repository) : bool :=
  match GitHubService.description r with
  | Some (_ :: _) => false
  | _ => true
  end.

(** A repository that ranking leaves out: archived, a fork, or with
    no description and size 0. *)
Definition excluded (r : GitHubService.Repository) : bool :=
  GitHubService.archived r
  || GitHubService.fork r
  || (no_description r && (GitHubService.size r =? 0)%Z).

Definition retained (all_repos : list GitHubService.Repository)
  : list GitHubService.Repository :=
  List.filter (fun r => negb (excluded r)) all_repos.

(** The recency term at the instant [now], in microseconds: a push is
    within [n] days when fewer than [n] days of 86400 seconds have
    gone by since. *)
Definition recency (now : Z) (pushed_at : option Z) : Z :=
  match pushed_at with
  | None => 0
  | Some pushed =>
      if (now - pushed <? 30 * 86400000000)%Z then 50
      else if (now - pushed <? 90 * 86400000000)%Z then 30
      else if (now - pushed <? 180 * 86400000000)%Z then 15
      else 0
  end%Z.

Definition ranking_score (now : Z) (r : GitHubService.Repository) : Z :=
  (recency now (GitHubService.pushed_at r)
   + Z.min (GitHubService.stargazers_count r * 5) 50
   + Z.min (GitHubService.forks_count r * 2) 20
   + (if no_description r then 0 else 10)
   + (match GitHubService.topics r with [] => 0 | _ :: _ => 10 end)
   + (if (10 <? GitHubService.size r) && (GitHubService.size r <? 100000)
      then 5 else 0))%Z.

(** The number of times the clock has been read when the repositories
    [repos] have been scored: once for each that has a push time. *)
Definition readings (repos : list GitHubService.Repository) : nat :=
  List.length
    (List.filter
       (fun r => match GitHubService.pushed_at r with
                 | Some _ => true
                 | None => false
                 end) repos).

(** A repository that is neither archived nor a fork, pushed to
    [elapsed] microseconds before [now]. *)
Definition pushed_ago (now elapsed : Z) (description : option str) (size : Z)
    (stars forks : Z) (topics : list str) : GitHubService.Repository :=
  GitHubService.mkRepository (py "demo") false false description size
    (Some (now - elapsed)%Z) stars forks topics.

(** *** The reconciler *)

(** What a dict holds under a key: the value of the first binding of
    the key, or nothing when no binding has the key. *)
Definition holds (d : dict) (k : str) (o : option json) : Prop :=
  match o with
  | Some v =>
      exists before after,
        d = before ++ (k, v) :: after /\ ~ In k (List.map fst before)
  | None => ~ In k (List.map fst d)
  end.

(** [d'] holds under [k] what [d] holds. *)
Definition same_at (k : str) (d d' : dict) : Prop :=
  forall o, holds d k o -> holds d' k o.

(** [entry'] is [entry] with [alias] renamed to [canonical]: when
    [canonical] is absent and [alias] is there, the value of [alias]
    is under [canonical], [alias] is gone and every other key holds
    what it held; otherwise nothing is done. *)
Definition renamed_to (canonical alias : str) (entry entry' : dict) : Prop :=
  forall c a, holds entry canonical c -> holds entry alias a ->
    match c, a with
    | None, Some v =>
        holds entry' canonical (Some v)
        /\ holds entry' alias None
        /\ forall k, k <> canonical -> k <> alias -> same_at k entry entry'
    | _, _ => entry' = entry
    end.

(** [entry'] is [entry] with a description that is a string wrapped
    into a list of one; otherwise nothing is done. *)
Definition description_listed (entry entry' : dict) : Prop :=
  forall d, holds entry (py "description") d ->
    match d with
    | Some (JStr s) =>
        holds entry' (py "description") (Some (JArr [JStr s]))
        /\ forall k, k <> py "description" -> same_at k entry entry'
    | _ => entry' = entry
    end.

(** A canonical key that is present keeps its value. *)
Definition never_overwritten (canonical : list str) (entry entry' : dict)
  : Prop :=
  forall k v, In k canonical -> holds entry k (Some v) -> holds entry' k (Some v).

(** Every value of [entry'] is a value of [entry], or the list of one
    around the string that was its description. *)
Definition never_invented (entry entry' : dict) : Prop :=
  forall k v, In (k, v) entry' ->
    (exists k', In (k', v) entry)
    \/ (exists s, v = JArr [JStr s] /\ holds entry (py "description") (Some (JStr s))).

(** No value of [entry'] is new. *)
Definition only_renamed (entry entry' : dict) : Prop :=
  forall k v, In (k, v) entry' -> exists k', In (k', v) entry.

Definition experience_reconciled (entry entry' : dict) : Prop :=
  (exists e1 e2,
     renamed_to (py "role") (py "title") entry e1
     /\ renamed_to (py "organization") (py "company") e1 e2
     /\ description_listed e2 entry')
  /\ never_overwritten [py "role"; py "organization"] entry entry'
  /\ never_invented entry entry'.

(** The school goes first; the university is renamed only if the
    institution is still missing then. *)
Definition education_reconciled (entry entry' : dict) : Prop :=
  (exists e1,
     renamed_to (py "institution") (py "school") entry e1
     /\ renamed_to (py "institution") (py "university") e1 entry')
  /\ never_overwritten [py "institution"] entry entry'
  /\ only_renamed entry entry'.

(** The achievements go first, then the bullets. *)
Definition project_reconciled (entry entry' : dict) : Prop :=
  (exists e1,
     renamed_to (py "highlights") (py "achievements") entry e1
     /\ renamed_to (py "highlights") (py "bullets") e1 entry')
  /\ never_overwritten [py "highlights"] entry entry'
  /\ only_renamed entry entry'.

(** An item of a list: a dict is reconciled, anything else stays. *)
Definition item_reconciled (R : dict -> dict -> Prop) (item item' : json)
  : Prop :=
  match item with
  | JObj entry => exists entry', item' = JObj entry' /\ R entry entry'
  | _ => item' = item
  end.

(** The value under [key]: a list has its items reconciled one by
    one, anything else (and nothing) stays. *)
Definition list_reconciled (R : dict -> dict -> Prop) (key : str)
    (resume resume' : dict) : Prop :=
  forall o, holds resume key o ->
    match o with
    | Some (JArr items) =>
        exists items',
          holds resume' key (Some (JArr items'))
          /\ Forall2 (item_reconciled R) items items'
    | _ => holds resume' key o
    end.

Definition resume_reconciled (resume resume' : dict) : Prop :=
  list_reconciled experience_reconciled (py "experience") resume resume'
  /\ list_reconciled education_reconciled (py "education") resume resume'
  /\ list_reconciled project_reconciled (py "projects") resume resume'
  /\ forall k, k <> py "experience" -> k <> py "education" ->
               k <> py "projects" -> same_at k resume resume'.

(** A response with the experience entry of the specification's
    example, and a decision log. *)
Definition aliased_response : dict :=
  [(py "structured_resume",
    JObj [(py "experience",
           JArr [JObj [(py "title", JStr (py "Engineer"));
                       (py "company", JStr (py "Acme"));
                       (py "description", JStr (py "Did X"))]])]);
   (py "decision_log", JArr [])].

(** *** The recovery *)

(** The white space that [strip] takes off: the characters of the
    Unicode database with [isspace]. *)
Definition blank (c : char) : Prop :=
  (9 <= c <= 13) \/ (28 <= c <= 32) \/ c = 133 \/ c = 160 \/ c = 5760
  \/ (8192 <= c <= 8202) \/ c = 8232 \/ c = 8233 \/ c = 8239 \/ c = 8287
  \/ c = 12288.

(** [t] is [s] without the white space at its two ends. *)
Definition trimmed (s t : str) : Prop :=
  exists l r : str,
    s = l ++ t ++ r
    /\ Forall blank l /\ Forall blank r
    /\ (forall (c : char) (t' : str), t = c :: t' -> ~ blank c)
    /\ (forall (c : char) (t' : str), t = t' ++ [c] -> ~ blank c).

(** [t] is [s] without [p] in front, if [s] starts with it. *)
Definition without_prefix (p s t : str) : Prop :=
  s = p ++ t \/ ((forall rest : str, s <> p ++ rest) /\ t = s).

(** [t] is [s] without [p] at the end, if [s] ends with it. *)
Definition without_suffix (p s t : str) : Prop :=
  s = t ++ p \/ ((forall rest : str, s <> rest ++ p) /\ t = s).

(** Three backticks, and three backticks with the word json. *)
Definition closing_fence : str := [96; 96; 96].
Definition opening_fence : str := [96; 96; 96; 106; 115; 111; 110].

(** [clean] is the answer [raw] with the fences taken off, each where
    it is there, and no white space around what is left. *)
Definition unfenced (raw clean : str) : Prop :=
  exists a b c : str,
    trimmed raw a
    /\ without_prefix opening_fence a b
    /\ without_suffix closing_fence b c
    /\ trimmed c clean.

(** The three anchors, in their order: an opening brace, a double
    quote, the word, a double quote and a colon; the same without the
    brace; the brace alone. *)
Definition first_anchor : str :=
  [123; 34] ++ py "structured_resume" ++ [34; 58].
Definition second_anchor : str := [34] ++ py "structured_resume" ++ [34; 58].
Definition third_anchor : str := [123].

(** The candidate that an anchor yields: [content] is [before], the
    substring and [after], where the substring starts at the first
    place where the anchor stands and ends with the last closing brace
    of the text; an opening brace is put in front of the substring
    unless it starts with one. *)
Definition candidate_of (content anchor candidate : str) : Prop :=
  exists before substring after : str,
    content = before ++ substring ++ after
    /\ (exists rest : str, substring ++ after = anchor ++ rest)
    /\ (forall before' rest' : str, content = before' ++ anchor ++ rest' ->
          (List.length before <= List.length before')%nat)
    /\ (exists inner : str, substring = inner ++ [125])
    /\ ~ In 125 after
    /\ ((exists rest : str, substring = 123 :: rest) /\ candidate = substring
        \/ (forall rest : str, substring <> 123 :: rest)
           /\ candidate = 123 :: substring).

(** What trying an anchor comes to: the decoder's answer on the
    candidate, or nothing when the anchor yields no candidate. *)
Definition attempt (json_loads : str -> option json) (content anchor : str)
    (outcome : option json) : Prop :=
  (exists candidate,
     candidate_of content anchor candidate /\ outcome = json_loads candidate)
  \/ ((forall candidate, ~ candidate_of content anchor candidate)
      /\ outcome = None).

(** The first of three attempts that gave a value. *)
Definition first_of (a b c : option json) : option json :=
  match a with
  | Some _ => a
  | None => match b with Some _ => b | None => c end
  end.

(** The answer of the specification's example: prose, the object,
    more prose; the object alone; and the same between fences. *)
Definition recovery_payload : str :=
  first_anchor ++ py " {" ++ [34] ++ py "contact" ++ [34] ++ py ":{}}}".

Definition recovery_raw : str :=
  py "Here is the result " ++ recovery_payload ++ py " and some trailing notes".

Definition fenced_raw : str :=
  [32; 10] ++ opening_fence ++ [10] ++ recovery_payload ++ [10]
  ++ closing_fence ++ [10].

(** A decoder that knows the payload and nothing else. *)
Definition payload_loads (s : str) : option json :=
  if list_eq_dec N.eq_dec s recovery_payload
  then Some (JObj [(py "structured_resume", JObj [(py "contact", JObj [])])])
  else None.

End Specification.

(* ================================================================= *)
(** * Theorems *)

Module PyFacts.

Lemma startswith_app (p s : str) : startswith (p ++ s) p = true.
Proof.
  induction p as [|c p IH]; simpl; [reflexivity|].
  now rewrite N.eqb_refl, IH.
Qed.

Lemma replace_from_skip (old new l rest : str) :
  replace_from old new (length l) (l ++ rest) = replace_from old new 0 rest.
Proof.
  induction l as [|c l IH]; simpl; [reflexivity | exact IH].
Qed.

(** Removing a single character is a filter. *)
Lemma replace_char_empty (c : char) (s : str) :
  replace s [c] [] = List.filter (fun d => negb (d =? c)) s.
Proof.
  unfold replace. induction s as [|d s IH]; simpl; [reflexivity|].
  destruct (d =? c); simpl.
  - exact IH.
  - now rewrite IH.
Qed.

Lemma list_len_ind {A} (P : list A -> Prop) :
  (forall l, (forall l', (List.length l' < List.length l)%nat -> P l') -> P l) ->
  forall l, P l.
Proof.
  intros H l. remember (List.length l) as n eqn:E. revert l E.
  induction n as [n IH] using lt_wf_ind. intros l ->.
  apply H. intros l' Hl. now apply (IH (List.length l')).
Qed.

Lemma startswith_split (s p : str) :
  startswith s p = true -> exists rest, s = p ++ rest.
Proof.
  revert s. induction p as [|c p IH]; intros s H.
  - now exists s.
  - destruct s as [|d s]; [discriminate|]. simpl in H.
    apply andb_true_iff in H as [Hd Hs]. apply N.eqb_eq in Hd as ->.
    destruct (IH _ Hs) as [rest ->]. now exists rest.
Qed.

Lemma startswith_app_l (s p b : str) :
  startswith s p = true -> startswith (s ++ b) p = true.
Proof.
  intros H. destruct (startswith_split _ _ H) as [rest ->].
  rewrite <- app_assoc. apply startswith_app.
Qed.

(** One step of [replace] at an occurrence, and at a non-occurrence. *)
Lemma replace_from_hit (c : char) (old new rest : str) :
  replace_from (c :: old) new 0 ((c :: old) ++ rest)
  = new ++ replace_from (c :: old) new 0 rest.
Proof.
  change (replace_from (c :: old) new 0 ((c :: old) ++ rest))
    with (if startswith ((c :: old) ++ rest) (c :: old)
          then new ++ replace_from (c :: old) new
                        (List.length (c :: old) - 1) (old ++ rest)
          else c :: replace_from (c :: old) new 0 (old ++ rest)).
  rewrite startswith_app. f_equal.
  replace (List.length (c :: old) - 1)%nat with (List.length old)
    by (simpl; lia).
  apply replace_from_skip.
Qed.

Lemma replace_from_miss (old new : str) (c : char) (s : str) :
  startswith (c :: s) old = false ->
  replace_from old new 0 (c :: s) = c :: replace_from old new 0 s.
Proof. intros H. simpl replace_from. now rewrite H. Qed.

Lemma replace_char_char (c d : char) (s : str) :
  replace s [c] [d] = List.map (fun x => if x =? c then d else x) s.
Proof.
  unfold replace. induction s as [|x s IH]; [reflexivity|].
  destruct (x =? c) eqn:E.
  - apply N.eqb_eq in E. subst x.
    change (c :: s) with ([c] ++ s) at 1.
    rewrite (replace_from_hit c [] [d] s). simpl. rewrite N.eqb_refl.
    now rewrite IH.
  - rewrite replace_from_miss by (simpl; now rewrite E).
    simpl. now rewrite E, IH.
Qed.

(** [p in s] says that [s] splits around [p]. *)
Lemma contains_cons (x : char) (s p : str) :
  contains s p = true -> contains (x :: s) p = true.
Proof.
  unfold contains. simpl. destruct (startswith (x :: s) p); [reflexivity|].
  now destruct (find s p).
Qed.

Lemma contains_startswith (s p : str) :
  startswith s p = true -> contains s p = true.
Proof.
  unfold contains. intros H. destruct s; simpl; now rewrite H.
Qed.

Lemma contains_miss (x : char) (s p : str) :
  startswith (x :: s) p = false -> contains (x :: s) p = contains s p.
Proof.
  unfold contains. intros H. simpl. rewrite H. now destruct (find s p).
Qed.

Lemma contains_app_r (a s p : str) :
  contains s p = true -> contains (a ++ s) p = true.
Proof.
  intros H. induction a as [|x a IH]; [exact H|]. now apply contains_cons.
Qed.

Lemma contains_app_l (s b p : str) :
  contains s p = true -> contains (s ++ b) p = true.
Proof.
  induction s as [|x s IH]; intros H.
  - unfold contains in H. simpl in H.
    destruct (startswith [] p) eqn:E; [|discriminate].
    destruct p; [|discriminate]. apply contains_startswith.
    now destruct b.
  - destruct (startswith (x :: s) p) eqn:E.
    + apply contains_startswith. now apply (startswith_app_l (x :: s)).
    + rewrite contains_miss in H by exact E.
      simpl. apply contains_cons. now apply IH.
Qed.

(** [strip] cuts a piece out of the middle of its argument. *)
Lemma lstrip_suffix (s : str) : exists a, s = a ++ lstrip s.
Proof.
  induction s as [|c s [a IH]]; [now exists []|]. simpl.
  destruct (isspace c).
  - exists (c :: a). simpl. now rewrite <- IH.
  - now exists [].
Qed.

Lemma strip_infix (s : str) : exists a b, s = a ++ strip s ++ b.
Proof.
  unfold strip, rstrip.
  destruct (lstrip_suffix s) as [a Ha].
  destruct (lstrip_suffix (rev (lstrip s))) as [b Hb].
  exists a, (rev b). rewrite Ha at 1. f_equal.
  rewrite <- rev_app_distr, <- Hb. now rewrite rev_involutive.
Qed.

Lemma strip_In (c : char) (s : str) : In c (strip s) -> In c s.
Proof.
  intros H. destruct (strip_infix s) as (a & b & E). rewrite E.
  apply in_or_app. right. apply in_or_app. now left.
Qed.

Lemma strip_contains (s p : str) :
  contains s p = false -> contains (strip s) p = false.
Proof.
  intros H. destruct (contains (strip s) p) eqn:E; [|reflexivity].
  destruct (strip_infix s) as (a & b & Hs).
  rewrite Hs in H. rewrite contains_app_r in H; [discriminate|].
  now apply contains_app_l.
Qed.

End PyFacts.

Module UtilsFacts.
Import Utils PyFacts.

Section Sanitizer.
Variable isprintable : char -> bool.

#[local] Abbreviation sanitize := (sanitize_text isprintable).
#[local] Abbreviation keepc := (keep isprintable).

Lemma sanitize_filter (t : str) :
  sanitize (Some t) = List.filter (ok_char isprintable) t.
Proof.
  destruct t as [|c t]; [reflexivity|].
  unfold sanitize_text. rewrite replace_char_empty.
  generalize (c :: t) as l. intros l.
  induction l as [|d l IH]; simpl; [reflexivity|].
  unfold ok_char at 1. destruct (d =? NUL); simpl.
  - exact IH.
  - destruct (keepc d); simpl; now rewrite IH.
Qed.

Lemma filter_id {A} (f : A -> bool) (l : list A) :
  forallb f l = true -> List.filter f l = l.
Proof.
  induction l as [|a l IH]; simpl; [reflexivity|].
  intros H. apply andb_true_iff in H as [Ha Hl].
  now rewrite Ha, IH.
Qed.

Lemma filter_twice {A} (f : A -> bool) (l : list A) :
  List.filter f (List.filter f l) = List.filter f l.
Proof.
  induction l as [|a l IH]; simpl; [reflexivity|].
  destruct (f a) eqn:E; simpl; [rewrite E, IH|]; auto.
Qed.

Lemma ok_char_admitted (c : char) :
  ok_char isprintable c = true <-> Specification.admitted isprintable c.
Proof.
  unfold ok_char, keep, char_in, Specification.admitted, NUL, LF, CR, TAB.
  cbn [existsb]. rewrite andb_true_iff, negb_true_iff, N.eqb_neq.
  rewrite !orb_true_iff, !N.eqb_eq. intuition discriminate.
Qed.

(** C6: for every input string the sanitizer returns (it is a total
    function) a string with no U+0000 whose characters are all
    printable or one of LF (10), CR (13) and TAB (9); a character is
    in the result exactly when it is in the input and is such a
    character; the sanitizer is the identity on input that has no
    other characters, and it is idempotent. *)
Theorem sanitize_text_contract (t : str) :
  ~ In 0 (sanitize (Some t))
  /\ Forall (fun c => isprintable c = true \/ c = 10 \/ c = 13 \/ c = 9)
            (sanitize (Some t))
  /\ (forall c, In c (sanitize (Some t))
                <-> In c t /\ Specification.admitted isprintable c)
  /\ (Forall (Specification.admitted isprintable) t -> sanitize (Some t) = t)
  /\ sanitize (Some (sanitize (Some t))) = sanitize (Some t)
  /\ sanitize None = [].
Proof.
  rewrite !sanitize_filter.
  repeat match goal with |- _ /\ _ => split end.
  - intros H. apply filter_In in H as [_ H].
    apply ok_char_admitted in H as [H _]. now apply H.
  - apply Forall_forall. intros c H. apply filter_In in H as [_ H].
    now apply ok_char_admitted in H as [_ H].
  - intros c. rewrite filter_In. now rewrite ok_char_admitted.
  - intros H. apply filter_id. apply forallb_forall. intros c Hc.
    apply ok_char_admitted. now apply (proj1 (Forall_forall _ _) H).
  - apply filter_twice.
  - reflexivity.
Qed.

End Sanitizer.

(** The sanitizer at work on clean input with a line feed, a carriage
    return and a tab, with the ASCII printable range standing for the
    Unicode database. *)
Lemma sanitize_text_contract_witness :
  Forall (Specification.admitted ascii_isprintable)
    (py "Newline" ++ [10] ++ py "and" ++ [13] ++ py "tab" ++ [9] ++ py "keep")
  /\ sanitize_text ascii_isprintable
       (Some (py "Newline" ++ [10] ++ py "and" ++ [13] ++ py "tab" ++ [9]
                ++ py "keep"))
     = py "Newline" ++ [10] ++ py "and" ++ [13] ++ py "tab" ++ [9] ++ py "keep".
Proof.
  assert (H : Forall (Specification.admitted ascii_isprintable)
                (py "Newline" ++ [10] ++ py "and" ++ [13] ++ py "tab" ++ [9]
                   ++ py "keep")).
  { repeat (constructor;
            [split; [discriminate
                    | first [left; reflexivity | right; left; reflexivity
                            | right; right; left; reflexivity
                            | right; right; right; reflexivity]]|]).
    constructor. }
  split; [exact H|].
  exact (proj1 (proj2 (proj2 (proj2
    (sanitize_text_contract ascii_isprintable _)))) H).
Defined.

(** The table of [test_sanitization.py]. *)
Example sanitize_test_table :
  let s := sanitize_text ascii_isprintable in
  s (Some (py "Normal text")) = py "Normal text"
  /\ s (Some (py "Text with null" ++ [NUL] ++ py " byte")) = py "Text with null byte"
  /\ s (Some (py "Newline" ++ [LF] ++ py "and" ++ [CR] ++ py "tab" ++ [TAB] ++ py "keep"))
     = py "Newline" ++ [LF] ++ py "and" ++ [CR] ++ py "tab" ++ [TAB] ++ py "keep"
  /\ s (Some (py "Control" ++ [1; 2] ++ py " characters")) = py "Control characters".
Proof. repeat split. Qed.

End UtilsFacts.

(* ================================================================= *)
(** ** Format parsers *)

Module ParserFacts.
Import Codec Parsers Parsers.MarkdownSpec PyFacts.

Lemma latin1_total (bs : list Byte.byte) :
  charmap_decode latin1_table bs = Some (List.map byte_val bs).
Proof.
  induction bs as [|b bs IH]; simpl; [reflexivity|].
  now rewrite IH.
Qed.

Lemma decode_chain (lossy : list Byte.byte -> str) (content : list Byte.byte) :
  decode_first [UTF8; UTF8_SIG; LATIN1; CP1252] lossy content
  = Ok (first_lossless content).
Proof.
  unfold first_lossless. simpl. unfold decode.
  destruct (utf8_decode content); [reflexivity|].
  destruct (utf8_sig_decode content); [reflexivity|].
  now rewrite latin1_total.
Qed.

(** C8: decoding never fails.  For every byte string the chain of the
    Markdown and of the LaTeX parser returns a string: the result of
    UTF-8 when it decodes, else of UTF-8 with BOM, else of Latin-1,
    which decodes everything, so that CP1252 and the lossy decoder are
    only a last resort; and [parse] returns a result, never an
    encoding error. *)
Theorem decode_content_never_fails
    (lossy : list Byte.byte -> str) (extract : str -> str)
    (content : list Byte.byte) (filename : str) :
  MarkdownParser._decode_content lossy content = Ok (first_lossless content)
  /\ LaTeXParser._decode_content lossy content = Ok (first_lossless content)
  /\ (forall encs, exists s, decode_first encs lossy content = Ok s)
  /\ (exists r, MarkdownParser.parse lossy content filename = Ok r)
  /\ (exists r, LaTeXParser.parse lossy extract content filename = Ok r).
Proof.
  assert (Hm : MarkdownParser._decode_content lossy content
               = Ok (first_lossless content)) by apply decode_chain.
  assert (Hl : LaTeXParser._decode_content lossy content
               = Ok (first_lossless content)) by apply decode_chain.
  repeat split; try assumption.
  - induction encs as [|e encs IH]; simpl; [eauto|].
    destruct (decode e content); eauto.
  - unfold MarkdownParser.parse. rewrite Hm. simpl. eauto.
  - unfold LaTeXParser.parse. rewrite Hl. simpl. eauto.
Qed.

(** Bytes that are not UTF-8 come out through Latin-1. *)
Example decode_latin1_fallback :
  MarkdownParser._decode_content (fun _ => []) [Byte.x63; Byte.xe9]
  = Ok [99; 233].
Proof. reflexivity. Qed.

Example decode_utf8_first :
  MarkdownParser._decode_content (fun _ => []) [Byte.x63; Byte.xc3; Byte.xa9]
  = Ok [99; 233].
Proof. reflexivity. Qed.

Lemma len_repeat {A} (x : A) (n : N) : len (repeat x (N.to_nat n)) = n.
Proof. unfold len. now rewrite repeat_length, N2Nat.id. Qed.

Lemma len_app {A} (a b : list A) : len (a ++ b) = len a + len b.
Proof. unfold len. now rewrite length_app, Nat2N.inj_add. Qed.

(** The upload route turns down what is longer than the configured
    maximum before it chooses a parser. *)
Lemma upload_rejects_oversize
    (path_suffix lower : str -> str) (lossy : list Byte.byte -> str)
    (open_pdf : list Byte.byte -> option PDFParser.PdfReader)
    (max_upload_size_bytes : N) (filename : str) (content : list Byte.byte) :
  max_upload_size_bytes < len content ->
  exists e,
    ParserFactory.upload_resume_checks path_suffix lower lossy open_pdf
      max_upload_size_bytes filename content = (Err e, []).
Proof.
  intros H. apply N.ltb_lt in H. unfold ParserFactory.upload_resume_checks.
  rewrite H. destruct (negb _); eauto.
Qed.

(** C7, as the code has it: the Markdown and the LaTeX parser turn
    down every input longer than their [MAX_FILE_SIZE] of 1 MiB, and
    have not called the decoder by then.  The PDF parser has no
    maximum: it calls the reader on whatever follows the magic bytes;
    for it, as for the others, the upload route has turned down what
    exceeds the configured upload size before any parser is chosen. *)
Theorem text_parsers_reject_oversize
    (path_suffix lower : str -> str) (lossy : list Byte.byte -> str)
    (open_pdf : list Byte.byte -> option PDFParser.PdfReader)
    (max_upload_size_bytes : N)
    (content : list Byte.byte) (filename : str)
    (Hbig : MarkdownParser.MAX_FILE_SIZE < len content) :
  (is_valid (MarkdownParser.validate_file path_suffix lower lossy content filename)
     = false
   /\ steps (MarkdownParser.validate_file path_suffix lower lossy content filename)
     = [])
  /\ (is_valid (LaTeXParser.validate_file path_suffix lower lossy content filename)
     = false
   /\ steps (LaTeXParser.validate_file path_suffix lower lossy content filename)
     = [])
  /\ MarkdownParser.MAX_FILE_SIZE = 1048576
  /\ LaTeXParser.MAX_FILE_SIZE = 1048576
  /\ (max_upload_size_bytes < len content ->
      exists e,
        ParserFactory.upload_resume_checks path_suffix lower lossy open_pdf
          max_upload_size_bytes filename content = (Err e, []))
  /\ (BaseParser.can_handle path_suffix lower PDFParser.SUPPORTED_EXTENSIONS
        filename = true ->
      forall rest,
        steps (PDFParser.validate_file path_suffix lower open_pdf
                 (PDFParser.magic ++ rest) filename) = [StepOpenPdf]).
Proof.
  assert (Hl : (LaTeXParser.MAX_FILE_SIZE <? len content) = true)
    by now apply N.ltb_lt.
  assert (Hm : (MarkdownParser.MAX_FILE_SIZE <? len content) = true)
    by now apply N.ltb_lt.
  split; [|split; [|split; [|split; [|split]]]]; try reflexivity;
    try apply upload_rejects_oversize;
    try (intros Hpdf rest; unfold PDFParser.validate_file; rewrite Hpdf;
         change (PDFParser.bytes_startswith (PDFParser.magic ++ rest)
                   PDFParser.magic) with true;
         simpl;
         destruct (open_pdf _) as [[[|] [n|]]|]; reflexivity);
    unfold MarkdownParser.validate_file, LaTeXParser.validate_file;
    rewrite ?Hl, ?Hm;
    (destruct content as [|b content]; split;
     match goal with
     | |- context [negb ?c] => destruct c
     end; simpl; auto).
Qed.

(** A file of 1 MiB and one byte. *)
Lemma text_parsers_reject_oversize_witness :
  let content := repeat Byte.x23 (N.to_nat 1048577) in
  MarkdownParser.MAX_FILE_SIZE < len content
  /\ is_valid (MarkdownParser.validate_file posix_suffix ascii_lower
                 (fun _ => []) content (py "cv.md")) = false
  /\ steps (LaTeXParser.validate_file posix_suffix ascii_lower
                 (fun _ => []) content (py "cv.tex")) = [].
Proof.
  intros content.
  assert (H : MarkdownParser.MAX_FILE_SIZE < len content).
  { unfold content. rewrite len_repeat. reflexivity. }
  split; [exact H|]. split.
  - exact (proj1 (proj1 (text_parsers_reject_oversize posix_suffix ascii_lower
                           (fun _ => []) (fun _ => None) 0 content
                           (py "cv.md") H))).
  - exact (proj2 (proj1 (proj2 (text_parsers_reject_oversize posix_suffix
                           ascii_lower (fun _ => []) (fun _ => None) 0 content
                           (py "cv.tex") H)))).
Defined.

(** The PDF parser looks at the extension, the emptiness, the magic
    bytes and the reader's verdict, and at no length: whatever follows
    the magic bytes, the reader is called. *)
Lemma pdf_validate_any_length
    (open_pdf : list Byte.byte -> option PDFParser.PdfReader)
    (rest : list Byte.byte) :
  let v := PDFParser.validate_file posix_suffix ascii_lower open_pdf
             (PDFParser.magic ++ rest) (py "cv.pdf") in
  steps v = [StepOpenPdf]
  /\ (forall n, open_pdf (PDFParser.magic ++ rest)
                = Some (PDFParser.mkPdfReader false (Some n)) ->
                is_valid v = true).
Proof.
  cbv zeta. unfold PDFParser.validate_file.
  change (BaseParser.can_handle posix_suffix ascii_lower
            PDFParser.SUPPORTED_EXTENSIONS (py "cv.pdf")) with true.
  change (PDFParser.bytes_startswith (PDFParser.magic ++ rest) PDFParser.magic)
    with true.
  simpl. split.
  - destruct (open_pdf _) as [[[|] [n|]]|]; reflexivity.
  - intros n H. now rewrite H.
Qed.

(** C7 fails for the PDF parser.  On a file of 2 MiB and four bytes
    that starts like a PDF, twice the limit of the text parsers, the
    reader is called, whether it then opens the file or raises; and
    when it opens it as an unencrypted document the file is valid. *)
Lemma pdf_validate_has_no_size_limit :
  let content := PDFParser.magic ++ repeat Byte.x20 (N.to_nat 2097152) in
  let opens := fun _ : list Byte.byte =>
                 Some (PDFParser.mkPdfReader false (Some 1)) in
  let raises := fun _ : list Byte.byte => @None PDFParser.PdfReader in
  MarkdownParser.MAX_FILE_SIZE < len content
  /\ PDFParser.validate_file posix_suffix ascii_lower opens content (py "cv.pdf")
     = accept [StepOpenPdf]
  /\ PDFParser.validate_file posix_suffix ascii_lower raises content (py "cv.pdf")
     = reject PdfValidationFailed [StepOpenPdf].
Proof.
  intros content opens raises. split; [|split].
  - unfold content. rewrite len_app, len_repeat. reflexivity.
  - reflexivity.
  - reflexivity.
Qed.

(** *** The Markdown clean-up *)

#[local] Abbreviation squeeze := (replace_from LLL LL 0).

Lemma eol_pass (t : str) :
  List.map (fun x => if x =? CR then LF else x)
           (replace_from [CR; LF] [LF] 0 t)
  = eol_to_lf t.
Proof.
  induction t as [t IH] using list_len_ind.
  destruct t as [|c t]; [reflexivity|].
  destruct (startswith (c :: t) [CR; LF]) eqn:E.
  - destruct (startswith_split _ _ E) as [rest Hr]. rewrite Hr.
    rewrite (replace_from_hit CR [LF] [LF] rest).
    simpl. f_equal. apply IH. rewrite Hr. simpl. lia.
  - rewrite replace_from_miss by exact E.
    simpl List.map. rewrite IH by (simpl; lia).
    simpl in E. simpl eol_to_lf.
    destruct (c =? CR) eqn:Ec; [|reflexivity].
    destruct t as [|d t]; [reflexivity|].
    simpl in E. rewrite andb_true_r in E. now rewrite E.
Qed.

Lemma normalize_eol (t : str) :
  replace (replace t [CR; LF] [LF]) [CR] [LF] = eol_to_lf t.
Proof. rewrite replace_char_char. apply eol_pass. Qed.

Lemma eol_to_lf_no_cr (t : str) : ~ In CR (eol_to_lf t).
Proof.
  induction t as [|c t IH]; simpl; [tauto|].
  destruct (c =? CR) eqn:E.
  - destruct t as [|d t]; [simpl; intuition discriminate|].
    destruct (d =? LF); [exact IH|].
    intros [H|H]; [discriminate | now apply IH].
  - intros [H|H]; [|now apply IH].
    subst c. discriminate E.
Qed.

Lemma eol_to_lf_id (t : str) : ~ In CR t -> eol_to_lf t = t.
Proof.
  induction t as [|c t IH]; intros H; [reflexivity|]. simpl.
  destruct (c =? CR) eqn:E.
  - apply N.eqb_eq in E. subst c. exfalso. apply H. now left.
  - f_equal. apply IH. intros Hin. apply H. now right.
Qed.

Lemma cap_In (c : char) (cap run : nat) (t : str) :
  In c (cap_newlines cap run t) -> In c t.
Proof.
  revert run. induction t as [|d t IH]; intros run; simpl; [tauto|].
  destruct (d =? LF) eqn:E.
  - apply N.eqb_eq in E. subst d.
    destruct (run <? cap)%nat; simpl; intros H.
    + destruct H as [H|H]; [now left | right; eapply IH; eauto].
    + right. eapply IH; eauto.
  - intros [H|H]; [now left | right; eapply IH; eauto].
Qed.

Lemma squeeze_hit (rest : str) : squeeze (LLL ++ rest) = LL ++ squeeze rest.
Proof. exact (replace_from_hit LF [LF; LF] LL rest). Qed.

(** A round of the loop does not change what capping yields. *)
Lemma cap_squeeze (t : str) :
  forall run, cap_newlines 2 run (squeeze t) = cap_newlines 2 run t.
Proof.
  induction t as [t IH] using list_len_ind. intros run.
  destruct t as [|c t]; [reflexivity|].
  destruct (startswith (c :: t) LLL) eqn:E.
  - destruct (startswith_split _ _ E) as [rest Hr]. rewrite Hr.
    rewrite squeeze_hit.
    assert (Hrest : forall k, cap_newlines 2 k (squeeze rest)
                              = cap_newlines 2 k rest).
    { intros k. apply IH. rewrite Hr. simpl. lia. }
    destruct run as [|[|run]]; simpl; now rewrite Hrest.
  - rewrite replace_from_miss by exact E. simpl.
    destruct (c =? LF); [destruct (run <? 2)%nat|];
      rewrite IH by (simpl; lia); reflexivity.
Qed.

Lemma cap_collapse_loop (fuel : nat) (t : str) :
  cap_newlines 2 0 (MarkdownParser.collapse_loop fuel t) = cap_newlines 2 0 t.
Proof.
  revert t. induction fuel as [|k IH]; intros t; [reflexivity|]. simpl.
  destruct (contains t [LF; LF; LF]); [|reflexivity].
  rewrite IH. apply cap_squeeze.
Qed.

Lemma squeeze_length_le (t : str) :
  (List.length (squeeze t) <= List.length t)%nat.
Proof.
  induction t as [t IH] using list_len_ind.
  destruct t as [|c t]; [simpl; lia|].
  destruct (startswith (c :: t) LLL) eqn:E.
  - destruct (startswith_split _ _ E) as [rest Hr]. rewrite Hr.
    rewrite squeeze_hit.
    assert (List.length (squeeze rest) <= List.length rest)%nat
      by (apply IH; rewrite Hr; simpl; lia).
    simpl. lia.
  - rewrite replace_from_miss by exact E.
    assert (List.length (squeeze t) <= List.length t)%nat
      by (apply IH; simpl; lia).
    simpl. lia.
Qed.

Lemma squeeze_length_lt (t : str) :
  contains t LLL = true ->
  (List.length (squeeze t) < List.length t)%nat.
Proof.
  induction t as [|c t IH]; intros H; [discriminate|].
  destruct (startswith (c :: t) LLL) eqn:E.
  - destruct (startswith_split _ _ E) as [rest Hr]. rewrite Hr.
    rewrite squeeze_hit.
    pose proof (squeeze_length_le rest). simpl. lia.
  - rewrite replace_from_miss by exact E.
    rewrite contains_miss in H by exact E.
    specialize (IH H). simpl. lia.
Qed.

(** The length of the text is fuel enough: the loop stops because no
    three line feeds in a row are left. *)
Lemma collapse_loop_done (fuel : nat) (t : str) :
  (List.length t <= fuel)%nat ->
  contains (MarkdownParser.collapse_loop fuel t) LLL = false.
Proof.
  revert t. induction fuel as [|k IH]; intros t H.
  - destruct t; [reflexivity | simpl in H; lia].
  - simpl. destruct (contains t [LF; LF; LF]) eqn:E; [|exact E].
    apply IH. pose proof (squeeze_length_lt t E).
    unfold replace. fold LLL LL. lia.
Qed.

Lemma cap_id (t : str) :
  forall run, (run <= 2)%nat ->
  contains (repeat LF run ++ t) LLL = false ->
  cap_newlines 2 run t = t.
Proof.
  induction t as [|c t IH]; intros run Hrun H; [reflexivity|]. simpl.
  destruct (c =? LF) eqn:E.
  - apply N.eqb_eq in E. subst c.
    destruct (run <? 2)%nat eqn:Er.
    + apply Nat.ltb_lt in Er. f_equal. apply IH; [lia|].
      replace (repeat LF (S run) ++ t) with (repeat LF run ++ LF :: t);
        [exact H|].
      change (LF :: t) with ([LF] ++ t).
      now rewrite app_assoc, <- repeat_cons.
    + apply Nat.ltb_ge in Er. assert (run = 2)%nat by lia. subst run.
      rewrite contains_startswith in H; [discriminate | reflexivity].
  - f_equal. apply IH; [lia|]. simpl.
    destruct (contains t LLL) eqn:Et; [|reflexivity].
    rewrite <- H. symmetry.
    apply contains_app_r. now apply contains_cons.
Qed.

Lemma collapse_loop_cap (t : str) :
  MarkdownParser.collapse_loop (List.length t) t = cap_newlines 2 0 t.
Proof.
  rewrite <- cap_collapse_loop with (fuel := List.length t).
  symmetry. apply cap_id; [lia|]. simpl.
  now apply collapse_loop_done.
Qed.

Lemma clean_text_spec (t : str) :
  MarkdownParser._clean_text t = strip (cap_newlines 2 0 (eol_to_lf t)).
Proof.
  unfold MarkdownParser._clean_text.
  now rewrite normalize_eol, collapse_loop_cap.
Qed.

(** C9, as the code has it: the clean-up turns CR LF and CR into LF,
    cuts every run of three or more line feeds (two or more blank
    lines) down to two line feeds (one blank line), leaves shorter
    runs alone, and strips the ends.  Nothing else changes: text
    without CR and without three line feeds in a row is only
    stripped. *)
Theorem clean_text_collapses_newline_runs (t : str) :
  MarkdownParser._clean_text t = strip (cap_newlines 2 0 (eol_to_lf t))
  /\ ~ In CR (MarkdownParser._clean_text t)
  /\ contains (MarkdownParser._clean_text t) [LF; LF; LF] = false
  /\ (~ In CR t -> contains t [LF; LF; LF] = false ->
      MarkdownParser._clean_text t = strip t).
Proof.
  rewrite clean_text_spec. repeat split.
  - intros H. apply strip_In, cap_In in H. now apply eol_to_lf_no_cr in H.
  - apply strip_contains. rewrite <- collapse_loop_cap.
    now apply collapse_loop_done.
  - intros Hcr Hlf. rewrite eol_to_lf_id by exact Hcr.
    rewrite cap_id; [reflexivity | lia | exact Hlf].
Qed.

Lemma clean_text_collapses_newline_runs_witness :
  let t := py "# Ada" ++ [LF; LF] ++ py "Engineer" ++ [LF] in
  ~ In CR t
  /\ contains t [LF; LF; LF] = false
  /\ MarkdownParser._clean_text t = strip t.
Proof.
  intros t.
  assert (Hcr : ~ In CR t).
  { intros H. vm_compute in H. repeat (destruct H as [H|H]; [discriminate|]).
    exact H. }
  assert (Hlf : contains t [LF; LF; LF] = false) by reflexivity.
  split; [exact Hcr|]. split; [exact Hlf|].
  exact (proj2 (proj2 (proj2 (clean_text_collapses_newline_runs t))) Hcr Hlf).
Defined.

(** C9 as stated fails: two blank lines in a row, fewer than three,
    do not stay; they become one. *)
Lemma clean_text_two_blank_lines_collapse :
  let t := py "a" ++ [LF; LF; LF] ++ py "b" in
  MarkdownParser._clean_text t = py "a" ++ [LF; LF] ++ py "b"
  /\ MarkdownParser._clean_text t <> t.
Proof. split; [reflexivity | discriminate]. Qed.

Example clean_text_examples :
  MarkdownParser._clean_text (py "a" ++ [CR; LF; CR] ++ py "b")
    = py "a" ++ [LF; LF] ++ py "b"
  /\ MarkdownParser._clean_text (py "a" ++ [LF; LF; LF; LF; LF; LF] ++ py "b")
    = py "a" ++ [LF; LF] ++ py "b"
  /\ MarkdownParser._clean_text ([LF; LF] ++ py "a" ++ [LF] ++ py "b " ++ [LF])
    = py "a" ++ [LF] ++ py "b".
Proof. repeat split. Qed.

End ParserFacts.

(* ================================================================= *)
(** ** Repository relevance ranker *)

Module RankerFacts.
Import GitHubService.
#[local] Open Scope Z_scope.

Lemma score_is_spec_score (clock : nat -> Z) (reads : nat) (repo : Repository) :
  fst (_calculate_repo_score clock reads repo) = spec_score (clock reads) repo.
Proof.
  unfold _calculate_repo_score, spec_score, recency_term.
  destruct (pushed_at repo) as [pushed|]; simpl;
    repeat match goal with
           | |- context [if ?c then _ else _] => destruct c
           | |- context [match topics repo with _ => _ end] =>
               destruct (topics repo)
           end; simpl; lia.
Qed.

Lemma score_repos_fst (clock : nat -> Z) (repos : list Repository) :
  forall reads, List.map fst (score_repos clock reads repos) = repos.
Proof.
  induction repos as [|r rest IH]; intros reads; simpl; [reflexivity|].
  destruct (_calculate_repo_score clock reads r) as [sc reads'].
  simpl. now rewrite IH.
Qed.



(** *** The sort *)

Lemma insert_desc_perm (x : Repository * Z) (l : list (Repository * Z)) :
  Permutation (insert_desc x l) (x :: l).
Proof.
  induction l as [|y l IH]; simpl; [apply Permutation_refl|].
  destruct (snd x <? snd y); [|apply Permutation_refl].
  eapply perm_trans; [apply perm_skip, IH | apply perm_swap].
Qed.

Lemma sort_desc_perm (l : list (Repository * Z)) : Permutation (sort_desc l) l.
Proof.
  induction l as [|x l IH]; simpl; [constructor|].
  eapply perm_trans; [apply insert_desc_perm | now apply perm_skip].
Qed.

Lemma insert_desc_sorted (x : Repository * Z) (l : list (Repository * Z)) :
  StronglySorted by_score_desc l ->
  StronglySorted by_score_desc (insert_desc x l).
Proof.
  induction 1 as [|y l Hl IH Hy]; simpl.
  - repeat constructor.
  - destruct (snd x <? snd y) eqn:E.
    + apply Z.ltb_lt in E. constructor; [exact IH|].
      apply Forall_forall. intros z Hz.
      apply (Permutation_in _ (insert_desc_perm x l)) in Hz.
      destruct Hz as [<-|Hz]; [unfold by_score_desc; lia|].
      now apply (proj1 (Forall_forall _ _) Hy).
    + apply Z.ltb_ge in E. constructor; [now constructor|].
      constructor; [exact E|].
      apply Forall_forall. intros z Hz.
      pose proof (proj1 (Forall_forall _ _) Hy z Hz) as Hzy.
      unfold by_score_desc in *. lia.
Qed.

Lemma sort_desc_sorted (l : list (Repository * Z)) :
  StronglySorted by_score_desc (sort_desc l).
Proof.
  induction l as [|x l IH]; simpl; [constructor | now apply insert_desc_sorted].
Qed.

(** Insertion only overtakes pairs of a strictly larger score, so the
    pairs of any one score keep their order. *)
Lemma insert_desc_stable (s : Z) (x : Repository * Z) (l : list (Repository * Z)) :
  List.filter (has_score s) (insert_desc x l)
  = List.filter (has_score s) (x :: l).
Proof.
  induction l as [|y l IH]; [reflexivity|]. simpl insert_desc.
  destruct (snd x <? snd y) eqn:E; [|reflexivity].
  apply Z.ltb_lt in E.
  simpl. simpl in IH. rewrite IH. unfold has_score.
  destruct (snd x =? s) eqn:Ex, (snd y =? s) eqn:Ey; try reflexivity.
  apply Z.eqb_eq in Ex, Ey. lia.
Qed.

Lemma sort_desc_stable (s : Z) (l : list (Repository * Z)) :
  List.filter (has_score s) (sort_desc l) = List.filter (has_score s) l.
Proof.
  induction l as [|x l IH]; [reflexivity|]. simpl sort_desc.
  rewrite insert_desc_stable. simpl. now rewrite IH.
Qed.

Lemma firstn_In {A} (n : nat) (l : list A) (x : A) :
  In x (firstn n l) -> In x l.
Proof.
  revert l. induction n as [|n IH]; intros [|y l] H; simpl in *; try tauto.
  destruct H as [H|H]; [now left | right; now apply IH].
Qed.

(** *** The code against the specification's words *)

Lemma days_below (d k : Z) : (days d <? k) = (d <? k * 86400000000).
Proof.
  unfold days, DAY. change (86400 * 1000000) with 86400000000.
  destruct (d <? k * 86400000000) eqn:E.
  - apply Z.ltb_lt in E. apply Z.ltb_lt.
    apply Z.div_lt_upper_bound; lia.
  - apply Z.ltb_ge in E. apply Z.ltb_ge.
    apply Z.div_le_lower_bound; lia.
Qed.

Lemma score_is_ranking_score (clock : nat -> Z) (reads : nat)
    (repo : Repository) :
  fst (_calculate_repo_score clock reads repo)
  = Specification.ranking_score (clock reads) repo.
Proof.
  unfold _calculate_repo_score, Specification.ranking_score,
    Specification.recency, Specification.no_description, truthy.
  destruct (pushed_at repo) as [pushed|]; cbv zeta;
    rewrite ?days_below;
    destruct (description repo) as [[|c d]|]; cbn [fst];
    repeat match goal with
           | |- context [if ?c then _ else _] => destruct c
           | |- context [match topics repo with _ => _ end] =>
               destruct (topics repo)
           end; cbn [fst]; lia.
Qed.

Lemma should_include_retained (repo : Repository) :
  _should_include_repo repo = negb (Specification.excluded repo).
Proof.
  unfold _should_include_repo, Specification.excluded,
    Specification.no_description, truthy.
  destruct (archived repo), (fork repo); try reflexivity.
  destruct (description repo) as [[|c d]|]; cbn [negb andb orb];
    now destruct (size repo =? 0).
Qed.

Lemma filter_is_retained (all_repos : list Repository) :
  List.filter _should_include_repo all_repos = Specification.retained all_repos.
Proof. apply filter_ext. exact should_include_retained. Qed.

Lemma excluded_spec (r : Repository) :
  Specification.excluded r = false
  <-> archived r = false /\ fork r = false
      /\ ~ ((description r = None \/ description r = Some []) /\ size r = 0).
Proof.
  unfold Specification.excluded, Specification.no_description.
  rewrite !orb_false_iff, andb_false_iff.
  destruct (description r) as [[|c d]|]; rewrite Z.eqb_neq;
    intuition congruence.
Qed.

Lemma score_repos_scores (clock : nat -> Z) (repos : list Repository) :
  forall reads,
    Forall (fun p => exists k, snd p = Specification.ranking_score (clock k) (fst p))
      (score_repos clock reads repos).
Proof.
  induction repos as [|r rest IH]; intros reads; simpl; [constructor|].
  pose proof (score_is_ranking_score clock reads r) as Hs.
  destruct (_calculate_repo_score clock reads r) as [sc reads'].
  constructor; [now exists reads | apply IH].
Qed.

Lemma score_reads (clock : nat -> Z) (reads : nat) (repo : Repository) :
  snd (_calculate_repo_score clock reads repo)
  = (reads + Specification.readings [repo])%nat.
Proof.
  unfold _calculate_repo_score, Specification.readings.
  cbn [List.filter].
  destruct (pushed_at repo) as [pushed|]; cbn [List.length snd]; lia.
Qed.

Lemma readings_cons (repo : Repository) (repos : list Repository) :
  Specification.readings (repo :: repos)
  = (Specification.readings [repo] + Specification.readings repos)%nat.
Proof.
  unfold Specification.readings. cbn [List.filter].
  now destruct (pushed_at repo).
Qed.

Lemma score_repos_nth (clock : nat -> Z) (repos : list Repository) :
  forall reads i r,
    nth_error repos i = Some r ->
    nth_error (score_repos clock reads repos) i
    = Some (r, Specification.ranking_score
                 (clock (reads + Specification.readings (firstn i repos))%nat)
                 r).
Proof.
  induction repos as [|r0 rest IH]; intros reads i r H.
  - destruct i; discriminate H.
  - cbn [score_repos].
    pose proof (score_is_ranking_score clock reads r0) as Hs.
    pose proof (score_reads clock reads r0) as Hr.
    destruct (_calculate_repo_score clock reads r0) as [sc reads'].
    cbn [fst snd] in Hs, Hr. destruct i as [|i].
    + cbn [nth_error] in H |- *. injection H as <-.
      cbn [firstn]. unfold Specification.readings at 1.
      cbn [List.filter List.length]. now rewrite Nat.add_0_r, Hs.
    + cbn [nth_error] in H |- *. rewrite (IH reads' i r H).
      cbn [firstn]. rewrite readings_cons, Hr.
      now rewrite Nat.add_assoc.
Qed.

Lemma score_repos_steady (clock : nat -> Z) (now : Z) (repos : list Repository) :
  (forall k, clock k = now) ->
  forall reads,
    score_repos clock reads repos
    = List.map (fun r => (r, Specification.ranking_score now r)) repos.
Proof.
  intros Hc. induction repos as [|r rest IH]; intros reads; simpl;
    [reflexivity|].
  pose proof (score_is_ranking_score clock reads r) as Hs.
  destruct (_calculate_repo_score clock reads r) as [sc reads'].
  cbn [fst] in Hs. now rewrite Hs, Hc, IH.
Qed.

Lemma firstn_all_of {A} (n : nat) (l : list A) :
  (List.length l <= n)%nat -> firstn n l = l.
Proof.
  revert n. induction l as [|x l IH]; intros [|n] H; simpl in *;
    try reflexivity; try lia.
  now rewrite IH by lia.
Qed.

(** C5: what the ranker returns.  The repositories that are scored
    are those of the input, in its order, that are not archived, not
    forks and not without both a description and a size; each is
    paired with the sum of the six terms, the recency taken at a
    reading of the clock (fewer than 30, 90 or 180 days of 86400
    seconds since the push give 50, 30 or 15, a missing push time 0),
    which is read once for every repository that has a push time, in
    the order of the input;
    the pairs are sorted by descending score with pairs of equal score
    in the order of the input, and the first 15 are the result.  The
    repository of the example scores 92, and the recency changes at
    30, 90 and 180 days to the microsecond. *)
Theorem ranker_contract (clock : nat -> Z) (all_repos : list Repository) :
  exists scored sorted : list (Repository * Z),
    List.map fst scored = Specification.retained all_repos
    /\ Forall (fun p => exists k,
                 snd p = Specification.ranking_score (clock k) (fst p)) scored
    /\ (forall i r,
          nth_error (Specification.retained all_repos) i = Some r ->
          nth_error scored i
          = Some (r, Specification.ranking_score
                       (clock (Specification.readings
                                 (firstn i (Specification.retained all_repos))))
                       r))
    /\ (forall now, (forall k, clock k = now) ->
          scored
          = List.map (fun r => (r, Specification.ranking_score now r))
              (Specification.retained all_repos))
    /\ Permutation sorted scored
    /\ StronglySorted by_score_desc sorted
    /\ (forall s, List.filter (has_score s) sorted
                  = List.filter (has_score s) scored)
    /\ top_repos clock all_repos = firstn 15 sorted
    /\ _fetch_repositories clock all_repos = List.map fst (firstn 15 sorted)
    /\ (forall r, In r (Specification.retained all_repos)
                  <-> In r all_repos
                      /\ archived r = false /\ fork r = false
                      /\ ~ ((description r = None \/ description r = Some [])
                            /\ size r = 0))
    /\ (forall r, In r (_fetch_repositories clock all_repos) ->
          In r (Specification.retained all_repos))
    /\ ((List.length (Specification.retained all_repos) <= 15)%nat ->
        Permutation (_fetch_repositories clock all_repos)
          (Specification.retained all_repos))
    /\ (forall reads repo,
          fst (_calculate_repo_score clock reads repo)
          = Specification.ranking_score (clock reads) repo)
    /\ (forall reads text topic,
          text <> [] ->
          fst (_calculate_repo_score clock reads
                 (Specification.pushed_ago (clock reads) 864000000000
                    (Some text) 500 3 1 [topic])) = 92)
    /\ (forall reads elapsed,
          fst (_calculate_repo_score clock reads
                 (Specification.pushed_ago (clock reads) elapsed None 1 0 0 []))
          = if elapsed <? 2592000000000 then 50
            else if elapsed <? 7776000000000 then 30
            else if elapsed <? 15552000000000 then 15
            else 0).
Proof.
  exists (score_repos clock 0 (List.filter _should_include_repo all_repos)),
    (scored_repos clock all_repos).
  assert (Hperm : Permutation (scored_repos clock all_repos)
                    (score_repos clock 0
                       (List.filter _should_include_repo all_repos)))
    by apply sort_desc_perm.
  assert (Hfst : List.map fst
                   (score_repos clock 0
                      (List.filter _should_include_repo all_repos))
                 = Specification.retained all_repos)
    by (rewrite score_repos_fst; apply filter_is_retained).
  assert (Hin : forall r, In r (_fetch_repositories clock all_repos) ->
                          In r (Specification.retained all_repos)).
  { intros r H. unfold _fetch_repositories, top_repos in H.
    apply in_map_iff in H as ([r' sc] & <- & H). apply firstn_In in H.
    apply (Permutation_in _ Hperm) in H.
    rewrite <- Hfst. apply in_map_iff. now exists (r', sc). }
  repeat match goal with |- _ /\ _ => split end.
  - exact Hfst.
  - apply score_repos_scores.
  - intros i r H. rewrite filter_is_retained.
    now rewrite (score_repos_nth clock _ 0 i r H).
  - intros now Hc. rewrite (score_repos_steady clock now _ Hc).
    now rewrite filter_is_retained.
  - exact Hperm.
  - apply sort_desc_sorted.
  - intros s. apply sort_desc_stable.
  - reflexivity.
  - reflexivity.
  - intros r. unfold Specification.retained.
    rewrite filter_In, negb_true_iff, excluded_spec. reflexivity.
  - exact Hin.
  - intros Hlen. unfold _fetch_repositories, top_repos.
    rewrite firstn_all_of.
    + rewrite <- Hfst. now apply Permutation_map.
    + change MAX_REPOS with 15%nat.
      rewrite (Permutation_length Hperm), <- (length_map fst), Hfst.
      exact Hlen.
  - intros reads repo. apply score_is_ranking_score.
  - intros reads text topic Hd. rewrite score_is_ranking_score.
    unfold Specification.ranking_score, Specification.pushed_ago,
      Specification.recency, Specification.no_description.
    cbn [pushed_at stargazers_count forks_count description topics size].
    replace (clock reads - (clock reads - 864000000000)) with 864000000000
      by lia.
    destruct text as [|c d]; [congruence | reflexivity].
  - intros reads elapsed. rewrite score_is_ranking_score.
    unfold Specification.ranking_score, Specification.pushed_ago,
      Specification.recency, Specification.no_description.
    cbn [pushed_at stargazers_count forks_count description topics size].
    replace (clock reads - (clock reads - elapsed)) with elapsed by lia.
    change (30 * 86400000000) with 2592000000000.
    change (90 * 86400000000) with 7776000000000.
    change (180 * 86400000000) with 15552000000000.
    now destruct (elapsed <? 2592000000000), (elapsed <? 7776000000000),
      (elapsed <? 15552000000000).
Qed.

(** The ranker on four repositories at a steady clock: an archived
    one, the example, a fork and one that is all but 30 days old. *)
Lemma ranker_contract_witness :
  let now := 1700000000000000 in
  let example :=
    Specification.pushed_ago now 864000000000 (Some (py "A demo")) 500 3 1
      [py "cli"] in
  let aged := Specification.pushed_ago now 2592000000000 None 1 0 0 [] in
  let repos :=
    [ mkRepository (py "old") true false (Some (py "x")) 40 None 100 0 [];
      aged; example;
      mkRepository (py "forked") false true (Some (py "y")) 40 None 9 9 [] ] in
  (forall k : nat, (fun _ : nat => now) k = now)
  /\ _fetch_repositories (fun _ => now) repos = [example; aged]
  /\ exists sorted,
       Permutation sorted [(aged, 30); (example, 92)]
       /\ StronglySorted by_score_desc sorted
       /\ top_repos (fun _ => now) repos = firstn 15 sorted.
Proof.
  intros now example aged repos.
  assert (Hc : forall k : nat, (fun _ : nat => now) k = now) by reflexivity.
  destruct (ranker_contract (fun _ => now) repos)
    as (scored & sorted & _ & _ & _ & Hscored & Hperm & Hsorted & _ & Htop & _).
  specialize (Hscored now Hc).
  split; [exact Hc|]. split; [reflexivity|].
  exists sorted. rewrite Hscored in Hperm. auto.
Defined.

(** Equal scores keep the order of the input; a larger score goes
    first. *)
Example ranker_is_stable :
  let repo n stars := mkRepository n false false None 5 None stars 0 [] in
  List.map (fun r => name r)
    (_fetch_repositories (fun _ => 0)
       [repo (py "a") 1; repo (py "b") 2; repo (py "c") 1; repo (py "d") 2])
  = [py "b"; py "d"; py "a"; py "c"].
Proof. reflexivity. Qed.

End RankerFacts.

(* ================================================================= *)
(** ** Dicts *)

Module DictFacts.
Import Json.

Lemma str_eqb_eq (a b : str) : str_eqb a b = true <-> a = b.
Proof.
  revert b. induction a as [|x a IH]; intros [|y b]; simpl;
    try (split; [discriminate | discriminate]); [tauto|].
  rewrite andb_true_iff, N.eqb_eq, IH. split.
  - now intros [-> ->].
  - intros H. injection H as -> ->. auto.
Qed.

Lemma str_eqb_refl (a : str) : str_eqb a a = true.
Proof. now apply str_eqb_eq. Qed.

Lemma str_eqb_neq (a b : str) : a <> b -> str_eqb a b = false.
Proof.
  intros H. destruct (str_eqb a b) eqn:E; [|reflexivity].
  now apply str_eqb_eq in E.
Qed.

Lemma dict_get_set_same (k : str) (v : json) (d : dict) :
  dict_get k (dict_set k v d) = Some v.
Proof.
  induction d as [|[k' v'] d IH]; simpl.
  - now rewrite str_eqb_refl.
  - destruct (str_eqb k' k) eqn:E; simpl; now rewrite E.
Qed.

Lemma dict_get_set_other (k k' : str) (v : json) (d : dict) :
  k <> k' -> dict_get k' (dict_set k v d) = dict_get k' d.
Proof.
  intros H. induction d as [|[k0 v0] d IH]; simpl.
  - now rewrite str_eqb_neq.
  - destruct (str_eqb k0 k) eqn:E; simpl.
    + apply str_eqb_eq in E. subst k0. now rewrite str_eqb_neq.
    + now rewrite IH.
Qed.

Lemma dict_get_pop_same (k : str) (d : dict) : dict_get k (dict_pop k d) = None.
Proof.
  induction d as [|[k0 v0] d IH]; simpl; [reflexivity|].
  destruct (str_eqb k0 k) eqn:E; simpl; [exact IH | now rewrite E].
Qed.

Lemma dict_get_pop_other (k k' : str) (d : dict) :
  k <> k' -> dict_get k' (dict_pop k d) = dict_get k' d.
Proof.
  intros H. induction d as [|[k0 v0] d IH]; simpl; [reflexivity|].
  destruct (str_eqb k0 k) eqn:E; simpl.
  - apply str_eqb_eq in E. subst k0. now rewrite str_eqb_neq.
  - now rewrite IH.
Qed.

Lemma dict_get_In (k : str) (v : json) (d : dict) :
  dict_get k d = Some v -> In (k, v) d.
Proof.
  induction d as [|[k0 v0] d IH]; simpl; [discriminate|].
  destruct (str_eqb k0 k) eqn:E.
  - apply str_eqb_eq in E. subst k0. intros H. injection H as ->. now left.
  - intros H. right. now apply IH.
Qed.

Lemma dict_set_In (k k0 : str) (v v0 : json) (d : dict) :
  In (k, v) (dict_set k0 v0 d) -> v = v0 \/ In (k, v) d.
Proof.
  induction d as [|[k1 v1] d IH]; simpl.
  - intros [H|[]]. injection H as _ <-. now left.
  - destruct (str_eqb k1 k0); simpl; intros [H|H].
    + injection H as _ <-. now left.
    + right. now right.
    + right. now left.
    + destruct (IH H) as [->|Hin]; [now left | right; now right].
Qed.

Lemma dict_pop_In (k k0 : str) (v : json) (d : dict) :
  In (k, v) (dict_pop k0 d) -> In (k, v) d.
Proof.
  induction d as [|[k1 v1] d IH]; simpl; [tauto|].
  destruct (str_eqb k1 k0); simpl.
  - intros H. right. now apply IH.
  - intros [H|H]; [now left | right; now apply IH].
Qed.

End DictFacts.

(* ================================================================= *)
(** ** Schema reconciliation *)

Module ReconcilerFacts.
Import Json LLMService DictFacts.

Lemma rename_alias_renamed (canonical alias : str) (entry : dict) :
  canonical <> alias ->
  renamed canonical alias entry (rename_alias canonical alias entry).
Proof.
  intros Hne. unfold renamed, rename_alias, dict_has.
  destruct (dict_get canonical entry) as [c|]; [reflexivity|].
  destruct (dict_get alias entry) as [v|]; [|reflexivity]. simpl.
  repeat split.
  - apply dict_get_set_same.
  - rewrite dict_get_set_other by exact Hne. apply dict_get_pop_same.
  - intros k Hc Ha. rewrite dict_get_set_other by congruence.
    apply dict_get_pop_other. congruence.
Qed.

Lemma rename_alias_keeps (canonical alias k : str) (entry : dict) :
  k <> alias ->
  (k = canonical -> dict_get canonical entry <> None) ->
  dict_get k (rename_alias canonical alias entry) = dict_get k entry.
Proof.
  intros Ha Hc. unfold rename_alias, dict_has.
  destruct (dict_get canonical entry) as [c|] eqn:Ec; [reflexivity|].
  destruct (dict_get alias entry) as [v|]; [|reflexivity]. simpl.
  assert (k <> canonical) by (intros ->; now apply Hc).
  rewrite dict_get_set_other by congruence.
  apply dict_get_pop_other. congruence.
Qed.

Lemma rename_alias_invents_nothing (canonical alias : str) (entry : dict) :
  forall k v, In (k, v) (rename_alias canonical alias entry) ->
              exists k', In (k', v) entry.
Proof.
  intros k v. unfold rename_alias, dict_has.
  destruct (dict_get canonical entry) as [c|]; simpl; [eauto|].
  destruct (dict_get alias entry) as [a|] eqn:Ea; simpl; [|eauto].
  intros H. apply dict_set_In in H as [->|H].
  - exists alias. now apply dict_get_In.
  - exists k. now apply dict_pop_In in H.
Qed.

Lemma wrap_description_wrapped (entry : dict) :
  description_wrapped entry (wrap_description entry).
Proof.
  unfold description_wrapped, wrap_description.
  destruct (dict_get (py "description") entry) as [[]|]; try reflexivity.
  split.
  - apply dict_get_set_same.
  - intros k Hk. apply dict_get_set_other. congruence.
Qed.

Lemma wrap_description_keeps (k : str) (entry : dict) :
  k <> py "description" ->
  dict_get k (wrap_description entry) = dict_get k entry.
Proof.
  intros Hk. unfold wrap_description.
  destruct (dict_get (py "description") entry) as [[]|]; try reflexivity.
  apply dict_get_set_other. congruence.
Qed.

Lemma wrap_description_In (entry : dict) (k : str) (v : json) :
  In (k, v) (wrap_description entry) ->
  In (k, v) entry
  \/ exists s, v = JArr [JStr s]
               /\ dict_get (py "description") entry = Some (JStr s).
Proof.
  unfold wrap_description.
  destruct (dict_get (py "description") entry) as [d|] eqn:Ed; [|now left].
  destruct d; try (now left).
  intros H. apply dict_set_In in H as [->|H]; [right | now left].
  now exists s.
Qed.

Lemma normalize_entries_other (key k : str) (f : dict -> dict) (r : dict) :
  key <> k -> dict_get k (normalize_entries key f r) = dict_get k r.
Proof.
  intros H. unfold normalize_entries.
  destruct (dict_get key r) as [[]|]; try reflexivity.
  now apply dict_get_set_other.
Qed.

(** The canonical key is there: the side condition of
    [rename_alias_keeps]. *)
Ltac present :=
  intros _;
  cbv delta [k_role k_title k_organization k_company k_institution k_school
             k_university k_highlights k_achievements k_bullets] in *;
  congruence.

(** *** The code against the specification's words *)

Lemma dict_get_absent (k : str) (d : dict) :
  dict_get k d = None <-> ~ In k (List.map fst d).
Proof.
  induction d as [|[k0 v0] d IH]; simpl; [tauto|].
  destruct (str_eqb k0 k) eqn:E.
  - apply str_eqb_eq in E. split; [discriminate|].
    intros H. elim H. now left.
  - rewrite IH. split; [|tauto].
    intros H [H1|H1]; [|tauto].
    subst k0. rewrite str_eqb_refl in E. discriminate.
Qed.

Lemma dict_get_first (k : str) (v : json) (d : dict) :
  dict_get k d = Some v
  <-> exists before after,
        d = before ++ (k, v) :: after /\ ~ In k (List.map fst before).
Proof.
  induction d as [|[k0 v0] d IH]; simpl.
  - split; [discriminate|]. intros (b & a & H & _). destruct b; discriminate.
  - destruct (str_eqb k0 k) eqn:E.
    + apply str_eqb_eq in E. subst k0. split.
      * intros H. injection H as ->. exists [], d. split; [reflexivity|].
        simpl. tauto.
      * intros ([|[k1 v1] b] & a & H & Hn); simpl in H.
        -- congruence.
        -- injection H as -> -> _. elim Hn. now left.
    + rewrite IH. split.
      * intros (b & a & -> & Hn). exists ((k0, v0) :: b), a.
        split; [reflexivity|]. simpl. intros [H|H]; [|tauto].
        subst k0. rewrite str_eqb_refl in E. discriminate.
      * intros ([|[k1 v1] b] & a & H & Hn); simpl in H.
        -- injection H as -> _ _. rewrite str_eqb_refl in E. discriminate.
        -- injection H as _ _ ->. exists b, a. split; [reflexivity|].
           simpl in Hn. tauto.
Qed.

Lemma holds_get (d : dict) (k : str) (o : option json) :
  Specification.holds d k o <-> dict_get k d = o.
Proof.
  destruct o as [v|]; simpl.
  - symmetry. apply dict_get_first.
  - symmetry. apply dict_get_absent.
Qed.

Lemma same_at_get (k : str) (d d' : dict) :
  dict_get k d' = dict_get k d -> Specification.same_at k d d'.
Proof.
  intros H o Ho. apply holds_get. apply holds_get in Ho. congruence.
Qed.

Lemma rename_alias_renamed_to (canonical alias : str) (entry : dict) :
  canonical <> alias ->
  Specification.renamed_to canonical alias entry
    (rename_alias canonical alias entry).
Proof.
  intros Hne c a Hc Ha. apply holds_get in Hc, Ha.
  pose proof (rename_alias_renamed canonical alias entry Hne) as H.
  unfold renamed in H. rewrite Hc, Ha in H.
  destruct c as [c|]; [exact H|]. destruct a as [v|]; [|exact H].
  destruct H as (H1 & H2 & H3).
  split; [now apply holds_get|]. split; [now apply holds_get|].
  intros k Hk1 Hk2. apply same_at_get. now apply H3.
Qed.

Lemma wrap_description_listed (entry : dict) :
  Specification.description_listed entry (wrap_description entry).
Proof.
  intros d Hd. apply holds_get in Hd.
  pose proof (wrap_description_wrapped entry) as H.
  unfold description_wrapped in H. rewrite Hd in H.
  destruct d as [[]|]; try exact H.
  destruct H as [H1 H2]. split; [now apply holds_get|].
  intros k Hk. apply same_at_get. now apply H2.
Qed.

Lemma normalize_experience_reconciled (entry : dict) :
  Specification.experience_reconciled entry (normalize_experience entry).
Proof.
  split; [|split].
  - exists (rename_alias k_role k_title entry),
      (rename_alias k_organization k_company
         (rename_alias k_role k_title entry)).
    split; [apply rename_alias_renamed_to; discriminate|].
    split; [apply rename_alias_renamed_to; discriminate|].
    apply wrap_description_listed.
  - intros k v Hk H. apply holds_get in H. apply holds_get.
    unfold normalize_experience.
    rewrite wrap_description_keeps
      by (destruct Hk as [<-|[<-|[]]]; discriminate).
    destruct Hk as [<-|[<-|[]]].
    + rewrite rename_alias_keeps by (intros; discriminate).
      rewrite rename_alias_keeps; [exact H | discriminate | present].
    + assert (H1 : dict_get k_organization (rename_alias k_role k_title entry)
                   = Some v)
        by (rewrite rename_alias_keeps;
            [exact H | discriminate | discriminate]).
      rewrite rename_alias_keeps; [exact H1 | discriminate | present].
  - intros k v H. unfold normalize_experience in H.
    apply wrap_description_In in H as [H|(s & -> & H)].
    + left. apply rename_alias_invents_nothing in H as [k1 H].
      now apply rename_alias_invents_nothing in H.
    + right. exists s. split; [reflexivity|]. apply holds_get.
      now rewrite !rename_alias_keeps in H by (intros; discriminate).
Qed.

Lemma two_renames_reconciled (canonical a1 a2 : str) (entry : dict) :
  canonical <> a1 -> canonical <> a2 ->
  (exists e1,
     Specification.renamed_to canonical a1 entry e1
     /\ Specification.renamed_to canonical a2 e1
          (rename_alias canonical a2 (rename_alias canonical a1 entry)))
  /\ Specification.never_overwritten [canonical] entry
       (rename_alias canonical a2 (rename_alias canonical a1 entry))
  /\ Specification.only_renamed entry
       (rename_alias canonical a2 (rename_alias canonical a1 entry)).
Proof.
  intros H1 H2. split; [|split].
  - exists (rename_alias canonical a1 entry).
    split; now apply rename_alias_renamed_to.
  - intros k v [<-|[]] H. apply holds_get in H. apply holds_get.
    assert (H' : dict_get canonical (rename_alias canonical a1 entry) = Some v)
      by (rewrite rename_alias_keeps; [exact H | exact H1 | congruence]).
    rewrite rename_alias_keeps; [exact H' | exact H2 | congruence].
  - intros k v H.
    apply rename_alias_invents_nothing in H as [k1 H].
    now apply rename_alias_invents_nothing in H.
Qed.

Lemma normalize_education_reconciled (entry : dict) :
  Specification.education_reconciled entry (normalize_education entry).
Proof. apply two_renames_reconciled; discriminate. Qed.

Lemma normalize_project_reconciled (entry : dict) :
  Specification.project_reconciled entry (normalize_project entry).
Proof. apply two_renames_reconciled; discriminate. Qed.

Lemma items_reconciled (R : dict -> dict -> Prop) (f : dict -> dict)
    (items : list json) :
  (forall entry, R entry (f entry)) ->
  Forall2 (Specification.item_reconciled R) items (List.map (on_dict f) items).
Proof.
  intros HR. induction items as [|item items IH]; simpl; constructor;
    [|exact IH].
  destruct item; simpl; eauto.
Qed.

Lemma normalize_entries_at (key : str) (f : dict -> dict) (r : dict) :
  dict_get key (normalize_entries key f r)
  = match dict_get key r with
    | Some (JArr items) => Some (JArr (List.map (on_dict f) items))
    | o => o
    end.
Proof.
  unfold normalize_entries.
  destruct (dict_get key r) as [[]|] eqn:E; try exact E.
  apply dict_get_set_same.
Qed.

Lemma list_reconciled_of (R : dict -> dict -> Prop) (key : str)
    (f : dict -> dict) (r r' : dict) :
  (forall entry, R entry (f entry)) ->
  dict_get key r'
  = match dict_get key r with
    | Some (JArr items) => Some (JArr (List.map (on_dict f) items))
    | o => o
    end ->
  Specification.list_reconciled R key r r'.
Proof.
  intros HR H o Ho. apply holds_get in Ho. rewrite Ho in H.
  destruct o as [[]|]; try (now apply holds_get).
  eexists. split; [apply holds_get; exact H | now apply items_reconciled].
Qed.

Lemma normalize_resume_reconciled (r : dict) :
  Specification.resume_reconciled r (normalize_resume r).
Proof.
  unfold normalize_resume. split; [|split; [|split]].
  - apply (list_reconciled_of _ _ normalize_experience);
      [apply normalize_experience_reconciled|].
    rewrite !normalize_entries_other by discriminate.
    apply normalize_entries_at.
  - apply (list_reconciled_of _ _ normalize_education);
      [apply normalize_education_reconciled|].
    rewrite normalize_entries_other by discriminate.
    rewrite normalize_entries_at.
    now rewrite normalize_entries_other by discriminate.
  - apply (list_reconciled_of _ _ normalize_project);
      [apply normalize_project_reconciled|].
    rewrite normalize_entries_at.
    now rewrite !normalize_entries_other by discriminate.
  - intros k H1 H2 H3. apply same_at_get.
    now rewrite !normalize_entries_other by congruence.
Qed.

(** C4: the reconciler on a response.  Without a [structured_resume],
    or with one that is null or empty, the response is returned as it
    is.  With a resume that has keys, nothing outside it changes, in
    it nothing but the values under [experience], [education] and
    [projects] changes, and of these a list has its items rewritten
    one by one, the dicts only: in an experience the title goes to the
    role and then the company to the organization, each only when the
    canonical key is absent and the alias is there, and then a
    description that is a string becomes a list of one; in an
    education the school goes to the institution and then the
    university, if the institution is still missing; in a project the
    achievements go to the highlights and then the bullets; a
    canonical key that is present keeps its value, and every value of
    a rewritten entry was a value of the entry, the wrapped
    description apart. *)
Theorem normalize_schema_contract (data : dict) :
  (Specification.holds data (py "structured_resume") None ->
   _normalize_schema (JObj data) = Ok (JObj data))
  /\ (Specification.holds data (py "structured_resume") (Some JNull)
      \/ Specification.holds data (py "structured_resume") (Some (JObj [])) ->
      _normalize_schema (JObj data) = Ok (JObj data))
  /\ (forall binding resume,
        Specification.holds data (py "structured_resume")
          (Some (JObj (binding :: resume))) ->
        exists resume' data',
          _normalize_schema (JObj data) = Ok (JObj data')
          /\ Specification.holds data' (py "structured_resume")
               (Some (JObj resume'))
          /\ (forall k, k <> py "structured_resume" ->
                        Specification.same_at k data data')
          /\ Specification.resume_reconciled (binding :: resume) resume').
Proof.
  split; [|split].
  - intros H. apply holds_get in H. unfold _normalize_schema. now rewrite H.
  - intros [H|H]; apply holds_get in H; unfold _normalize_schema;
      now rewrite H.
  - intros binding resume H. apply holds_get in H.
    exists (normalize_resume (binding :: resume)),
      (dict_set (py "structured_resume")
         (JObj (normalize_resume (binding :: resume))) data).
    split; [|split; [|split]].
    + unfold _normalize_schema. now rewrite H.
    + apply holds_get, dict_get_set_same.
    + intros k Hk. apply same_at_get. apply dict_get_set_other. congruence.
    + apply normalize_resume_reconciled.
Qed.

(** The example of the specification, inside a response: the entry
    comes out with the role, the organization and the description as
    a list, and without the title and the company. *)
Lemma normalize_schema_contract_witness :
  Specification.holds Specification.aliased_response (py "structured_resume")
    (Some (JObj [(py "experience",
                  JArr [JObj [(py "title", JStr (py "Engineer"));
                              (py "company", JStr (py "Acme"));
                              (py "description", JStr (py "Did X"))]])]))
  /\ exists data' resume' entry',
       _normalize_schema (JObj Specification.aliased_response)
       = Ok (JObj data')
       /\ Specification.holds data' (py "structured_resume")
            (Some (JObj resume'))
       /\ Specification.holds data' (py "decision_log") (Some (JArr []))
       /\ Specification.holds resume' (py "experience")
            (Some (JArr [JObj entry']))
       /\ Specification.holds entry' (py "role") (Some (JStr (py "Engineer")))
       /\ Specification.holds entry' (py "organization")
            (Some (JStr (py "Acme")))
       /\ Specification.holds entry' (py "description")
            (Some (JArr [JStr (py "Did X")]))
       /\ Specification.holds entry' (py "title") None
       /\ Specification.holds entry' (py "company") None.
Proof.
  assert (Hr : Specification.holds Specification.aliased_response
                 (py "structured_resume")
                 (Some (JObj [(py "experience",
                               JArr [JObj [(py "title", JStr (py "Engineer"));
                                           (py "company", JStr (py "Acme"));
                                           (py "description",
                                            JStr (py "Did X"))]])]))).
  { exists [], [(py "decision_log", JArr [])]. split; [reflexivity|].
    simpl. tauto. }
  split; [exact Hr|].
  destruct (proj2 (proj2 (normalize_schema_contract
                            Specification.aliased_response)) _ _ Hr)
    as (resume' & data' & Hrun & Hres & Hout & Hexp & _ & _ & _).
  assert (Hlist : Specification.holds
                    [(py "experience",
                      JArr [JObj [(py "title", JStr (py "Engineer"));
                                  (py "company", JStr (py "Acme"));
                                  (py "description", JStr (py "Did X"))]])]
                    (py "experience")
                    (Some (JArr [JObj [(py "title", JStr (py "Engineer"));
                                       (py "company", JStr (py "Acme"));
                                       (py "description",
                                        JStr (py "Did X"))]]))).
  { exists [], []. split; [reflexivity|]. simpl. tauto. }
  destruct (Hexp _ Hlist) as (items' & Hitems & Hall).
  inversion Hall as [|item item' rest rest' Hitem Hrest]; subst.
  inversion Hrest; subst.
  destruct Hitem as (entry' & -> & (e1 & e2 & H1 & H2 & H3) & _ & _).
  assert (Hlog : Specification.holds Specification.aliased_response
                   (py "decision_log") (Some (JArr []))).
  { eexists [_], []. split; [reflexivity|]. simpl.
    intros [H|[]]. discriminate H. }
  assert (A1 : Specification.holds
                 [(py "title", JStr (py "Engineer"));
                  (py "company", JStr (py "Acme"));
                  (py "description", JStr (py "Did X"))] (py "role") None).
  { simpl. intros [H|[H|[H|[]]]]; discriminate H. }
  assert (A2 : Specification.holds
                 [(py "title", JStr (py "Engineer"));
                  (py "company", JStr (py "Acme"));
                  (py "description", JStr (py "Did X"))] (py "title")
                 (Some (JStr (py "Engineer")))).
  { exists [], [(py "company", JStr (py "Acme"));
                (py "description", JStr (py "Did X"))].
    split; [reflexivity|]. simpl. tauto. }
  assert (A3 : Specification.holds
                 [(py "title", JStr (py "Engineer"));
                  (py "company", JStr (py "Acme"));
                  (py "description", JStr (py "Did X"))] (py "organization")
                 None).
  { simpl. intros [H|[H|[H|[]]]]; discriminate H. }
  assert (A4 : Specification.holds
                 [(py "title", JStr (py "Engineer"));
                  (py "company", JStr (py "Acme"));
                  (py "description", JStr (py "Did X"))] (py "company")
                 (Some (JStr (py "Acme")))).
  { exists [(py "title", JStr (py "Engineer"))],
      [(py "description", JStr (py "Did X"))].
    split; [reflexivity|]. simpl. intros [H|[]]. discriminate H. }
  assert (A5 : Specification.holds
                 [(py "title", JStr (py "Engineer"));
                  (py "company", JStr (py "Acme"));
                  (py "description", JStr (py "Did X"))] (py "description")
                 (Some (JStr (py "Did X")))).
  { exists [(py "title", JStr (py "Engineer"));
            (py "company", JStr (py "Acme"))], [].
    split; [reflexivity|]. simpl. intros [H|[H|[]]]; discriminate H. }
  destruct (H1 _ _ A1 A2) as (B1 & B2 & B3).
  assert (C3 : Specification.holds e1 (py "organization") None)
    by (apply B3; [discriminate | discriminate | exact A3]).
  assert (C4 : Specification.holds e1 (py "company") (Some (JStr (py "Acme"))))
    by (apply B3; [discriminate | discriminate | exact A4]).
  assert (C5 : Specification.holds e1 (py "description")
                 (Some (JStr (py "Did X"))))
    by (apply B3; [discriminate | discriminate | exact A5]).
  destruct (H2 _ _ C3 C4) as (D1 & D2 & D3).
  assert (E1 : Specification.holds e2 (py "role") (Some (JStr (py "Engineer"))))
    by (apply D3; [discriminate | discriminate | exact B1]).
  assert (E2 : Specification.holds e2 (py "title") None)
    by (apply D3; [discriminate | discriminate | exact B2]).
  assert (E5 : Specification.holds e2 (py "description")
                 (Some (JStr (py "Did X"))))
    by (apply D3; [discriminate | discriminate | exact C5]).
  destruct (H3 _ E5) as (F1 & F2).
  exists data', resume', entry'.
  split; [exact Hrun|]. split; [exact Hres|].
  split; [apply Hout; [discriminate | exact Hlog]|].
  split; [exact Hitems|].
  split; [apply F2; [discriminate | exact E1]|].
  split; [apply F2; [discriminate | exact D1]|].
  split; [exact F1|].
  split; [apply F2; [discriminate | exact E2]|].
  apply F2; [discriminate | exact D2].
Defined.

(** The example of the specification; the keys come out in another
    order, which dicts do not tell apart. *)
Example normalize_experience_example :
  normalize_experience example_entry
  = [(py "description", JArr [jstr "Did X"]); (py "role", jstr "Engineer");
     (py "organization", jstr "Acme")]
  /\ _normalize_schema
       (JObj [(k_resume, JObj [(py "experience", JArr [JObj example_entry])])])
     = Ok (JObj [(k_resume,
                  JObj [(py "experience",
                         JArr [JObj (normalize_experience example_entry)])])])
  /\ normalize_experience example_both = example_both
  /\ normalize_education
       [(k_school, jstr "MIT"); (k_university, jstr "Harvard")]
     = [(k_university, jstr "Harvard"); (k_institution, jstr "MIT")].
Proof. repeat split. Qed.

End ReconcilerFacts.

(* ================================================================= *)
(** ** Response recovery *)

Module RecoveryFacts.
Import Json Schema LLMService PyFacts.

Lemma repair_step (json_loads : str -> option json) (content marker : str)
    (rest : list str) :
  repair_loop json_loads content (marker :: rest)
  = match try_anchor json_loads content marker with
    | Some parsed => Ok parsed
    | None => repair_loop json_loads content rest
    end.
Proof.
  simpl. unfold try_anchor, candidate_at, end_of.
  destruct (find content marker) as [i|]; [|reflexivity].
  destruct (rfind_char content RBRACE) as [j|]; [|reflexivity].
  change (i <? S j)%nat with (i <=? j)%nat.
  destruct (i <=? j)%nat; [|reflexivity].
  destruct (slice content i (S j)) as [|d l]; simpl; [reflexivity|].
  now destruct (d =? LBRACE).
Qed.

Lemma repair_is_in_order (json_loads : str -> option json) (content : str) :
  _attempt_json_repair json_loads content = repair_in_order json_loads content.
Proof.
  unfold _attempt_json_repair, markers, repair_in_order.
  now rewrite !repair_step.
Qed.

Lemma repair_error (json_loads : str -> option json) (content : str) (e : error) :
  repair_in_order json_loads content = Err e -> e = ResponseRecoveryError.
Proof.
  unfold repair_in_order.
  repeat match goal with
         | |- context [try_anchor ?l ?c ?a] => destruct (try_anchor l c a)
         end; congruence.
Qed.

(** With a data source, [structure_resume] asks the model and parses
    the answer with the fences taken off. *)
Lemma structure_resume_result
    (json_loads : str -> option json) (validate_email : str -> option str)
    (isprintable : char -> bool) (repr : json -> str)
    (prompt_file : option str) (default_prompt : str)
    (complete : str -> str -> result str str)
    (resume_text : option str) (github_data : option dict)
    (instructions : option str) (settings_ : option StructuringSettings)
    (self : service) :
  truthy_text resume_text || truthy_dict github_data = true ->
  fst (structure_resume json_loads validate_email isprintable repr prompt_file
         default_prompt complete resume_text github_data
         instructions settings_ self)
  = match _build_user_prompt isprintable repr resume_text github_data
            instructions settings_ with
    | Err e => Err (PromptError e)
    | Ok user_prompt =>
        match complete
                (fst (_load_system_prompt prompt_file default_prompt self))
                user_prompt with
        | Ok raw =>
            fst (_parse_response json_loads validate_email (clean_content raw))
        | Err message => Err (LLMApiError message)
        end
    end.
Proof.
  intros H. unfold structure_resume.
  rewrite <- negb_orb, H. simpl negb. cbv iota.
  unfold _load_system_prompt.
  destruct self as [cache calls lg]. simpl.
  destruct (_build_user_prompt isprintable repr resume_text github_data
              instructions settings_) as [user_prompt|e];
    destruct cache as [p|]; simpl; try reflexivity;
    match goal with
    | |- context [complete ?a ?b] => destruct (complete a b) as [raw|m]
    end; try reflexivity;
    now destruct (_parse_response json_loads validate_email (clean_content raw)).
Qed.

(** *** The code against the specification's words *)

Lemma isspace_blank (c : char) : isspace c = true <-> Specification.blank c.
Proof.
  unfold isspace, Specification.blank.
  rewrite !orb_true_iff, !andb_true_iff, !N.leb_le, !N.eqb_eq. tauto.
Qed.

Lemma lstrip_parts (s : str) :
  exists l, s = l ++ lstrip s /\ Forall Specification.blank l
            /\ forall c t, lstrip s = c :: t -> ~ Specification.blank c.
Proof.
  induction s as [|c s (l & Hs & Hl & Hn)]; simpl.
  - exists []. split; [reflexivity|]. split; [constructor | discriminate].
  - destruct (isspace c) eqn:E.
    + exists (c :: l). split; [simpl; now rewrite <- Hs|].
      split; [constructor; [now apply isspace_blank | exact Hl] | exact Hn].
    + exists []. split; [reflexivity|]. split; [constructor|].
      intros c' t H Hb. injection H as <- _.
      apply isspace_blank in Hb. congruence.
Qed.

Lemma lstrip_blanks (l t : str) :
  Forall Specification.blank l -> lstrip (l ++ t) = lstrip t.
Proof.
  induction 1 as [|c l Hc _ IH]; simpl; [reflexivity|].
  apply isspace_blank in Hc. now rewrite Hc.
Qed.

Lemma lstrip_keeps (s : str) :
  (forall c t, s = c :: t -> ~ Specification.blank c) -> lstrip s = s.
Proof.
  destruct s as [|c t]; [reflexivity|]. intros H. simpl.
  destruct (isspace c) eqn:E; [|reflexivity].
  apply isspace_blank in E. now elim (H c t eq_refl).
Qed.

Lemma strip_trimmed (s : str) : Specification.trimmed s (strip s).
Proof.
  unfold Specification.trimmed, strip, rstrip.
  destruct (lstrip_parts s) as (l & Hs & Hl & Hn).
  destruct (lstrip_parts (rev (lstrip s))) as (r & Hr & Hbr & Hnr).
  assert (Hm : lstrip s = rev (lstrip (rev (lstrip s))) ++ rev r).
  { rewrite <- rev_app_distr, <- Hr. now rewrite rev_involutive. }
  exists l, (rev r). split; [now rewrite <- Hm|].
  split; [exact Hl|]. split; [now apply Forall_rev|]. split.
  - intros c t' Ht. apply (Hn c (t' ++ rev r)). now rewrite Hm, Ht.
  - intros c t' Ht. apply (Hnr c (rev t')).
    rewrite <- (rev_involutive (lstrip (rev (lstrip s)))), Ht.
    now rewrite rev_app_distr.
Qed.

Lemma trimmed_strip (s t : str) : Specification.trimmed s t -> t = strip s.
Proof.
  intros (l & r & -> & Hl & Hr & Hfirst & Hlast).
  unfold strip, rstrip. rewrite lstrip_blanks by exact Hl.
  destruct t as [|c t'].
  - simpl. rewrite <- (app_nil_r r), lstrip_blanks by exact Hr. reflexivity.
  - rewrite (lstrip_keeps ((c :: t') ++ r))
      by (intros c0 t0 H; simpl in H; injection H as <- _;
          exact (Hfirst c t' eq_refl)).
    rewrite rev_app_distr, lstrip_blanks by now apply Forall_rev.
    rewrite lstrip_keeps; [now rewrite rev_involutive|].
    intros c0 t0 H. apply (Hlast c0 (rev t0)).
    rewrite <- (rev_involutive (c :: t')), H. reflexivity.
Qed.

Lemma skipn_prefix {A} (p rest : list A) :
  skipn (List.length p) (p ++ rest) = rest.
Proof. induction p as [|x p IH]; simpl; [reflexivity | exact IH]. Qed.

Lemma firstn_suffix {A} (t p : list A) :
  firstn (List.length (t ++ p) - List.length p) (t ++ p) = t.
Proof.
  rewrite length_app.
  replace (List.length t + List.length p - List.length p)%nat
    with (List.length t + 0)%nat by lia.
  rewrite firstn_app_2. simpl. apply app_nil_r.
Qed.

Lemma endswith_split (s p : str) :
  endswith s p = true <-> exists rest, s = rest ++ p.
Proof.
  unfold endswith. split.
  - intros H. apply startswith_split in H as [rest H]. exists (rev rest).
    apply (f_equal (@rev char)) in H.
    now rewrite rev_involutive, rev_app_distr, rev_involutive in H.
  - intros [rest ->]. rewrite rev_app_distr. apply startswith_app.
Qed.

Lemma without_prefix_code (p s t : str) :
  Specification.without_prefix p s t
  <-> t = if startswith s p then skipn (List.length p) s else s.
Proof.
  unfold Specification.without_prefix. split.
  - intros [-> | [Hn ->]].
    + now rewrite startswith_app, skipn_prefix.
    + destruct (startswith s p) eqn:E; [|reflexivity].
      apply startswith_split in E as [rest E]. now elim (Hn rest).
  - intros ->. destruct (startswith s p) eqn:E.
    + left. apply startswith_split in E as [rest ->].
      now rewrite skipn_prefix.
    + right. split; [|reflexivity]. intros rest ->.
      now rewrite startswith_app in E.
Qed.

Lemma without_suffix_code (p s t : str) :
  Specification.without_suffix p s t
  <-> t = if endswith s p
          then firstn (List.length s - List.length p) s else s.
Proof.
  unfold Specification.without_suffix. split.
  - intros [-> | [Hn ->]].
    + rewrite (proj2 (endswith_split (t ++ p) p)) by eauto.
      now rewrite firstn_suffix.
    + destruct (endswith s p) eqn:E; [|reflexivity].
      apply endswith_split in E as [rest E]. now elim (Hn rest).
  - intros ->. destruct (endswith s p) eqn:E.
    + left. apply endswith_split in E as [rest ->].
      now rewrite firstn_suffix.
    + right. split; [|reflexivity]. intros rest ->.
      rewrite (proj2 (endswith_split _ _)) in E by eauto. discriminate.
Qed.

Lemma clean_content_unfenced (raw clean : str) :
  Specification.unfenced raw clean <-> clean = clean_content raw.
Proof.
  unfold Specification.unfenced, clean_content. split.
  - intros (a & b & c & Ha & Hb & Hc & Hclean).
    apply trimmed_strip in Ha. subst a.
    apply without_prefix_code in Hb. subst b.
    apply without_suffix_code in Hc. subst c.
    apply trimmed_strip in Hclean. subst clean. reflexivity.
  - intros ->. eexists _, _, _. split; [apply strip_trimmed|].
    split; [apply without_prefix_code; reflexivity|].
    split; [apply without_suffix_code; reflexivity|]. apply strip_trimmed.
Qed.

(** [find] gives the first place where the pattern stands, and
    [rfind] the last. *)
Lemma find_here (s p : str) : startswith s p = true -> find s p = Some O.
Proof. destruct s; simpl; intros ->; reflexivity. Qed.

Lemma find_later (c : char) (s p : str) :
  startswith (c :: s) p = false ->
  find (c :: s) p = option_map S (find s p).
Proof. simpl. now intros ->. Qed.

Lemma find_first (s p : str) (i : nat) :
  find s p = Some i
  <-> exists b r, s = b ++ p ++ r /\ List.length b = i
                  /\ forall b' r', s = b' ++ p ++ r' ->
                                   (i <= List.length b')%nat.
Proof.
  assert (Hhere : forall s i, startswith s p = true ->
            (find s p = Some i
             <-> exists b r, s = b ++ p ++ r /\ List.length b = i
                             /\ forall b' r', s = b' ++ p ++ r' ->
                                              (i <= List.length b')%nat)).
  { clear s i. intros s i E. rewrite (find_here _ _ E).
    apply startswith_split in E as [rest E]. split.
    - intros H. injection H as <-. exists [], rest.
      split; [exact E|]. split; [reflexivity|]. intros; lia.
    - intros (b & r & _ & _ & Hmin). specialize (Hmin [] rest E).
      simpl in Hmin. f_equal. lia. }
  revert i. induction s as [|c s IH]; intros i.
  - destruct (startswith [] p) eqn:E; [now apply Hhere|].
    simpl. rewrite E. split; [discriminate|].
    intros (b & r & Hs & _). destruct b; [|discriminate].
    destruct p; [discriminate E | discriminate Hs].
  - destruct (startswith (c :: s) p) eqn:E; [now apply Hhere|].
    rewrite (find_later _ _ _ E). split.
    + destruct (find s p) as [i'|] eqn:F; [|discriminate].
      intros H. injection H as <-.
      destruct (proj1 (IH i') eq_refl) as (b & r & -> & Hl & Hmin).
      exists (c :: b), r. split; [reflexivity|].
      split; [simpl; now rewrite Hl|].
      intros [|c' b'] r' H.
      * simpl in H. rewrite H, startswith_app in E. discriminate.
      * simpl in H. injection H as _ H. specialize (Hmin b' r' H).
        simpl. lia.
    + intros (b & r & Hs & Hl & Hmin). destruct b as [|c' b].
      * simpl in Hs. rewrite Hs, startswith_app in E. discriminate.
      * simpl in Hs. injection Hs as <- Hs.
        assert (F : find s p = Some (List.length b)).
        { apply IH. exists b, r. split; [exact Hs|]. split; [reflexivity|].
          intros b' r' H. specialize (Hmin (c :: b') r').
          simpl in Hmin, Hl. rewrite H in Hmin. specialize (Hmin eq_refl).
          lia. }
        rewrite F. simpl. now rewrite <- Hl.
Qed.

Lemma rfind_absent (s : str) (c : char) :
  rfind_char s c = None <-> ~ In c s.
Proof.
  induction s as [|d s IH]; simpl; [tauto|].
  destruct (rfind_char s c) as [i|].
  - split; [discriminate|]. intros H.
    destruct (in_dec N.eq_dec c s) as [Hin|Hn].
    + elim H. now right.
    + discriminate (proj2 IH Hn).
  - destruct (d =? c) eqn:E.
    + apply N.eqb_eq in E. split; [discriminate|].
      intros H. elim H. now left.
    + apply N.eqb_neq in E. split; [|reflexivity].
      intros _ [H|H]; [congruence|]. now apply (proj1 IH).
Qed.

Lemma rfind_last (s : str) (c : char) (j : nat) :
  rfind_char s c = Some j
  <-> exists u a, s = u ++ c :: a /\ List.length u = j /\ ~ In c a.
Proof.
  revert j. induction s as [|d s IH]; intros j; simpl.
  - split; [discriminate|]. intros (u & a & H & _). destruct u; discriminate.
  - destruct (rfind_char s c) as [i|] eqn:F.
    + split.
      * intros H. injection H as <-.
        destruct (proj1 (IH i) eq_refl) as (u & a & -> & Hl & Hn).
        exists (d :: u), a. simpl. rewrite Hl. auto.
      * intros (u & a & Hs & Hl & Hn). destruct u as [|d' u]; simpl in Hs.
        -- injection Hs as _ ->. apply rfind_absent in Hn. congruence.
        -- injection Hs as _ ->.
           assert (H : Some i = Some (List.length u))
             by (apply IH; exists u, a; auto).
           simpl in Hl. congruence.
    + destruct (d =? c) eqn:E.
      * apply N.eqb_eq in E. subst d. split.
        -- intros H. injection H as <-. exists [], s.
           split; [reflexivity|]. split; [reflexivity|].
           now apply rfind_absent.
        -- intros (u & a & Hs & Hl & Hn). destruct u as [|d' u].
           ++ simpl in Hl. now subst j.
           ++ simpl in Hs. injection Hs as _ ->. apply rfind_absent in F.
              elim F. apply in_or_app. right. now left.
      * apply N.eqb_neq in E. split; [discriminate|].
        intros (u & a & Hs & Hl & Hn). destruct u as [|d' u]; simpl in Hs.
        -- injection Hs as -> _. congruence.
        -- injection Hs as _ ->. apply rfind_absent in F.
           elim F. apply in_or_app. right. now left.
Qed.

Lemma slice_middle (b m a : str) :
  slice (b ++ m ++ a) (List.length b) (List.length b + List.length m) = m.
Proof.
  unfold slice. rewrite skipn_prefix.
  replace (List.length b + List.length m - List.length b)%nat
    with (List.length m + 0)%nat by lia.
  rewrite firstn_app_2. simpl. apply app_nil_r.
Qed.

Lemma starts_with_brace (s : str) :
  startswith s [LBRACE] = true <-> exists rest, s = 123 :: rest.
Proof.
  split.
  - intros H. apply startswith_split in H as [rest ->]. now exists rest.
  - intros [rest ->]. reflexivity.
Qed.

Lemma candidate_at_of (content anchor candidate : str) :
  candidate_at content anchor = Some candidate ->
  Specification.candidate_of content anchor candidate.
Proof.
  unfold candidate_at.
  destruct (find content anchor) as [i|] eqn:F; [|discriminate].
  destruct (rfind_char content RBRACE) as [j|] eqn:R; [|discriminate].
  destruct (i <=? j)%nat eqn:L; [|discriminate].
  apply Nat.leb_le in L.
  apply find_first in F as (b & r & Hc & Hb & Hmin).
  apply rfind_last in R as (u & a & Hu & Hj & Hn).
  assert (Hinner : exists inner,
             u = b ++ inner /\ anchor ++ r = inner ++ RBRACE :: a).
  { rewrite Hc in Hu. apply app_eq_app in Hu as [l [[H1 H2]|[H1 H2]]].
    - assert (Hl : l = []).
      { apply (f_equal (@List.length char)) in H1.
        rewrite length_app in H1. destruct l; [reflexivity | simpl in H1; lia]. }
      subst l. rewrite app_nil_r in H1. exists [].
      split; [now rewrite app_nil_r | now simpl in *].
    - exists l. auto. }
  destruct Hinner as (inner & -> & Hi).
  assert (Hslice : slice content i (S j) = inner ++ [RBRACE]).
  { rewrite Hu.
    replace ((b ++ inner) ++ RBRACE :: a) with (b ++ (inner ++ [RBRACE]) ++ a)
      by (now rewrite <- !app_assoc).
    replace (S j) with (List.length b + List.length (inner ++ [RBRACE]))%nat
      by (rewrite <- Hj, !length_app; simpl; lia).
    rewrite <- Hb. apply slice_middle. }
  cbv zeta. rewrite Hslice.
  assert (Hparts :
            content = b ++ (inner ++ [RBRACE]) ++ a
            /\ (exists rest, (inner ++ [RBRACE]) ++ a = anchor ++ rest)
            /\ (forall before' rest', content = before' ++ anchor ++ rest' ->
                   (List.length b <= List.length before')%nat)
            /\ (exists inner0, inner ++ [RBRACE] = inner0 ++ [125])
            /\ ~ In 125 a).
  { split; [rewrite Hu; now rewrite <- !app_assoc|].
    split; [exists r; rewrite Hi; now rewrite <- app_assoc|].
    split; [intros b' r' H; rewrite Hb; now apply (Hmin b' r')|].
    split; [now exists inner | exact Hn]. }
  destruct Hparts as (P1 & P2 & P3 & P4 & P5).
  destruct (startswith (inner ++ [RBRACE]) [LBRACE]) eqn:E;
    intros H; injection H as <-;
    exists b, (inner ++ [RBRACE]), a;
    (split; [exact P1|]); (split; [exact P2|]); (split; [exact P3|]);
    (split; [exact P4|]); (split; [exact P5|]).
  - left. split; [now apply starts_with_brace | reflexivity].
  - right. split; [|reflexivity]. intros rest H.
    rewrite (proj2 (starts_with_brace _)) in E by eauto. discriminate.
Qed.

Lemma candidate_of_at (content anchor candidate : str) :
  Specification.candidate_of content anchor candidate ->
  candidate_at content anchor = Some candidate.
Proof.
  intros (before & sub & after & Hc & [rest Hr] & Hmin & [inner Hi] & Hn
          & Hcand).
  unfold candidate_at.
  assert (F : find content anchor = Some (List.length before)).
  { apply find_first. exists before, rest.
    split; [now rewrite Hc, Hr|]. split; [reflexivity | exact Hmin]. }
  assert (R : rfind_char content RBRACE
              = Some (List.length (before ++ inner))).
  { apply rfind_last. exists (before ++ inner), after.
    split; [|split; [reflexivity | exact Hn]].
    rewrite Hc, Hi. now rewrite <- !app_assoc. }
  rewrite F, R.
  assert (L : (List.length before <=? List.length (before ++ inner))%nat = true)
    by (apply Nat.leb_le; rewrite length_app; lia).
  rewrite L. cbv zeta.
  assert (Hslice : slice content (List.length before)
                     (S (List.length (before ++ inner))) = sub).
  { rewrite Hc.
    replace (S (List.length (before ++ inner)))
      with (List.length before + List.length sub)%nat
      by (rewrite Hi, !length_app; simpl; lia).
    apply slice_middle. }
  rewrite Hslice. f_equal.
  destruct Hcand as [[Hs ->] | [Hno ->]].
  - now rewrite (proj2 (starts_with_brace sub) Hs).
  - destruct (startswith sub [LBRACE]) eqn:E; [|reflexivity].
    apply starts_with_brace in E as [rest' E]. now elim (Hno rest').
Qed.

Lemma attempt_try_anchor (json_loads : str -> option json)
    (content anchor : str) (outcome : option json) :
  Specification.attempt json_loads content anchor outcome
  <-> outcome = try_anchor json_loads content anchor.
Proof.
  unfold Specification.attempt, try_anchor. split.
  - intros [(cand & Hc & ->) | [Hno ->]].
    + now rewrite (candidate_of_at _ _ _ Hc).
    + destruct (candidate_at content anchor) as [cand|] eqn:E; [|reflexivity].
      apply candidate_at_of in E. now elim (Hno cand).
  - intros ->. destruct (candidate_at content anchor) as [cand|] eqn:E.
    + left. exists cand. split; [now apply candidate_at_of | reflexivity].
    + right. split; [|reflexivity]. intros cand H.
      apply candidate_of_at in H. congruence.
Qed.

(** C3: the order of recovery.  Each of the three anchors (an opening
    brace before the quoted word and a colon, the quoted word and a
    colon, an opening brace) yields at most one candidate: the text
    from the first place where the anchor stands to the last closing
    brace, with an opening brace put in front unless it starts with
    one.  The repair returns what the decoder makes of the first
    candidate, in the order of the anchors, that it takes, and fails
    with the recovery error when it takes none; [_parse_response]
    decodes the text as it is first and repairs only when that fails;
    and [structure_resume] hands it the model's answer without the
    white space around it, without an opening fence (three backticks
    and the word json) in front and a closing fence (three backticks)
    at the end, each where it is there, and without the white space
    that is left around it then. *)
Theorem recovery_order
    (json_loads : str -> option json) (validate_email : str -> option str)
    (content : str) :
  (exists r1 r2 r3,
     Specification.attempt json_loads content Specification.first_anchor r1
     /\ Specification.attempt json_loads content Specification.second_anchor r2
     /\ Specification.attempt json_loads content Specification.third_anchor r3)
  /\ (forall r1 r2 r3,
        Specification.attempt json_loads content Specification.first_anchor r1 ->
        Specification.attempt json_loads content Specification.second_anchor r2 ->
        Specification.attempt json_loads content Specification.third_anchor r3 ->
        _attempt_json_repair json_loads content
        = match Specification.first_of r1 r2 r3 with
          | Some parsed => Ok parsed
          | None => Err ResponseRecoveryError
          end
        /\ _parse_response json_loads validate_email content
           = match json_loads content with
             | Some parsed => validate_parsed validate_email parsed
             | None =>
                 match Specification.first_of r1 r2 r3 with
                 | Some parsed =>
                     (fst (validate_parsed validate_email parsed),
                      attempting_json_repair
                        :: snd (validate_parsed validate_email parsed))
                 | None =>
                     (Err ResponseRecoveryError,
                      [attempting_json_repair; json_parse_failed])
                 end
             end)
  /\ (forall raw clean,
        Specification.unfenced raw clean <-> clean = clean_content raw)
  /\ (forall isprintable repr prompt_file default_prompt
             (complete : str -> str -> result str str)
             resume_text github_data instructions settings_ self,
        truthy_text resume_text || truthy_dict github_data = true ->
        match _build_user_prompt isprintable repr resume_text github_data
                instructions settings_ with
        | Err e =>
            fst (structure_resume json_loads validate_email isprintable repr
                   prompt_file default_prompt complete resume_text github_data
                   instructions settings_ self)
            = Err (PromptError e)
        | Ok user_prompt =>
            match complete
                    (fst (_load_system_prompt prompt_file default_prompt self))
                    user_prompt with
            | Err message =>
                fst (structure_resume json_loads validate_email isprintable
                       repr prompt_file default_prompt complete resume_text
                       github_data instructions settings_ self)
                = Err (LLMApiError message)
            | Ok raw =>
                forall clean,
                  Specification.unfenced raw clean ->
                  fst (structure_resume json_loads validate_email isprintable
                         repr prompt_file default_prompt complete resume_text
                         github_data instructions settings_ self)
                  = fst (_parse_response json_loads validate_email clean)
            end
        end).
Proof.
  split; [|split; [|split]].
  - exists (try_anchor json_loads content anchor_1),
      (try_anchor json_loads content anchor_2),
      (try_anchor json_loads content anchor_3).
    split; [|split]; now apply attempt_try_anchor.
  - intros r1 r2 r3 H1 H2 H3.
    apply attempt_try_anchor in H1, H2, H3. subst r1 r2 r3.
    change Specification.first_anchor with anchor_1.
    change Specification.second_anchor with anchor_2.
    change Specification.third_anchor with anchor_3.
    assert (Hrepair : _attempt_json_repair json_loads content
                      = match Specification.first_of
                                (try_anchor json_loads content anchor_1)
                                (try_anchor json_loads content anchor_2)
                                (try_anchor json_loads content anchor_3) with
                        | Some parsed => Ok parsed
                        | None => Err ResponseRecoveryError
                        end).
    { rewrite repair_is_in_order. unfold repair_in_order, Specification.first_of.
      destruct (try_anchor json_loads content anchor_1); [reflexivity|].
      destruct (try_anchor json_loads content anchor_2); [reflexivity|].
      now destruct (try_anchor json_loads content anchor_3). }
    split; [exact Hrepair|].
    unfold _parse_response. destruct (json_loads content); [reflexivity|].
    rewrite Hrepair.
    destruct (Specification.first_of _ _ _) as [parsed|]; [|reflexivity].
    now destruct (validate_parsed validate_email parsed).
  - apply clean_content_unfenced.
  - intros isprintable repr prompt_file default_prompt complete resume_text
      github_data instructions settings_ self H.
    rewrite structure_resume_result by exact H.
    destruct (_build_user_prompt isprintable repr resume_text github_data
                instructions settings_) as [user_prompt|e]; [|reflexivity].
    destruct (complete _ user_prompt) as [raw|message]; [|reflexivity].
    intros clean Hc. apply clean_content_unfenced in Hc. now subst clean.
Qed.

(** The example of the specification: prose, the object, more prose.
    Every anchor yields the object, the first one by its own text,
    and the repair returns it; the fences come off where they are. *)
Lemma recovery_order_witness :
  let object :=
    JObj [(py "structured_resume", JObj [(py "contact", JObj [])])] in
  Specification.attempt Specification.payload_loads Specification.recovery_raw
    Specification.first_anchor (Some object)
  /\ Specification.attempt Specification.payload_loads
       Specification.recovery_raw Specification.second_anchor (Some object)
  /\ Specification.attempt Specification.payload_loads
       Specification.recovery_raw Specification.third_anchor (Some object)
  /\ _attempt_json_repair Specification.payload_loads Specification.recovery_raw
     = Ok object
  /\ fst (_parse_response Specification.payload_loads any_email
            Specification.recovery_raw)
     = Ok (empty_resume, [])
  /\ Specification.unfenced Specification.fenced_raw
       Specification.recovery_payload
  /\ Specification.unfenced
       (Specification.opening_fence ++ Specification.recovery_payload)
       Specification.recovery_payload
  /\ Specification.unfenced
       (Specification.recovery_payload ++ [10] ++ Specification.closing_fence)
       Specification.recovery_payload
  /\ Specification.unfenced Specification.recovery_raw
       Specification.recovery_raw.
Proof.
  intros object.
  pose proof (recovery_order Specification.payload_loads any_email
                Specification.recovery_raw) as (_ & Horder & Hfence & _).
  assert (H1 : Specification.attempt Specification.payload_loads
                 Specification.recovery_raw Specification.first_anchor
                 (Some object))
    by (apply attempt_try_anchor; reflexivity).
  assert (H2 : Specification.attempt Specification.payload_loads
                 Specification.recovery_raw Specification.second_anchor
                 (Some object))
    by (apply attempt_try_anchor; reflexivity).
  assert (H3 : Specification.attempt Specification.payload_loads
                 Specification.recovery_raw Specification.third_anchor
                 (Some object))
    by (apply attempt_try_anchor; reflexivity).
  destruct (Horder _ _ _ H1 H2 H3) as [Hrepair Hparse].
  split; [exact H1|]. split; [exact H2|]. split; [exact H3|].
  split; [exact Hrepair|]. split; [now rewrite Hparse|].
  split; [apply Hfence; reflexivity|].
  split; [apply Hfence; reflexivity|].
  split; [apply Hfence; reflexivity | apply Hfence; reflexivity].
Defined.

Example recovery_example :
  example_loads example_raw = None
  /\ candidate_at example_raw anchor_1 = Some example_payload
  /\ _attempt_json_repair example_loads example_raw = Ok example_object
  /\ _parse_response example_loads any_email example_raw
     = (Ok (empty_resume, []), [attempting_json_repair])
  /\ _parse_response example_loads any_email (py "no json here")
     = (Err ResponseRecoveryError, [attempting_json_repair; json_parse_failed]).
Proof. repeat split. Qed.

End RecoveryFacts.

(* ================================================================= *)
(** ** Schema validation *)

Module ValidatorFacts.
Import Json Schema LLMService DictFacts.

Lemma decision_log_loop_valid (entries : list json) :
  fst (decision_log_loop entries) = valid_entries entries.
Proof.
  induction entries as [|entry rest IH]; [reflexivity|]. simpl.
  destruct (decision_log_loop rest) as [decision_log warnings].
  simpl in IH. rewrite <- IH.
  now destruct (as_model new_DecisionLogEntry entry).
Qed.

Lemma decision_log_loop_warns (entries : list json) (bad : json) :
  as_model new_DecisionLogEntry bad = None ->
  In bad entries ->
  In (invalid_decision_entry bad) (snd (decision_log_loop entries)).
Proof.
  intros Hbad. induction entries as [|entry rest IH]; [tauto|].
  intros Hin. simpl.
  destruct (decision_log_loop rest) as [decision_log warnings].
  simpl in IH. destruct Hin as [->|Hin].
  - rewrite Hbad. now left.
  - destruct (as_model new_DecisionLogEntry entry); simpl; auto.
Qed.

Lemma valid_entries_drop (l1 l2 : list json) (bad : json) :
  as_model new_DecisionLogEntry bad = None ->
  valid_entries (l1 ++ bad :: l2) = valid_entries (l1 ++ l2).
Proof.
  intros Hbad. unfold valid_entries.
  rewrite !flat_map_app. simpl. now rewrite Hbad.
Qed.

(** The validating block, on a response whose decision log is a list:
    the resume decides between failure and success, the log only
    what is returned beside it. *)
Lemma validate_parsed_with_log (validate_email : str -> option str)
    (d : dict) (entries : list json) :
  let r := validate_parsed validate_email (with_decision_log d entries) in
  match validated_resume validate_email (JObj d) with
  | Some resume =>
      r = (Ok (resume, valid_entries entries), snd (decision_log_loop entries))
  | None => fst r = Err SchemaValidationError
  end.
Proof.
  unfold with_decision_log, validated_resume, validate_parsed, _normalize_schema.
  set (D := dict_set (py "decision_log") (JArr entries) d).
  assert (Hsr : dict_get (py "structured_resume") D
                = dict_get (py "structured_resume") d)
    by (apply dict_get_set_other; discriminate).
  assert (Hdl : dict_get (py "decision_log") D = Some (JArr entries))
    by apply dict_get_set_same.
  rewrite Hsr.
  set (resume := match dict_get (py "structured_resume") d with
                 | Some r => r
                 | None => JObj []
                 end).
  destruct (negb (truthy resume)) eqn:Et.
  - rewrite Hsr. fold resume.
    destruct (as_model (new_CanonicalResume validate_email) resume);
      [|reflexivity].
    rewrite Hdl. simpl iterate. cbv iota.
    rewrite <- decision_log_loop_valid.
    now destruct (decision_log_loop entries).
  - destruct resume as [| | | | |items|r]; try reflexivity.
    rewrite !dict_get_set_same.
    destruct (as_model (new_CanonicalResume validate_email)
                (JObj (normalize_resume r))); [|reflexivity].
    rewrite dict_get_set_other by discriminate.
    rewrite Hdl. simpl iterate. cbv iota.
    rewrite <- decision_log_loop_valid.
    now destruct (decision_log_loop entries).
Qed.

(** The same for any dict: whatever the decision log is, a list, a
    dict or a string, what it yields is validated item by item. *)
Lemma validate_parsed_any_log (validate_email : str -> option str) (d : dict)
    (resume : Schema.CanonicalResume) (entries : list json) :
  validated_resume validate_email (JObj d) = Some resume ->
  iterate (match dict_get (py "decision_log") d with
           | Some l => l
           | None => JArr []
           end) = Ok entries ->
  validate_parsed validate_email (JObj d)
  = (Ok (resume, valid_entries entries), snd (decision_log_loop entries)).
Proof.
  unfold validated_resume, validate_parsed, _normalize_schema.
  set (r0 := match dict_get (py "structured_resume") d with
             | Some r => r
             | None => JObj []
             end).
  destruct (negb (truthy r0)) eqn:Et.
  - fold r0. intros -> ->. rewrite <- decision_log_loop_valid.
    now destruct (decision_log_loop entries).
  - destruct r0 as [| | | | |items|r]; try discriminate.
    rewrite !dict_get_set_same. intros ->.
    rewrite dict_get_set_other by discriminate. intros ->.
    rewrite <- decision_log_loop_valid.
    now destruct (decision_log_loop entries).
Qed.

Lemma validate_parsed_strict (validate_email : str -> option str)
    (parsed : json) :
  validated_resume validate_email parsed = None ->
  exists payload,
    validate_parsed validate_email parsed
    = (Err SchemaValidationError, [schema_validation_error payload]).
Proof.
  unfold validated_resume, validate_parsed.
  destruct (_normalize_schema parsed) as [[| | | | | |d]|e]; eauto.
  intros H. rewrite H. eauto.
Qed.

(** C1: the asymmetry.  A response whose resume does not validate
    fails as a whole, with the schema validation error.  An entry of
    the decision log that does not validate is dropped: the request
    gives the same result, resume and entries, with it or without it,
    never fails because of it, returns the valid entries in their
    order, and logs the warning. *)
Theorem decision_log_validation_is_lenient
    (validate_email : str -> option str) (d : dict)
    (l1 l2 : list json) (bad : json)
    (Hbad : as_model new_DecisionLogEntry bad = None) :
  let run entries :=
    validate_parsed validate_email (with_decision_log d entries) in
  fst (run (l1 ++ bad :: l2)) = fst (run (l1 ++ l2))
  /\ (forall resume, validated_resume validate_email (JObj d) = Some resume ->
        fst (run (l1 ++ bad :: l2)) = Ok (resume, valid_entries (l1 ++ l2))
        /\ In (invalid_decision_entry bad) (snd (run (l1 ++ bad :: l2))))
  /\ (forall parsed, validated_resume validate_email parsed = None ->
        exists payload,
          validate_parsed validate_email parsed
          = (Err SchemaValidationError, [schema_validation_error payload]))
  /\ (forall d' resume entries,
        validated_resume validate_email (JObj d') = Some resume ->
        iterate (match dict_get (py "decision_log") d' with
                 | Some l => l
                 | None => JArr []
                 end) = Ok entries ->
        validate_parsed validate_email (JObj d')
        = (Ok (resume, valid_entries entries),
           snd (decision_log_loop entries))).
Proof.
  intros run.
  pose proof (validate_parsed_with_log validate_email d (l1 ++ bad :: l2)) as Hb.
  pose proof (validate_parsed_with_log validate_email d (l1 ++ l2)) as Hg.
  cbv zeta in Hb, Hg. fold (run (l1 ++ bad :: l2)) in Hb.
  fold (run (l1 ++ l2)) in Hg.
  split; [|split; [|split]].
  - destruct (validated_resume validate_email (JObj d)).
    + rewrite Hb, Hg. simpl. now rewrite valid_entries_drop.
    + now rewrite Hb, Hg.
  - intros resume H. rewrite H in Hb. rewrite Hb. simpl. split.
    + now rewrite valid_entries_drop.
    + apply decision_log_loop_warns; [exact Hbad|].
      apply in_or_app. right. now left.
  - intros parsed. apply validate_parsed_strict.
  - intros d' resume entries. apply validate_parsed_any_log.
Qed.

(** The example of the specification: the entry with confidence
    "very high" goes, its neighbours and the resume stay. *)
Lemma decision_log_validation_is_lenient_witness :
  as_model new_DecisionLogEntry (example_decision "very high") = None
  /\ fst (validate_parsed any_email example_response)
     = fst (validate_parsed any_email
              (with_decision_log [(k_resume, JObj [(py "contact", JObj [])])]
                 [example_decision "high"; example_decision "LOW"])).
Proof.
  split; [reflexivity|].
  exact (proj1 (decision_log_validation_is_lenient any_email
                  [(k_resume, JObj [(py "contact", JObj [])])]
                  [example_decision "high"] [example_decision "LOW"]
                  (example_decision "very high") eq_refl)).
Defined.

Example validate_example :
  validate_parsed any_email example_response
  = (Ok (empty_resume,
         [mkDecisionLogEntry (py "projects") (py "included") [py "ResumeForge"]
            (py "recent") (py "github") (py "high");
          mkDecisionLogEntry (py "projects") (py "included") [py "ResumeForge"]
            (py "recent") (py "github") (py "low")]),
     [invalid_decision_entry (example_decision "very high")])
  /\ fst (validate_parsed any_email
            (JObj [(k_resume, JObj []);
                   (py "decision_log", JArr [example_decision "high"])]))
     = Err SchemaValidationError
  /\ fst (validate_parsed any_email
            (JObj [(k_resume, JObj [(py "contact", JObj [])]);
                   (py "decision_log", JNull)]))
     = Err SchemaValidationError.
Proof. repeat split. Qed.

End ValidatorFacts.

(* ================================================================= *)
(** ** The precondition of [structure_resume] *)

Module ServiceFacts.
Import Json Schema LLMService.

Section WithWorld.
Variable json_loads : str -> option json.
Variable validate_email : str -> option str.
Variable isprintable : char -> bool.
Variable repr : json -> str.
Variable prompt_file : option str.
Variable default_prompt : str.
Variable complete : str -> str -> result str str.

#[local] Abbreviation run :=
  (structure_resume json_loads validate_email isprintable repr prompt_file
     default_prompt complete).
#[local] Abbreviation build := (_build_user_prompt isprintable repr).

Lemma validate_parsed_error (parsed : json) (e : error) :
  fst (validate_parsed validate_email parsed) = Err e ->
  e = SchemaValidationError.
Proof.
  unfold validate_parsed.
  destruct (_normalize_schema parsed) as [[| | | | | |d]|x]; simpl;
    try congruence.
  destruct (as_model _ _); simpl; try congruence.
  destruct (iterate _); simpl; try congruence.
  destruct (decision_log_loop _). simpl. congruence.
Qed.

Lemma parse_response_error (content : str) (e : error) :
  fst (_parse_response json_loads validate_email content) = Err e ->
  e = ResponseRecoveryError \/ e = SchemaValidationError.
Proof.
  unfold _parse_response. destruct (json_loads content) as [parsed|].
  - intros H. right. now apply validate_parsed_error in H.
  - rewrite RecoveryFacts.repair_is_in_order.
    destruct (repair_in_order json_loads content) as [parsed|x] eqn:E.
    + pose proof (validate_parsed_error parsed e) as Hv.
      destruct (validate_parsed validate_email parsed). simpl in *. auto.
    + apply RecoveryFacts.repair_error in E. subst x. simpl.
      intros H. left. congruence.
Qed.

(** With a data source the precondition error is not what comes out. *)
Lemma structure_resume_passes_guard
    (resume_text : option str) (github_data : option dict)
    (instructions : option str) (settings_ : option StructuringSettings)
    (self : service) :
  truthy_text resume_text || truthy_dict github_data = true ->
  fst (run resume_text github_data instructions settings_ self)
  <> Err MissingDataSource.
Proof.
  intros H.
  rewrite (RecoveryFacts.structure_resume_result json_loads validate_email
             isprintable repr prompt_file default_prompt complete
             resume_text github_data instructions settings_ self H).
  destruct (build resume_text github_data instructions settings_)
    as [user_prompt|e]; [|discriminate].
  destruct (complete _ _) as [raw|m]; [|discriminate].
  intros Hp. apply parse_response_error in Hp as [Hp|Hp]; discriminate.
Qed.

(** C2: with neither resume text nor GitHub data the call fails with
    the precondition error and leaves the service as it was: no call
    to the model, no log record, no prompt loaded.  The precondition
    error is the outcome exactly when no data source is given, and
    then nothing has happened. *)
Theorem structure_resume_requires_a_source
    (instructions : option str) (settings_ : option StructuringSettings)
    (self : service) :
  run None None instructions settings_ self = (Err MissingDataSource, self)
  /\ model_calls (snd (run None None instructions settings_ self))
     = model_calls self
  /\ (forall resume_text github_data,
        fst (run resume_text github_data instructions settings_ self)
        = Err MissingDataSource
        <-> truthy_text resume_text || truthy_dict github_data = false)
  /\ (forall resume_text github_data,
        fst (run resume_text github_data instructions settings_ self)
        = Err MissingDataSource ->
        snd (run resume_text github_data instructions settings_ self) = self).
Proof.
  assert (Hiff : forall resume_text github_data,
            fst (run resume_text github_data instructions settings_ self)
            = Err MissingDataSource
            <-> truthy_text resume_text || truthy_dict github_data = false).
  { intros resume_text github_data. split.
    - intros H.
      destruct (truthy_text resume_text || truthy_dict github_data) eqn:E;
        [|reflexivity].
      now apply structure_resume_passes_guard in H.
    - intros H. unfold structure_resume. now rewrite <- negb_orb, H. }
  repeat match goal with |- _ /\ _ => split end; try reflexivity.
  - apply Hiff.
  - intros resume_text github_data H. apply Hiff in H.
    unfold structure_resume. now rewrite <- negb_orb, H.
Qed.

(** C10: an empty resume text counts as none.  With the empty string
    for the resume and GitHub data that is absent or empty the call
    fails with the same precondition error, before any call to the
    model, just as with no resume text at all; a resume text of one
    character or more passes the guard. *)
Theorem structure_resume_empty_text_is_no_source
    (github_data : option dict) (instructions : option str)
    (settings_ : option StructuringSettings) (self : service)
    (Hgithub : github_data = None \/ github_data = Some []) :
  run (Some []) github_data instructions settings_ self
  = (Err MissingDataSource, self)
  /\ run (Some []) github_data instructions settings_ self
     = run None None instructions settings_ self
  /\ (forall c text,
        fst (run (Some (c :: text)) github_data instructions settings_ self)
        <> Err MissingDataSource).
Proof.
  split; [|split].
  - destruct Hgithub as [-> | ->]; reflexivity.
  - destruct Hgithub as [-> | ->]; reflexivity.
  - intros c text. now apply structure_resume_passes_guard.
Qed.

End WithWorld.

(** No resume text and an empty GitHub dict: the precondition error,
    and the service is as it was. *)
Lemma structure_resume_requires_a_source_witness :
  fst (structure_resume example_loads any_email Utils.ascii_isprintable no_repr
         None [] example_model None (Some []) None None fresh_service)
  = Err MissingDataSource
  /\ snd (structure_resume example_loads any_email Utils.ascii_isprintable
            no_repr None [] example_model None (Some []) None None
            fresh_service)
     = fresh_service.
Proof.
  split; [reflexivity|].
  exact (proj2 (proj2 (proj2
    (structure_resume_requires_a_source example_loads any_email
       Utils.ascii_isprintable no_repr None [] example_model None None
       fresh_service)))
    None (Some []) eq_refl).
Defined.

Lemma structure_resume_empty_text_is_no_source_witness :
  (@Some dict [] = None \/ @Some dict [] = Some [])
  /\ structure_resume example_loads any_email Utils.ascii_isprintable no_repr
       None [] example_model (Some []) (Some []) None None fresh_service
     = (Err MissingDataSource, fresh_service).
Proof.
  split; [now right|].
  exact (proj1 (structure_resume_empty_text_is_no_source example_loads any_email
                  Utils.ascii_isprintable no_repr None [] example_model
                  (Some []) None None fresh_service (or_intror eq_refl))).
Defined.

(** A call that has a source reaches the model, with the prompt built
    from it. *)
Example structure_resume_with_source :
  List.map fst
    (model_calls
       (snd (structure_resume example_loads any_email Utils.ascii_isprintable
               no_repr None [] example_model (Some (py "cv")) None None None
               fresh_service)))
  = [[]]
  /\ _build_user_prompt Utils.ascii_isprintable no_repr (Some (py "cv")) None
       None None
     = Ok (join [LF]
             [py "Please structure the following data into a canonical resume.";
              []; py "<unstructured_resume>"; py "cv";
              py "</unstructured_resume>"; []; py "<github_data>";
              py "Not provided"; py "</github_data>"; [];
              py "GOAL: Extract and normalize information from the tags above into the JSON schema.";
              py "RULES:"; py "1. Use only the provided information.";
              py "2. Include 5-8 most relevant projects."]).
Proof. split; reflexivity. Qed.

End ServiceFacts.

(* ================================================================= *)
(** ** More on strings: what [strip] leaves *)

Module StripFacts.
Import PyFacts.

Lemma lstrip_blank (s : str) : lstrip s = [] <-> has_nonspace s = false.
Proof.
  induction s as [|c s IH]; simpl; [tauto|].
  destruct (isspace c); simpl; [exact IH|].
  split; discriminate.
Qed.

Lemma truthy_lstrip (s : str) : truthy_str (lstrip s) = has_nonspace s.
Proof.
  destruct (lstrip s) eqn:E; destruct (has_nonspace s) eqn:H; try reflexivity.
  - apply lstrip_blank in E. congruence.
  - apply lstrip_blank in H. congruence.
Qed.

Lemma has_nonspace_lstrip (s : str) : has_nonspace (lstrip s) = has_nonspace s.
Proof.
  induction s as [|c s IH]; [reflexivity|]. simpl.
  destruct (isspace c) eqn:E; simpl; [exact IH | now rewrite E].
Qed.

Lemma has_nonspace_app (a b : str) :
  has_nonspace (a ++ b) = has_nonspace a || has_nonspace b.
Proof. apply existsb_app. Qed.

Lemma has_nonspace_rev (s : str) : has_nonspace (rev s) = has_nonspace s.
Proof.
  induction s as [|c s IH]; [reflexivity|]. simpl rev.
  rewrite has_nonspace_app, IH. simpl. now rewrite orb_false_r, orb_comm.
Qed.

Lemma truthy_rev (s : str) : truthy_str (rev s) = truthy_str s.
Proof.
  destruct s as [|c s]; [reflexivity|]. simpl.
  now destruct (rev s).
Qed.

(** [strip] leaves something exactly when there is a character that
    is not white space. *)
Lemma truthy_strip (s : str) : truthy_str (strip s) = has_nonspace s.
Proof.
  unfold strip, rstrip.
  now rewrite truthy_rev, truthy_lstrip, has_nonspace_rev, has_nonspace_lstrip.
Qed.

Lemma lstrip_head (s : str) (c : char) (r : str) :
  lstrip s = c :: r -> isspace c = false.
Proof.
  induction s as [|d s IH]; simpl; [discriminate|].
  destruct (isspace d) eqn:E; [exact IH|].
  intros H. now injection H as <- _.
Qed.

Lemma lstrip_idem (s : str) : lstrip (lstrip s) = lstrip s.
Proof.
  destruct (lstrip s) as [|c r] eqn:E; [reflexivity|].
  apply lstrip_head in E. simpl. now rewrite E.
Qed.

Lemma rstrip_prefix (s : str) : exists b, s = rstrip s ++ b.
Proof.
  unfold rstrip. destruct (lstrip_suffix (rev s)) as [a Ha].
  exists (rev a). rewrite <- rev_app_distr, <- Ha. now rewrite rev_involutive.
Qed.

Lemma strip_idem (s : str) : strip (strip s) = strip s.
Proof.
  unfold strip. set (u := lstrip s).
  assert (Hl : lstrip (rstrip u) = rstrip u).
  { destruct (rstrip u) as [|c r] eqn:E; [reflexivity|].
    destruct (rstrip_prefix u) as [b Hb]. rewrite E in Hb.
    assert (Hc : isspace c = false).
    { apply (lstrip_head s c (r ++ b)). fold u. exact Hb. }
    simpl. now rewrite Hc. }
  rewrite Hl. unfold rstrip. now rewrite rev_involutive, lstrip_idem.
Qed.

Lemma strip_length (s : str) : (List.length (strip s) <= List.length s)%nat.
Proof.
  destruct (strip_infix s) as (a & b & E). rewrite E at 2.
  rewrite !length_app. lia.
Qed.

(** What [strip] returns starts with a character that is not white
    space, when it starts at all. *)
Lemma strip_head (s : str) (c : char) (r : str) :
  strip s = c :: r -> isspace c = false.
Proof.
  intros H. pose proof (strip_idem s) as Hi. rewrite H in Hi.
  unfold strip in Hi.
  destruct (lstrip (c :: r)) as [|d q] eqn:E.
  - discriminate Hi.
  - pose proof (lstrip_head _ _ _ E) as Hd.
    destruct (rstrip_prefix (d :: q)) as [b Hb]. rewrite Hi in Hb.
    now injection Hb as -> _.
Qed.

Lemma strip_keeps_head (c : char) (s : str) :
  isspace c = false -> exists r, strip (c :: s) = c :: r.
Proof.
  intros Hc. unfold strip. simpl lstrip. rewrite Hc.
  destruct (rstrip (c :: s)) as [|d r] eqn:E.
  - assert (Ht : truthy_str (rstrip (c :: s)) = true).
    { unfold rstrip. rewrite truthy_rev, truthy_lstrip, has_nonspace_rev.
      simpl. now rewrite Hc. }
    rewrite E in Ht. discriminate.
  - destruct (rstrip_prefix (c :: s)) as [b Hb]. rewrite E in Hb.
    injection Hb as <- _. now exists r.
Qed.

End StripFacts.

(* ================================================================= *)
(** ** More on the text parsers *)

Module TextParserFacts.
Import Codec Parsers Parsers.MarkdownSpec PyFacts StripFacts ParserFacts.

Lemma has_nonspace_eol (s : str) : has_nonspace (eol_to_lf s) = has_nonspace s.
Proof.
  induction s as [|c s IH]; [reflexivity|]. simpl eol_to_lf.
  destruct (c =? CR) eqn:E.
  - apply N.eqb_eq in E. subst c.
    destruct s as [|d s]; [reflexivity|].
    destruct (d =? LF); [exact IH|].
    simpl in *. exact IH.
  - simpl. now rewrite IH.
Qed.

Lemma has_nonspace_cap (cap run : nat) (s : str) :
  has_nonspace (cap_newlines cap run s) = has_nonspace s.
Proof.
  revert run. induction s as [|c s IH]; intros run; [reflexivity|].
  simpl cap_newlines. destruct (c =? LF) eqn:E.
  - apply N.eqb_eq in E. subst c.
    destruct (run <? cap)%nat; simpl; apply IH.
  - simpl. now rewrite IH.
Qed.

Lemma clean_text_truthy (t : str) :
  truthy_str (MarkdownParser._clean_text t) = truthy_str (strip t).
Proof.
  rewrite clean_text_spec, !truthy_strip.
  now rewrite has_nonspace_cap, has_nonspace_eol.
Qed.

(** X1: a Markdown file that [validate_file] accepts is one that
    [parse] turns into a text: the result is not empty, its character
    count is the length of its text, it has one page and no warning;
    and the file had a Markdown extension, was not empty and not
    longer than 1 MiB. *)
Theorem markdown_valid_file_parses
    (path_suffix lower : str -> str) (lossy : list Byte.byte -> str)
    (content : list Byte.byte) (filename : str) :
  is_valid (MarkdownParser.validate_file path_suffix lower lossy content filename)
  = true ->
  (exists r,
      MarkdownParser.parse lossy content filename = Ok r
      /\ text r <> []
      /\ character_count r = len (text r)
      /\ page_count r = 1
      /\ warnings r = [])
  /\ BaseParser.can_handle path_suffix lower
       MarkdownParser.SUPPORTED_EXTENSIONS filename = true
  /\ content <> []
  /\ len content <= MarkdownParser.MAX_FILE_SIZE.
Proof.
  unfold MarkdownParser.validate_file, MarkdownParser.parse,
    MarkdownParser._decode_content.
  rewrite decode_chain.
  destruct (BaseParser.can_handle _ _ _ _); simpl; [|discriminate].
  destruct content as [|b content]; [discriminate|].
  destruct (MarkdownParser.MAX_FILE_SIZE <? len (b :: content)) eqn:Es;
    [discriminate|].
  set (t := first_lossless (b :: content)).
  destruct (truthy_str (strip t)) eqn:Et; simpl; [|discriminate].
  intros _. apply N.ltb_ge in Es. repeat split; try assumption;
    try discriminate.
  eexists. split; [reflexivity|]. unfold new_ParseResult. simpl.
  rewrite <- clean_text_truthy in Et.
  destruct (MarkdownParser._clean_text t) as [|c r] eqn:Ec; [discriminate|].
  repeat split; discriminate.
Qed.

Lemma markdown_valid_file_parses_witness :
  let content := [Byte.x23; Byte.x20; Byte.x41; Byte.x64; Byte.x61; Byte.x0a] in
  is_valid (MarkdownParser.validate_file posix_suffix ascii_lower (fun _ => [])
              content (py "cv.MD")) = true
  /\ MarkdownParser.parse (fun _ => []) content (py "cv.MD")
     = Ok (mkParseResult (py "# Ada") 1 5 []).
Proof.
  intros content.
  assert (H : is_valid (MarkdownParser.validate_file posix_suffix ascii_lower
                          (fun _ => []) content (py "cv.MD")) = true)
    by reflexivity.
  split; [exact H|].
  destruct (proj1 (markdown_valid_file_parses posix_suffix ascii_lower
                     (fun _ => []) content (py "cv.MD") H)) as (r & Hr & _).
  reflexivity.
Defined.

(** X2: the Markdown clean-up is idempotent: cleaning a cleaned text
    changes nothing. *)
Theorem clean_text_idempotent (t : str) :
  MarkdownParser._clean_text (MarkdownParser._clean_text t)
  = MarkdownParser._clean_text t.
Proof.
  rewrite !clean_text_spec.
  set (u := cap_newlines 2 0 (eol_to_lf t)).
  assert (Hcr : ~ In CR (strip u)).
  { intros H. apply strip_In, cap_In in H. now apply eol_to_lf_no_cr in H. }
  assert (Hlf : contains (strip u) LLL = false).
  { apply strip_contains. unfold u. rewrite <- collapse_loop_cap.
    now apply collapse_loop_done. }
  rewrite eol_to_lf_id by exact Hcr.
  rewrite cap_id by (try lia; exact Hlf).
  apply strip_idem.
Qed.

(** *** The byte order mark *)

Lemma utf8_decode_bom (rest : list Byte.byte) :
  utf8_decode (BOM ++ rest) = option_map (cons U_FEFF) (utf8_decode rest).
Proof. reflexivity. Qed.

(** When UTF-8 turns a file down, so does UTF-8 with BOM. *)
Lemma utf8_sig_adds_nothing (content : list Byte.byte) :
  utf8_decode content = None -> utf8_sig_decode content = None.
Proof.
  intros H. destruct content as [|x0 content]; [discriminate|].
  destruct x0; try exact H.
  destruct content as [|x1 content]; [exact H|].
  destruct x1; try exact H.
  destruct content as [|x2 content]; [exact H|].
  destruct x2; try exact H.
  change (utf8_sig_decode (Byte.xef :: Byte.xbb :: Byte.xbf :: content))
    with (utf8_decode content).
  change (Byte.xef :: Byte.xbb :: Byte.xbf :: content) with (BOM ++ content) in H.
  rewrite utf8_decode_bom in H.
  now destruct (utf8_decode content).
Qed.

(** X3: the UTF-8-with-BOM step never decides.  The chain returns what
    UTF-8 gives and else the Latin-1 reading; a byte order mark in
    front of UTF-8 text is therefore kept as the character U+FEFF,
    which is not white space, so the text that the Markdown parser
    returns starts with it. *)
Theorem decode_content_keeps_bom
    (lossy : list Byte.byte -> str) (content rest : list Byte.byte)
    (s : str) (filename : str) :
  MarkdownParser._decode_content lossy content
  = Ok (match utf8_decode content with
        | Some t => t
        | None => List.map byte_val content
        end)
  /\ LaTeXParser._decode_content lossy content
     = MarkdownParser._decode_content lossy content
  /\ (utf8_decode rest = Some s ->
      MarkdownParser._decode_content lossy (BOM ++ rest) = Ok (U_FEFF :: s)
      /\ exists r tail,
           MarkdownParser.parse lossy (BOM ++ rest) filename = Ok r
           /\ text r = U_FEFF :: tail).
Proof.
  assert (Hchain : forall c,
            MarkdownParser._decode_content lossy c
            = Ok (match utf8_decode c with
                  | Some t => t
                  | None => List.map byte_val c
                  end)).
  { intros c. unfold MarkdownParser._decode_content. rewrite decode_chain.
    unfold first_lossless. destruct (utf8_decode c) eqn:E; [reflexivity|].
    now rewrite utf8_sig_adds_nothing. }
  split; [apply Hchain|]. split; [reflexivity|].
  intros Hs.
  assert (Hd : MarkdownParser._decode_content lossy (BOM ++ rest)
               = Ok (U_FEFF :: s))
    by (rewrite Hchain, utf8_decode_bom, Hs; reflexivity).
  split; [exact Hd|].
  unfold MarkdownParser.parse. rewrite Hd. simpl bind.
  rewrite clean_text_spec.
  change (eol_to_lf (U_FEFF :: s)) with (U_FEFF :: eol_to_lf s).
  change (cap_newlines 2 0 (U_FEFF :: eol_to_lf s))
    with (U_FEFF :: cap_newlines 2 0 (eol_to_lf s)).
  destruct (strip_keeps_head U_FEFF (cap_newlines 2 0 (eol_to_lf s)) eq_refl)
    as [tail Ht].
  rewrite Ht. eexists. exists tail. split; reflexivity.
Qed.

Lemma decode_content_keeps_bom_witness :
  utf8_decode [Byte.x68; Byte.x69] = Some (py "hi")
  /\ MarkdownParser._decode_content (fun _ => [])
       (BOM ++ [Byte.x68; Byte.x69]) = Ok (U_FEFF :: py "hi").
Proof.
  split; [reflexivity|].
  exact (proj1 (proj2 (proj2
    (decode_content_keeps_bom (fun _ => []) [] [Byte.x68; Byte.x69]
       (py "hi") [])) eq_refl)).
Defined.

End TextParserFacts.

(* ================================================================= *)
(** ** The PDF parser, the parser factory and the upload route *)

Module UploadFacts.
Import Codec Parsers PyFacts StripFacts ParserFacts DictFacts.

Section WithLibraries.
Variables (path_suffix : str -> str) (lower : str -> str).
Variable lossy : list Byte.byte -> str.
Variable open_pdf : list Byte.byte -> option PDFParser.PdfReader.

#[local] Abbreviation handles p filename :=
  (BaseParser.can_handle path_suffix lower (ParserFactory.extensions_of p)
     filename).
#[local] Abbreviation validate :=
  (ParserFactory.validate_file path_suffix lower lossy open_pdf).
#[local] Abbreviation get_parser :=
  (ParserFactory.get_parser path_suffix lower).

(** A file that was turned down: the verdict is not valid and says
    why. *)
Ltac turned_down := split; [split|]; discriminate.

(** X4: the verdict of [validate_file], for each of the three
    parsers: it is valid exactly when it carries no reason; a valid
    file has an extension of the parser and is not empty; a valid PDF
    starts with the magic bytes and was opened, unencrypted and with
    its pages readable; a valid LaTeX file decodes to a text with a
    backslash in it. *)
Theorem validate_file_verdict
    (p : ParserFactory.parser) (content : list Byte.byte) (filename : str) :
  let v := validate p content filename in
  (is_valid v = true <-> error v = None)
  /\ (is_valid v = true ->
      handles p filename = true
      /\ content <> []
      /\ (p = ParserFactory.PDF ->
          PDFParser.bytes_startswith content PDFParser.magic = true
          /\ exists n, open_pdf content
                       = Some (PDFParser.mkPdfReader false (Some n)))
      /\ (p = ParserFactory.LaTeX ->
          char_in LaTeXParser.BACKSLASH (MarkdownSpec.first_lossless content)
          = true)).
Proof.
  cbv zeta. destruct p; unfold ParserFactory.validate_file,
    ParserFactory.extensions_of.
  - unfold PDFParser.validate_file.
    destruct (BaseParser.can_handle _ _ _ _); cbn [negb]; [|turned_down].
    destruct content as [|b content]; [turned_down|].
    set (m := PDFParser.bytes_startswith (b :: content) PDFParser.magic).
    destruct m; cbn [negb]; [|turned_down].
    destruct (open_pdf (b :: content)) as [[[|] [n|]]|];
      cbn [PDFParser.is_encrypted PDFParser.pages]; try turned_down.
    split; [split; reflexivity|]. intros _.
    repeat split; try discriminate. now exists n.
  - unfold MarkdownParser.validate_file, MarkdownParser._decode_content.
    rewrite decode_chain.
    destruct (BaseParser.can_handle _ _ _ _); cbn [negb]; [|turned_down].
    destruct content as [|b content]; [turned_down|].
    destruct (MarkdownParser.MAX_FILE_SIZE <? len (b :: content));
      [turned_down|].
    destruct (truthy_str _); cbn [negb]; [|turned_down].
    split; [split; reflexivity|]. intros _.
    repeat split; discriminate.
  - unfold LaTeXParser.validate_file, LaTeXParser._decode_content.
    rewrite decode_chain.
    destruct (BaseParser.can_handle _ _ _ _); cbn [negb]; [|turned_down].
    destruct content as [|b content]; [turned_down|].
    destruct (LaTeXParser.MAX_FILE_SIZE <? len (b :: content));
      [turned_down|].
    destruct (truthy_str _); cbn [negb]; [|turned_down].
    destruct (char_in _ _) eqn:Eb; cbn [negb]; [|turned_down].
    split; [split; reflexivity|]. intros _.
    repeat split; discriminate.
Qed.

Lemma can_handle_In (exts : list str) (filename : str) :
  BaseParser.can_handle path_suffix lower exts filename = true
  <-> In (BaseParser.get_extension path_suffix lower filename) exts.
Proof.
  unfold BaseParser.can_handle. rewrite existsb_exists. split.
  - intros (e & He & Heq). apply str_eqb_eq in Heq. now subst e.
  - intros H. eexists. split; [exact H | apply str_eqb_refl].
Qed.

Lemma extensions_disjoint (p q : ParserFactory.parser) (e : str) :
  In e (ParserFactory.extensions_of p) ->
  In e (ParserFactory.extensions_of q) -> p = q.
Proof.
  destruct p, q; try reflexivity; intros H1 H2; exfalso;
    cbv in H1, H2;
    repeat match goal with
           | H : _ \/ _ |- _ => destruct H as [H|H]
           | H : False |- _ => destruct H
           end; congruence.
Qed.

(** X5: the parser factory.  A file is supported exactly when its
    lower-cased extension is one of the supported extensions; the
    parser chosen is then the one that lists this extension, and no
    two parsers list the same one, so the order of the registry
    decides nothing. *)
Theorem parser_factory_dispatch (filename : str) :
  let ext := BaseParser.get_extension path_suffix lower filename in
  (ParserFactory.is_supported path_suffix lower filename = true
   <-> In ext ParserFactory.get_supported_extensions)
  /\ (forall p, get_parser filename = Some p
                <-> In ext (ParserFactory.extensions_of p))
  /\ ParserFactory.get_supported_extensions
     = [py ".pdf"; py ".md"; py ".markdown"; py ".tex"; py ".latex"].
Proof.
  cbv zeta.
  set (ext := BaseParser.get_extension path_suffix lower filename).
  assert (Hp : forall p, get_parser filename = Some p
                         <-> In ext (ParserFactory.extensions_of p)).
  { intros p. split.
    - intros H. apply find_some in H as [_ H]. now apply can_handle_In in H.
    - intros Hin.
      assert (Hother : forall q, handles q filename = true -> q = p).
      { intros q Hq. apply can_handle_In in Hq.
        exact (extensions_disjoint q p _ Hq Hin). }
      apply can_handle_In in Hin.
      unfold ParserFactory.get_parser, ParserFactory._parsers. cbn [List.find].
      destruct (handles ParserFactory.PDF filename) eqn:E1;
        [f_equal; now apply Hother|].
      destruct (handles ParserFactory.Markdown filename) eqn:E2;
        [f_equal; now apply Hother|].
      destruct (handles ParserFactory.LaTeX filename) eqn:E3;
        [f_equal; now apply Hother|].
      destruct p; congruence. }
  split; [|split; [exact Hp | reflexivity]].
  unfold ParserFactory.is_supported, ParserFactory.get_supported_extensions,
    ParserFactory._parsers.
  split.
  - destruct (get_parser filename) as [p|] eqn:E; [|discriminate].
    intros _. apply in_flat_map. exists p.
    split; [destruct p; simpl; auto | exact (proj1 (Hp p) eq_refl)].
  - intros H. apply in_flat_map in H as (p & _ & H). apply Hp in H.
    now rewrite H.
Qed.

(** X6: what an accepted upload is.  When the checks of the upload
    route choose a parser, the file is supported, not longer than the
    configured maximum, not empty, and valid for the parser chosen; a
    Markdown or LaTeX file is then not longer than 1 MiB either.  An
    unsupported file type is reported before the size is looked at. *)
Theorem upload_accepts_only_valid_files
    (max_upload_size_bytes : N) (filename : str) (content : list Byte.byte)
    (p : ParserFactory.parser) (done : list step) :
  ParserFactory.upload_resume_checks path_suffix lower lossy open_pdf
    max_upload_size_bytes filename content = (Ok p, done) ->
  get_parser filename = Some p
  /\ len content <= max_upload_size_bytes
  /\ content <> []
  /\ validate p content filename = accept done
  /\ (p <> ParserFactory.PDF -> len content <= 1048576).
Proof.
  unfold ParserFactory.upload_resume_checks, ParserFactory.is_supported.
  destruct (get_parser filename) as [q|] eqn:Eq; simpl; [|discriminate].
  destruct (max_upload_size_bytes <? len content) eqn:Es; [discriminate|].
  apply N.ltb_ge in Es.
  destruct (is_valid (validate q content filename)) eqn:Ev; simpl;
    [|discriminate].
  intros H. injection H as <- <-.
  assert (Hacc : validate q content filename
                 = accept (steps (validate q content filename))).
  { revert Ev. unfold ParserFactory.validate_file,
      PDFParser.validate_file, MarkdownParser.validate_file,
      LaTeXParser.validate_file.
    destruct q;
      repeat match goal with
             | |- context [if ?c then _ else _] => destruct c
             | |- context [match ?c with _ => _ end] => destruct c
             end; simpl; try discriminate; reflexivity. }
  repeat split; try assumption.
  - intros ->. revert Ev. unfold ParserFactory.validate_file,
      PDFParser.validate_file, MarkdownParser.validate_file,
      LaTeXParser.validate_file.
    destruct q; destruct (BaseParser.can_handle _ _ _ _); discriminate.
  - intros Hq. revert Ev. unfold ParserFactory.validate_file,
      MarkdownParser.validate_file, LaTeXParser.validate_file.
    destruct q; [congruence| |];
      destruct (BaseParser.can_handle _ _ _ _); simpl; try discriminate;
      destruct content as [|b content]; try discriminate;
      match goal with
      | |- context [?m <? ?l] => destruct (m <? l) eqn:El
      end; try discriminate; intros _; now apply N.ltb_ge in El.
Qed.

Lemma upload_unsupported_first
    (max_upload_size_bytes : N) (filename : str) (content : list Byte.byte) :
  ParserFactory.is_supported path_suffix lower filename = false ->
  ParserFactory.upload_resume_checks path_suffix lower lossy open_pdf
    max_upload_size_bytes filename content
  = (Err ParserFactory.InvalidFileTypeError, []).
Proof.
  intros H. unfold ParserFactory.upload_resume_checks. now rewrite H.
Qed.

End WithLibraries.

Lemma validate_file_verdict_witness :
  let v := ParserFactory.validate_file posix_suffix ascii_lower (fun _ => [])
             (fun _ => None) ParserFactory.LaTeX
             [Byte.x5c; Byte.x62; Byte.x66] (py "cv.tex") in
  is_valid v = true /\ error v = None.
Proof.
  intros v. assert (H : error v = None) by reflexivity.
  split; [|exact H].
  exact (proj2 (proj1 (validate_file_verdict posix_suffix ascii_lower
                         (fun _ => []) (fun _ => None) ParserFactory.LaTeX
                         [Byte.x5c; Byte.x62; Byte.x66] (py "cv.tex"))) H).
Defined.

Lemma parser_factory_dispatch_witness :
  In (BaseParser.get_extension posix_suffix ascii_lower (py "thesis.LaTeX"))
     ParserFactory.get_supported_extensions
  /\ ParserFactory.is_supported posix_suffix ascii_lower (py "thesis.LaTeX")
     = true.
Proof.
  assert (H : In (BaseParser.get_extension posix_suffix ascii_lower
                    (py "thesis.LaTeX"))
                 ParserFactory.get_supported_extensions)
    by (do 4 right; left; reflexivity).
  split; [exact H|].
  exact (proj2 (proj1 (parser_factory_dispatch posix_suffix ascii_lower
                         (py "thesis.LaTeX"))) H).
Defined.

Lemma upload_accepts_only_valid_files_witness :
  let content := [Byte.x23; Byte.x20; Byte.x41] in
  ParserFactory.upload_resume_checks posix_suffix ascii_lower (fun _ => [])
    (fun _ => None) 10485760 (py "cv.md") content
  = (Ok ParserFactory.Markdown, [StepDecode])
  /\ len content <= 10485760.
Proof.
  intros content.
  assert (H : ParserFactory.upload_resume_checks posix_suffix ascii_lower
                (fun _ => []) (fun _ => None) 10485760 (py "cv.md") content
              = (Ok ParserFactory.Markdown, [StepDecode])) by reflexivity.
  split; [exact H|].
  exact (proj1 (proj2 (upload_accepts_only_valid_files posix_suffix ascii_lower
                         (fun _ => []) (fun _ => None) 10485760 (py "cv.md")
                         content ParserFactory.Markdown [StepDecode] H))).
Defined.

End UploadFacts.

(* ================================================================= *)
(** ** PDF text extraction *)

Module PdfParseFacts.
Import Codec Parsers PyFacts StripFacts ParserFacts.

Lemma extraction_shape (pages : list str) (r : ParseResult) :
  (if negb (truthy_str (strip (join [LF; LF] (List.filter truthy_str pages))))
   then Err PDFParser.NoTextExtracted
   else Ok (new_ParseResult
              (strip (join [LF; LF] (List.filter truthy_str pages)))
              (len pages)
              (len (join [LF; LF] (List.filter truthy_str pages))) []))
  = Ok r ->
  PDFParser.well_extracted r.
Proof.
  set (full := join [LF; LF] (List.filter truthy_str pages)).
  destruct (strip full) as [|c s] eqn:Es; simpl; [discriminate|].
  intros H. injection H as <-. unfold PDFParser.well_extracted, new_ParseResult.
  cbn [text character_count page_count warnings].
  assert (Hfull : full <> []).
  { intros E. rewrite E in Es. discriminate. }
  assert (Hlen : (len full =? 0) = false).
  { apply N.eqb_neq. unfold len. destruct full; [congruence|]. simpl. lia. }
  rewrite Hlen. repeat split.
  - discriminate.
  - rewrite <- Es. apply strip_idem.
  - rewrite <- Es. unfold len. pose proof (strip_length full). lia.
  - destruct pages as [|p pages]; [now elim Hfull|]. unfold len. simpl. lia.
Qed.

Section WithExtractors.
Variable pdfplumber_pages : list Byte.byte -> option (list str).
Variable pypdf_pages : list Byte.byte -> option (list str).

#[local] Abbreviation primary := (PDFParser._parse_with_pdfplumber pdfplumber_pages).
#[local] Abbreviation secondary := (PDFParser._parse_with_pypdf pypdf_pages).
#[local] Abbreviation parse := (PDFParser.parse pdfplumber_pages pypdf_pages).

(** X7: the two strategies of the PDF parser.  What the first
    strategy returns is returned as it is, with no warning; the second
    is used only when the first raised or found no text, and its
    result carries the fallback warning; the parse fails exactly when
    both fail.  A result always has a text that is not empty and has
    no white space at its ends, at least one page, and a character
    count that is the length before stripping, so not less than the
    length of the text. *)
Theorem pdf_parse_falls_back (content : list Byte.byte) (filename : str) :
  (forall r, primary content = Ok r -> parse content filename = Ok r)
  /\ (forall e r, primary content = Err e -> secondary content = Ok r ->
        parse content filename
        = Ok (mkParseResult (text r) (page_count r) (character_count r)
                [PDFParser.fallback_warning]))
  /\ (parse content filename = Err PDFParser.FailedToParsePDF
      <-> (exists e1, primary content = Err e1)
          /\ (exists e2, secondary content = Err e2))
  /\ (forall r, parse content filename = Ok r ->
        text r <> []
        /\ strip (text r) = text r
        /\ len (text r) <= character_count r
        /\ 1 <= page_count r
        /\ (warnings r = [] \/ warnings r = [PDFParser.fallback_warning])).
Proof.
  assert (Hp : forall r, primary content = Ok r -> PDFParser.well_extracted r).
  { intros r. unfold PDFParser._parse_with_pdfplumber.
    destruct (pdfplumber_pages content); [apply extraction_shape | discriminate]. }
  assert (Hs : forall r, secondary content = Ok r -> PDFParser.well_extracted r).
  { intros r. unfold PDFParser._parse_with_pypdf.
    destruct (pypdf_pages content); [apply extraction_shape | discriminate]. }
  unfold PDFParser.parse.
  destruct (primary content) as [r1|e1] eqn:E1.
  - split; [now intros r [= <-]|]. split; [discriminate|].
    split; [split; [discriminate | intros [[e He] _]; discriminate]|].
    intros r [= <-]. destruct (Hp r1 eq_refl) as (A & B & C & D & E).
    rewrite E. auto 6.
  - split; [discriminate|].
    destruct (secondary content) as [r2|e2] eqn:E2.
    + destruct (Hs r2 eq_refl) as (A & B & C & D & E).
      split; [intros e r _ [= <-]; now rewrite E|].
      split; [split; [discriminate | intros [_ [e He]]; discriminate]|].
      intros r [= <-]. cbn [text character_count page_count warnings].
      rewrite E. auto 6.
    + split; [discriminate|].
      split; [split; eauto|]. discriminate.
Qed.

End WithExtractors.

(** A scanned first page and a second page with text: the text is
    stripped, the count is not. *)
Lemma pdf_parse_falls_back_witness :
  let fails := fun _ : list Byte.byte => @None (list str) in
  let pages := fun _ : list Byte.byte => Some [[]; py " Ada Lovelace "] in
  PDFParser.parse fails pages PDFParser.magic (py "cv.pdf")
  = Ok (mkParseResult (py "Ada Lovelace") 2 14 [PDFParser.fallback_warning])
  /\ strip (py "Ada Lovelace") = py "Ada Lovelace".
Proof.
  intros fails pages.
  assert (H : PDFParser.parse fails pages PDFParser.magic (py "cv.pdf")
              = Ok (mkParseResult (py "Ada Lovelace") 2 14
                      [PDFParser.fallback_warning])) by reflexivity.
  split; [exact H|].
  exact (proj1 (proj2 (proj2 (proj2 (proj2
    (pdf_parse_falls_back fails pages PDFParser.magic (py "cv.pdf")))) _ H))).
Defined.

End PdfParseFacts.

(* ================================================================= *)
(** ** More on the ranker *)

Module RankerMoreFacts.
Import GitHubService RankerFacts.
#[local] Open Scope Z_scope.

(** X8: the score is bounded.  For a repository whose star and fork
    counts are not negative the score lies between 0 and 145, whatever
    the clock says. *)
Theorem repo_score_bounds (clock : nat -> Z) (reads : nat) (repo : Repository) :
  0 <= stargazers_count repo -> 0 <= forks_count repo ->
  0 <= fst (_calculate_repo_score clock reads repo) <= 145.
Proof.
  intros Hs Hf. rewrite score_is_spec_score.
  unfold spec_score, recency_term.
  destruct (pushed_at repo) as [pushed|]; simpl;
    repeat match goal with
           | |- context [if ?c then _ else _] => destruct c
           | |- context [match topics repo with _ => _ end] =>
               destruct (topics repo)
           end; lia.
Qed.

Lemma repo_score_bounds_witness :
  0 <= stargazers_count (example_repo 0)
  /\ 0 <= forks_count (example_repo 0)
  /\ 0 <= fst (_calculate_repo_score (fun _ => 0) 0 (example_repo 0)) <= 145.
Proof.
  assert (Hs : 0 <= stargazers_count (example_repo 0)) by (simpl; lia).
  assert (Hf : 0 <= forks_count (example_repo 0)) by (simpl; lia).
  split; [exact Hs|]. split; [exact Hf|].
  exact (repo_score_bounds (fun _ => 0) 0%nat (example_repo 0) Hs Hf).
Defined.

Lemma sorted_app_le {A} (R : A -> A -> Prop) (a b : list A) :
  StronglySorted R (a ++ b) ->
  forall x y, In x a -> In y b -> R x y.
Proof.
  induction a as [|z a IH]; intros H x y Hx Hy; [destruct Hx|].
  simpl in H. inversion H as [|? ? Hrest Hall]; subst.
  destruct Hx as [->|Hx].
  - apply (proj1 (Forall_forall _ _) Hall). apply in_or_app. now right.
  - now apply IH.
Qed.

Lemma score_repos_length (clock : nat -> Z) (reads : nat) (repos : list Repository) :
  List.length (score_repos clock reads repos) = List.length repos.
Proof.
  rewrite <- (score_repos_fst clock repos reads) at 2.
  now rewrite length_map.
Qed.

(** X9: the fifteen that are kept are the best.  The result and the
    rest make up the sorted list; every repository that was eligible
    but is not returned scores no more than every one that is; and
    the number returned is 15, or the number of eligible repositories
    when that is smaller. *)
Theorem top_repos_are_the_best (clock : nat -> Z) (all_repos : list Repository) :
  let kept := List.filter _should_include_repo all_repos in
  let sorted := scored_repos clock all_repos in
  let out := top_repos clock all_repos in
  let dropped := skipn MAX_REPOS sorted in
  out ++ dropped = sorted
  /\ (forall x y, In x out -> In y dropped -> snd y <= snd x)
  /\ List.length out = Nat.min 15 (List.length kept)
  /\ List.length (_fetch_repositories clock all_repos)
     = Nat.min 15 (List.length kept).
Proof.
  cbv zeta. unfold top_repos, _fetch_repositories, top_repos.
  set (sorted := scored_repos clock all_repos).
  assert (Hlen : List.length sorted
                 = List.length (List.filter _should_include_repo all_repos)).
  { unfold sorted, scored_repos.
    rewrite (Permutation_length (sort_desc_perm _)).
    apply score_repos_length. }
  split; [apply firstn_skipn|]. split; [|split].
  - intros x y Hx Hy.
    apply (sorted_app_le by_score_desc (firstn MAX_REPOS sorted)
             (skipn MAX_REPOS sorted)); try assumption.
    rewrite firstn_skipn. apply sort_desc_sorted.
  - rewrite length_firstn, Hlen. reflexivity.
  - rewrite length_map, length_firstn, Hlen. reflexivity.
Qed.

Lemma NoDup_firstn_of {A} (n : nat) (l : list A) : NoDup l -> NoDup (firstn n l).
Proof.
  intros H. rewrite <- (firstn_skipn n l) in H.
  now apply NoDup_app_remove_r in H.
Qed.

(** X10: nothing eligible is lost and nothing is made up.  When at
    most 15 repositories are eligible the result is a rearrangement of
    exactly the eligible ones; and a list of repositories without
    repetition gives a result without repetition. *)
Theorem fetch_repositories_keeps_the_eligible
    (clock : nat -> Z) (all_repos : list Repository) :
  let kept := List.filter _should_include_repo all_repos in
  ((List.length kept <= 15)%nat ->
   Permutation (_fetch_repositories clock all_repos) kept)
  /\ (NoDup all_repos -> NoDup (_fetch_repositories clock all_repos)).
Proof.
  cbv zeta. unfold _fetch_repositories, top_repos.
  set (kept := List.filter _should_include_repo all_repos).
  set (sorted := scored_repos clock all_repos).
  assert (Hperm : Permutation (List.map fst sorted) kept).
  { unfold sorted, scored_repos. fold kept.
    rewrite <- (score_repos_fst clock kept 0) at 2.
    apply Permutation_map, sort_desc_perm. }
  split.
  - intros Hle.
    rewrite firstn_all2; [exact Hperm|].
    rewrite <- (length_map fst), (Permutation_length Hperm). exact Hle.
  - intros Hnd. rewrite <- firstn_map. apply NoDup_firstn_of.
    apply (Permutation_NoDup (Permutation_sym Hperm)).
    now apply NoDup_filter.
Qed.

Lemma fetch_repositories_keeps_the_eligible_witness :
  let repos := [example_repo 0;
                mkRepository (py "fork") false true None 7 None 1 1 []] in
  (List.length (List.filter _should_include_repo repos) <= 15)%nat
  /\ Permutation (_fetch_repositories (fun _ => 0) repos)
       (List.filter _should_include_repo repos).
Proof.
  intros repos.
  assert (H : (List.length (List.filter _should_include_repo repos) <= 15)%nat)
    by (simpl; lia).
  split; [exact H|].
  exact (proj1 (fetch_repositories_keeps_the_eligible (fun _ => 0) repos) H).
Defined.

Lemma top_repos_are_the_best_witness :
  let repo stars := mkRepository (py "r") false false None 5 None stars 0 [] in
  let repos := List.map repo
                 [1; 2; 3; 4; 5; 6; 7; 8; 9; 10; 9; 8; 7; 6; 5; 4; 3] in
  In (repo 1, 5) (skipn MAX_REPOS (scored_repos (fun _ => 0) repos))
  /\ In (repo 3, 15) (top_repos (fun _ => 0) repos)
  /\ 5 <= 15.
Proof.
  intros repo repos.
  assert (Hd : In (repo 1, 5) (skipn MAX_REPOS (scored_repos (fun _ => 0) repos)))
    by (vm_compute; auto).
  assert (Ho : In (repo 3, 15) (top_repos (fun _ => 0) repos))
    by (vm_compute; auto 20).
  split; [exact Hd|]. split; [exact Ho|].
  exact (proj1 (proj2 (top_repos_are_the_best (fun _ => 0) repos))
           (repo 3, 15) (repo 1, 5) Ho Hd).
Defined.

End RankerMoreFacts.

(* ================================================================= *)
(** ** More on the reconciler *)

Module ReconcilerMoreFacts.
Import Json Schema LLMService DictFacts ReconcilerFacts.

Lemma dict_set_get_same (k : str) (v : json) (d : dict) :
  dict_get k d = Some v -> dict_set k v d = d.
Proof.
  induction d as [|[k0 v0] d IH]; simpl; [discriminate|].
  destruct (str_eqb k0 k) eqn:E.
  - intros H. now injection H as ->.
  - intros H. now rewrite IH.
Qed.

Lemma dict_set_nonempty (k : str) (v : json) (d : dict) : dict_set k v d <> [].
Proof. destruct d as [|[k0 v0] d]; simpl; [|destruct (str_eqb k0 k)]; discriminate. Qed.

Lemma dict_has_get (k : str) (d d' : dict) :
  dict_get k d' = dict_get k d -> dict_has k d' = dict_has k d.
Proof. unfold dict_has. now intros ->. Qed.

(** A rename changes nothing when the canonical key is there or the
    alias is not; and that is how every rename leaves its entry. *)
Lemma rename_alias_fixed (canonical alias : str) (entry : dict) :
  dict_has canonical entry = true \/ dict_has alias entry = false ->
  rename_alias canonical alias entry = entry.
Proof.
  unfold rename_alias. intros [H|H]; rewrite H; [reflexivity|].
  now rewrite andb_false_r.
Qed.

Lemma rename_alias_settled (canonical alias : str) (entry : dict) :
  canonical <> alias ->
  dict_has canonical (rename_alias canonical alias entry) = true
  \/ dict_has alias (rename_alias canonical alias entry) = false.
Proof.
  intros Hne. unfold rename_alias, dict_has.
  destruct (dict_get canonical entry) as [c|] eqn:Ec; simpl.
  - left. now rewrite Ec.
  - destruct (dict_get alias entry) as [v|] eqn:Ea; simpl.
    + left. now rewrite dict_get_set_same.
    + right. now rewrite Ea.
Qed.

Lemma rename_alias_has_other (canonical alias k : str) (entry : dict) :
  k <> canonical -> k <> alias ->
  dict_has k (rename_alias canonical alias entry) = dict_has k entry.
Proof.
  intros Hc Ha. apply dict_has_get. apply rename_alias_keeps; congruence.
Qed.

Lemma rename_alias_has_canonical (canonical alias : str) (entry : dict) :
  dict_has canonical entry = true ->
  dict_has canonical (rename_alias canonical alias entry) = true.
Proof. intros H. now rewrite rename_alias_fixed by auto. Qed.

Lemma wrap_description_settled (entry : dict) (s : str) :
  dict_get (py "description") (wrap_description entry) <> Some (JStr s).
Proof.
  unfold wrap_description.
  destruct (dict_get (py "description") entry) as [[]|] eqn:E;
    rewrite ?E, ?dict_get_set_same; discriminate.
Qed.

Lemma wrap_description_fixed (entry : dict) :
  (forall s, dict_get (py "description") entry <> Some (JStr s)) ->
  wrap_description entry = entry.
Proof.
  intros H. unfold wrap_description.
  destruct (dict_get (py "description") entry) as [[]|] eqn:E; try reflexivity.
  now elim (H s).
Qed.

Lemma normalize_experience_idem (entry : dict) :
  normalize_experience (normalize_experience entry) = normalize_experience entry.
Proof.
  set (e' := normalize_experience entry).
  set (e1 := rename_alias k_role k_title entry).
  set (e2 := rename_alias k_organization k_company e1).
  assert (He' : e' = wrap_description e2) by reflexivity.
  assert (Hkeep : forall k, k <> py "description" ->
                            dict_has k e' = dict_has k e2).
  { intros k Hk. apply dict_has_get. rewrite He'.
    now apply wrap_description_keeps. }
  assert (H1 : rename_alias k_role k_title e' = e').
  { apply rename_alias_fixed. rewrite !Hkeep by discriminate.
    unfold e2. rewrite !rename_alias_has_other by discriminate.
    apply rename_alias_settled. discriminate. }
  assert (H2 : rename_alias k_organization k_company e' = e').
  { apply rename_alias_fixed. rewrite !Hkeep by discriminate.
    apply rename_alias_settled. discriminate. }
  unfold normalize_experience at 1. fold k_role k_title k_organization k_company.
  rewrite H1, H2. apply wrap_description_fixed.
  intros s. rewrite He'. apply wrap_description_settled.
Qed.

Lemma two_renames_idem (c a1 a2 : str) (entry : dict) :
  c <> a1 -> c <> a2 -> a1 <> a2 ->
  let e' := rename_alias c a2 (rename_alias c a1 entry) in
  rename_alias c a2 (rename_alias c a1 e') = e'.
Proof.
  intros H1 H2 H12 e'.
  assert (Hfirst : rename_alias c a1 e' = e').
  { apply rename_alias_fixed.
    destruct (rename_alias_settled c a1 entry H1) as [H|H].
    - left. now apply rename_alias_has_canonical.
    - destruct (dict_has c (rename_alias c a1 entry)) eqn:Ec.
      + left. now apply rename_alias_has_canonical.
      + right. unfold e'.
        destruct (dict_has a2 (rename_alias c a1 entry)) eqn:E2.
        * unfold rename_alias at 1. rewrite Ec, E2. simpl.
          unfold dict_has in E2.
          destruct (dict_get a2 (rename_alias c a1 entry)) as [v|] eqn:Ev;
            [|discriminate].
          unfold dict_has in *.
          rewrite dict_get_set_other by exact H1.
          rewrite dict_get_pop_other by congruence. exact H.
        * rewrite rename_alias_fixed by auto. exact H. }
  rewrite Hfirst. apply rename_alias_fixed.
  now apply rename_alias_settled.
Qed.

Lemma normalize_education_idem (entry : dict) :
  normalize_education (normalize_education entry) = normalize_education entry.
Proof. apply (two_renames_idem k_institution k_school k_university); discriminate. Qed.

Lemma normalize_project_idem (entry : dict) :
  normalize_project (normalize_project entry) = normalize_project entry.
Proof. apply (two_renames_idem k_highlights k_achievements k_bullets); discriminate. Qed.

Lemma normalize_entries_get (key : str) (f : dict -> dict) (r : dict) :
  dict_get key (normalize_entries key f r)
  = match dict_get key r with
    | Some (JArr es) => Some (JArr (List.map (on_dict f) es))
    | o => o
    end.
Proof.
  unfold normalize_entries.
  destruct (dict_get key r) as [[]|] eqn:E; rewrite ?E; try reflexivity.
  apply dict_get_set_same.
Qed.

Lemma normalize_entries_fixed (key : str) (f : dict -> dict) (r : dict) :
  (forall es, dict_get key r = Some (JArr es) ->
              List.map (on_dict f) es = es) ->
  normalize_entries key f r = r.
Proof.
  intros H. unfold normalize_entries.
  destruct (dict_get key r) as [[]|] eqn:E; try reflexivity.
  rewrite (H _ eq_refl). now apply dict_set_get_same.
Qed.

Lemma on_dict_idem (f : dict -> dict) (es : list json) :
  (forall e, f (f e) = f e) ->
  List.map (on_dict f) (List.map (on_dict f) es) = List.map (on_dict f) es.
Proof.
  intros H. rewrite map_map. apply map_ext.
  intros [] ; simpl; try reflexivity. now rewrite H.
Qed.

Lemma normalized_list_fixed (key : str) (f : dict -> dict) (r r' : dict) :
  (forall e, f (f e) = f e) ->
  dict_get key r'
  = match dict_get key r with
    | Some (JArr es) => Some (JArr (List.map (on_dict f) es))
    | o => o
    end ->
  normalize_entries key f r' = r'.
Proof.
  intros Hf Hget. apply normalize_entries_fixed. intros es Hes.
  rewrite Hes in Hget.
  destruct (dict_get key r) as [[]|]; try discriminate;
    injection Hget as ->; try now apply on_dict_idem.
Qed.

Lemma normalize_resume_idem (r : dict) :
  normalize_resume (normalize_resume r) = normalize_resume r.
Proof.
  set (r' := normalize_resume r).
  assert (H1 : normalize_entries (py "experience") normalize_experience r' = r').
  { apply (normalized_list_fixed _ _ r); [apply normalize_experience_idem|].
    unfold r', normalize_resume.
    rewrite !normalize_entries_other by discriminate.
    apply normalize_entries_get. }
  assert (H2 : normalize_entries (py "education") normalize_education r' = r').
  { apply (normalized_list_fixed _ _ r); [apply normalize_education_idem|].
    unfold r', normalize_resume.
    rewrite normalize_entries_other by discriminate.
    rewrite normalize_entries_get.
    now rewrite normalize_entries_other by discriminate. }
  assert (H3 : normalize_entries (py "projects") normalize_project r' = r').
  { apply (normalized_list_fixed _ _ r); [apply normalize_project_idem|].
    unfold r', normalize_resume.
    rewrite normalize_entries_get.
    now rewrite !normalize_entries_other by discriminate. }
  unfold normalize_resume at 1. now rewrite H1, H2, H3.
Qed.

Lemma normalize_entries_nonempty (key : str) (f : dict -> dict) (r : dict) :
  r <> [] -> normalize_entries key f r <> [].
Proof.
  intros H. unfold normalize_entries.
  destruct (dict_get key r) as [[]|]; try exact H. apply dict_set_nonempty.
Qed.

(** X11: reconciliation is idempotent.  An entry, a resume or a whole
    response that has been reconciled is left as it is by a second
    pass. *)
Theorem normalize_schema_idempotent (data parsed : json) (entry : dict) :
  (_normalize_schema data = Ok parsed -> _normalize_schema parsed = Ok parsed)
  /\ normalize_experience (normalize_experience entry)
     = normalize_experience entry
  /\ normalize_education (normalize_education entry)
     = normalize_education entry
  /\ normalize_project (normalize_project entry) = normalize_project entry.
Proof.
  split; [|split; [apply normalize_experience_idem|
                   split; [apply normalize_education_idem
                          |apply normalize_project_idem]]].
  unfold _normalize_schema. destruct data as [| | | | | |d]; try discriminate.
  destruct (negb (truthy _)) eqn:Et.
  - intros [= <-]. now rewrite Et.
  - destruct (match dict_get (py "structured_resume") d with
              | Some r => r
              | None => JObj []
              end) as [| | | | | |r] eqn:Er; try discriminate.
    intros [= <-]. rewrite dict_get_set_same.
    assert (Hr : r <> []) by (intros ->; discriminate Et).
    assert (Hn : normalize_resume r <> []).
    { unfold normalize_resume. now repeat apply normalize_entries_nonempty. }
    destruct (normalize_resume r) as [|b nr] eqn:En; [congruence|].
    cbn [truthy negb]. rewrite <- En, normalize_resume_idem.
    do 2 f_equal. apply dict_set_get_same. apply dict_get_set_same.
Qed.

Lemma normalize_schema_idempotent_witness :
  let data := JObj [(k_resume, JObj [(py "experience", JArr [JObj example_entry])])] in
  let parsed := JObj [(k_resume,
                       JObj [(py "experience",
                              JArr [JObj (normalize_experience example_entry)])])] in
  _normalize_schema data = Ok parsed /\ _normalize_schema parsed = Ok parsed.
Proof.
  intros data parsed.
  assert (H : _normalize_schema data = Ok parsed) by reflexivity.
  split; [exact H|].
  exact (proj1 (normalize_schema_idempotent data parsed []) H).
Defined.

End ReconcilerMoreFacts.

(* ================================================================= *)
(** ** Reconciliation and validation together *)

Module ReconcileValidateFacts.
Import Json Schema LLMService DictFacts ReconcilerFacts ReconcilerMoreFacts.

(** Take a chain of field validations that succeeded apart. *)
Ltac unbind H :=
  repeat match type of H with
         | opt_bind ?o _ = Some _ =>
             let a := fresh "a" in
             let E := fresh "E" in
             destruct o as [a|] eqn:E; cbn [opt_bind] in H;
             [|discriminate H]
         end.

Lemma required_some {A} (f : json -> option A) (k : string) (d : dict) (a : A) :
  required f k d = Some a ->
  exists v, dict_get (py k) d = Some v /\ f v = Some a.
Proof.
  unfold required. destruct (dict_get (py k) d) as [v|]; [eauto | discriminate].
Qed.

Lemma required_has {A} (f : json -> option A) (k : string) (d : dict) (a : A) :
  required f k d = Some a -> dict_has (py k) d = true.
Proof.
  intros H. apply required_some in H as (v & Hv & _).
  unfold dict_has. now rewrite Hv.
Qed.

(** X12: reconciliation leaves alone what is already right.  An
    experience entry or an education entry that validates as it is
    comes out of the reconciler unchanged. *)
Theorem reconciler_keeps_valid_entries (entry : dict) :
  (forall x, new_Experience entry = Some x ->
             normalize_experience entry = entry)
  /\ (forall x, new_Education entry = Some x ->
                normalize_education entry = entry).
Proof.
  split; intros x H.
  - unfold new_Experience in H. unbind H.
    apply required_has in E, E0.
    apply required_some in E4 as (v & Hv & Hl).
    unfold normalize_experience.
    rewrite (rename_alias_fixed (py "role") (py "title") entry) by auto.
    rewrite (rename_alias_fixed (py "organization") (py "company") entry)
      by auto.
    apply wrap_description_fixed. intros s Hs.
    rewrite Hs in Hv. injection Hv as <-. discriminate Hl.
  - unfold new_Education in H. unbind H.
    apply required_has in E0.
    unfold normalize_education.
    rewrite (rename_alias_fixed (py "institution") (py "school") entry) by auto.
    now rewrite rename_alias_fixed by auto.
Qed.

Lemma reconciler_keeps_valid_entries_witness :
  let entry := [(py "degree", jstr "BSc"); (py "institution", jstr "MIT");
                (py "school", jstr "Other")] in
  new_Education entry
  = Some (mkEducation (py "BSc") (py "MIT") None None None [] [])
  /\ normalize_education entry = entry.
Proof.
  intros entry.
  assert (H : new_Education entry
              = Some (mkEducation (py "BSc") (py "MIT") None None None [] []))
    by reflexivity.
  split; [exact H|].
  exact (proj2 (reconciler_keeps_valid_entries entry) _ H).
Defined.

(** X13: for projects this fails.  A project without [highlights]
    whose [achievements] are not a list of strings, an extra key that
    validation ignores, does not validate any more once the reconciler
    has renamed the key. *)
Theorem reconciler_can_break_a_project (project : dict) (v : json) :
  dict_get k_highlights project = None ->
  dict_get k_achievements project = Some v ->
  as_list as_str v = None ->
  dict_get k_highlights (normalize_project project) = Some v
  /\ new_Project (normalize_project project) = None.
Proof.
  intros Hh Ha Hv.
  assert (Hn : dict_get k_highlights (normalize_project project) = Some v).
  { unfold normalize_project. fold k_highlights k_achievements k_bullets.
    pose proof (rename_alias_renamed k_highlights k_achievements project) as Hr.
    unfold renamed in Hr. rewrite Hh, Ha in Hr.
    destruct Hr as (Hr & _); [discriminate|].
    rewrite rename_alias_fixed; [exact Hr|].
    left. unfold dict_has. now rewrite Hr. }
  split; [exact Hn|].
  assert (Hd : defaulted (as_list as_str) [] "highlights"
                 (normalize_project project) = None).
  { unfold defaulted. fold k_highlights. now rewrite Hn. }
  unfold new_Project. rewrite Hd.
  repeat match goal with
         | |- opt_bind ?o _ = None =>
             destruct o; cbn [opt_bind]; [|reflexivity]
         end.
  reflexivity.
Qed.

Lemma reconciler_can_break_a_project_witness :
  new_Project example_project
  = Some (mkProject (py "ResumeForge") (py "A resume tool") [py "Python"]
            (py "github") None [] None None)
  /\ new_Project (normalize_project example_project) = None.
Proof.
  split; [reflexivity|].
  exact (proj2 (reconciler_can_break_a_project example_project (JInt 3)
                  eq_refl eq_refl eq_refl)).
Defined.

Lemma normalize_experience_get_other (k : str) (entry : dict) :
  k <> k_role -> k <> k_title -> k <> k_organization -> k <> k_company ->
  k <> py "description" ->
  dict_get k (normalize_experience entry) = dict_get k entry.
Proof.
  intros H1 H2 H3 H4 H5. unfold normalize_experience.
  rewrite wrap_description_keeps by exact H5.
  rewrite !rename_alias_keeps; try reflexivity; try assumption;
    intros E; exfalso; first [exact (H1 E) | exact (H3 E)].
Qed.

(** X14: what the reconciler is for.  An experience entry that says
    [title] and [company] for [role] and [organization] and gives its
    description as one string does not validate; reconciled, it
    validates, with the title as role, the company as organization,
    the description as a list of one, and its other fields as they
    were. *)
Theorem reconciled_experience_validates
    (entry : dict) (t c s : str)
    (location start_date end_date : option str) (technologies : list str) :
  dict_get k_role entry = None ->
  dict_get k_organization entry = None ->
  dict_get k_title entry = Some (JStr t) ->
  dict_get k_company entry = Some (JStr c) ->
  dict_get (py "description") entry = Some (JStr s) ->
  optional as_str "location" entry = Some location ->
  optional as_str "start_date" entry = Some start_date ->
  optional as_str "end_date" entry = Some end_date ->
  defaulted (as_list as_str) [] "technologies" entry = Some technologies ->
  new_Experience entry = None
  /\ new_Experience (normalize_experience entry)
     = Some (mkExperience t c location start_date end_date [s] technologies).
Proof.
  intros Hr Ho Ht Hc Hd Hl Hs He Hx.
  split.
  - unfold new_Experience, required. fold k_role. now rewrite Hr.
  - set (e1 := rename_alias k_role k_title entry).
    set (e2 := rename_alias k_organization k_company e1).
    assert (R1 : dict_get k_role e1 = Some (JStr t)).
    { pose proof (rename_alias_renamed k_role k_title entry) as H.
      unfold renamed in H. rewrite Hr, Ht in H. apply H. discriminate. }
    assert (O1 : dict_get k_organization e1 = None)
      by (unfold e1; rewrite rename_alias_keeps;
          [exact Ho | discriminate | discriminate]).
    assert (C1 : dict_get k_company e1 = Some (JStr c))
      by (unfold e1; rewrite rename_alias_keeps;
          [exact Hc | discriminate | discriminate]).
    assert (O2 : dict_get k_organization e2 = Some (JStr c)).
    { pose proof (rename_alias_renamed k_organization k_company e1) as H.
      unfold renamed in H. rewrite O1, C1 in H. apply H. discriminate. }
    assert (R2 : dict_get k_role e2 = Some (JStr t))
      by (unfold e2; rewrite rename_alias_keeps;
          [exact R1 | discriminate | discriminate]).
    assert (D2 : dict_get (py "description") e2 = Some (JStr s))
      by (unfold e2, e1; rewrite !rename_alias_keeps;
          [exact Hd | discriminate | discriminate | discriminate | discriminate]).
    assert (Hrole : dict_get k_role (normalize_experience entry) = Some (JStr t))
      by (unfold normalize_experience; fold k_role k_title k_organization
            k_company e1 e2; rewrite wrap_description_keeps by discriminate;
          exact R2).
    assert (Horg : dict_get k_organization (normalize_experience entry)
                   = Some (JStr c))
      by (unfold normalize_experience; fold k_role k_title k_organization
            k_company e1 e2; rewrite wrap_description_keeps by discriminate;
          exact O2).
    assert (Hdesc : dict_get (py "description") (normalize_experience entry)
                    = Some (JArr [JStr s])).
    { pose proof (wrap_description_wrapped e2) as H.
      unfold description_wrapped in H. rewrite D2 in H. apply H. }
    unfold new_Experience, required, optional, defaulted in *.
    fold k_role k_organization.
    rewrite Hrole, Horg, Hdesc.
    rewrite !normalize_experience_get_other by discriminate.
    cbn [as_str opt_bind].
    rewrite Hl, Hs, He. cbn [opt_bind as_list traverse as_str].
    rewrite Hx. reflexivity.
Qed.

Lemma reconciled_experience_validates_witness :
  new_Experience example_aliased = None
  /\ new_Experience (normalize_experience example_aliased)
     = Some (mkExperience (py "Engineer") (py "Acme") (Some (py "Paris"))
               None None [py "Did X"] []).
Proof.
  exact (reconciled_experience_validates example_aliased (py "Engineer")
           (py "Acme") (py "Did X") (Some (py "Paris")) None None []
           eq_refl eq_refl eq_refl eq_refl eq_refl eq_refl eq_refl eq_refl
           eq_refl).
Defined.

End ReconcileValidateFacts.

(* ================================================================= *)
(** ** What the repair asks the decoder *)

Module RepairFacts.
Import Json Schema LLMService PyFacts RecoveryFacts.

Lemma rfind_char_nth (s : str) (c : char) (j : nat) :
  rfind_char s c = Some j -> nth_error s j = Some c.
Proof.
  revert j. induction s as [|d s IH]; intros j; simpl; [discriminate|].
  destruct (rfind_char s c) as [i|].
  - intros [= <-]. simpl. now apply IH.
  - destruct (d =? c) eqn:E; [|discriminate].
    intros [= <-]. apply N.eqb_eq in E. now subst d.
Qed.

Lemma firstn_S_nth {A} (l : list A) (n : nat) (x : A) :
  nth_error l n = Some x -> firstn (S n) l = firstn n l ++ [x].
Proof.
  revert n. induction l as [|a l IH]; intros [|n] H; try discriminate.
  - now injection H as ->.
  - simpl in H. cbn [firstn app]. f_equal. now apply IH.
Qed.

Lemma slice_to_brace (content : str) (i j : nat) :
  (i <= j)%nat -> rfind_char content RBRACE = Some j ->
  slice content i (S j) = slice content i j ++ [RBRACE].
Proof.
  intros Hij Hj. unfold slice.
  replace (S j - i)%nat with (S (j - i)) by lia.
  apply firstn_S_nth. rewrite nth_error_skipn.
  replace (i + (j - i))%nat with j by lia.
  now apply rfind_char_nth.
Qed.

Lemma endswith_last (s : str) (c : char) : endswith (s ++ [c]) [c] = true.
Proof.
  unfold endswith. rewrite rev_app_distr. simpl. now rewrite N.eqb_refl.
Qed.

Lemma candidate_shape (content anchor candidate : str) :
  candidate_at content anchor = Some candidate ->
  startswith candidate [LBRACE] = true
  /\ endswith candidate [RBRACE] = true.
Proof.
  unfold candidate_at.
  destruct (find content anchor) as [i|]; [|discriminate].
  destruct (rfind_char content RBRACE) as [j|] eqn:Ej; [|discriminate].
  destruct (i <=? j)%nat eqn:Eij; [|discriminate].
  apply Nat.leb_le in Eij. rewrite (slice_to_brace _ _ _ Eij Ej).
  destruct (startswith (slice content i j ++ [RBRACE]) [LBRACE]) eqn:Es;
    intros [= <-].
  - split; [exact Es | apply endswith_last].
  - split; [reflexivity|].
    apply (endswith_last (LBRACE :: slice content i j)).
Qed.

(** X15: the repair only ever offers the decoder a text that opens
    with a brace and closes with one.  So a decoder that turns every
    such text down makes the repair fail with the recovery error; and
    a response without a closing brace is beyond repair whatever the
    decoder. *)
Theorem repair_offers_only_braced_text
    (json_loads : str -> option json) (content : str) :
  (forall anchor candidate,
      candidate_at content anchor = Some candidate ->
      startswith candidate [LBRACE] = true
      /\ endswith candidate [RBRACE] = true)
  /\ ((forall candidate,
          startswith candidate [LBRACE] = true ->
          endswith candidate [RBRACE] = true ->
          json_loads candidate = None) ->
      _attempt_json_repair json_loads content = Err ResponseRecoveryError)
  /\ (rfind_char content RBRACE = None ->
      _attempt_json_repair json_loads content = Err ResponseRecoveryError).
Proof.
  split; [intros anchor candidate; apply candidate_shape|].
  assert (Hnone : forall anchor,
            (forall candidate, candidate_at content anchor = Some candidate ->
                               json_loads candidate = None) ->
            try_anchor json_loads content anchor = None).
  { intros anchor H. unfold try_anchor.
    destruct (candidate_at content anchor) as [c|] eqn:E; [now apply H | reflexivity]. }
  split.
  - intros Hrej. rewrite repair_is_in_order. unfold repair_in_order.
    rewrite !Hnone; [reflexivity| | |];
      intros c Hc; apply candidate_shape in Hc as [Hs He]; now apply Hrej.
  - intros Hno. rewrite repair_is_in_order. unfold repair_in_order.
    rewrite !Hnone; [reflexivity| | |];
      intros c Hc; unfold candidate_at in Hc; rewrite Hno in Hc;
      destruct (find content _); discriminate.
Qed.

Lemma repair_offers_only_braced_text_witness :
  rfind_char (py "{ no end") RBRACE = None
  /\ _attempt_json_repair (fun _ => Some JNull) (py "{ no end")
     = Err ResponseRecoveryError.
Proof.
  split; [reflexivity|].
  exact (proj2 (proj2 (repair_offers_only_braced_text (fun _ => Some JNull)
                         (py "{ no end"))) eq_refl).
Defined.

End RepairFacts.

(* ================================================================= *)
(** ** Closed vocabularies *)

Module VocabularyFacts.
Import Json Schema LLMService DictFacts ReconcileValidateFacts.

Lemma one_of_In (allowed : list string) (v w : str) :
  one_of allowed v = Some w ->
  In w (List.map py allowed) /\ w = ascii_lower v.
Proof.
  unfold one_of. destruct (existsb _ allowed) eqn:E; [|discriminate].
  intros [= <-]. split; [|reflexivity].
  apply existsb_exists in E as (a & Ha & Heq).
  apply str_eqb_eq in Heq. rewrite Heq. now apply in_map.
Qed.

Lemma traverse_Forall {A B} (f : A -> option B) (P : B -> Prop)
    (l : list A) (l' : list B) :
  (forall a b, f a = Some b -> P b) ->
  traverse f l = Some l' -> Forall P l'.
Proof.
  intros Hf. revert l'. induction l as [|a l IH]; intros l'; simpl.
  - intros [= <-]. constructor.
  - destruct (f a) as [b|] eqn:E; [|discriminate].
    destruct (traverse f l) as [bs|]; [|discriminate].
    intros [= <-]. constructor; [now apply (Hf a) | now apply IH].
Qed.

Lemma new_Project_source (d : dict) (p : Project) :
  new_Project d = Some p -> In (project_source p) SOURCES.
Proof.
  intros H. unfold new_Project in H. unbind H. injection H as <-. simpl.
  unfold required in E2. destruct (dict_get (py "source") d); [|discriminate].
  destruct (as_str j); [|discriminate]. cbn [opt_bind] in E2.
  now apply one_of_In in E2 as [E2 _].
Qed.

(** X16: the closed vocabularies hold.  Every project of a validated
    resume has a source that is one of resume, github and both; every
    validated decision-log entry has an action and a confidence of
    their vocabularies, in lower case.  The source of a decision-log
    entry is not checked: any string is taken as it is. *)
Theorem validated_vocabularies
    (validate_email : str -> option str) (d : dict) :
  (forall resume, new_CanonicalResume validate_email d = Some resume ->
     Forall (fun p => In (project_source p) SOURCES) (projects resume))
  /\ (forall e, new_DecisionLogEntry d = Some e ->
        In (action e) ACTIONS /\ In (confidence e) CONFIDENCES
        /\ dict_get (py "source") d = Some (JStr (source e))
        /\ forall s, new_DecisionLogEntry (dict_set (py "source") (JStr s) d)
                     = Some (mkDecisionLogEntry (section e) (action e) (items e)
                               (reason e) s (confidence e))).
Proof.
  split.
  - intros resume H. unfold new_CanonicalResume in H. unbind H.
    injection H as <-. simpl.
    unfold defaulted in E2.
    destruct (dict_get (py "projects") d) as [v|]; [|injection E2 as <-; constructor].
    destruct v; try discriminate. simpl in E2.
    apply (traverse_Forall (as_model new_Project)
             (fun p => In (project_source p) SOURCES) items0); [|exact E2].
    intros v p Hp. destruct v; try discriminate.
    now apply new_Project_source in Hp.
  - intros e H. unfold new_DecisionLogEntry in H.
    pose proof H as H0. unbind H. injection H as <-. simpl.
    assert (Ha : In a0 ACTIONS).
    { unfold required in E0. destruct (dict_get (py "action") d); [|discriminate].
      destruct (as_str j); [|discriminate]. cbn [opt_bind] in E0.
      now apply one_of_In in E0 as [E0 _]. }
    assert (Hc : In a4 CONFIDENCES).
    { unfold required in E4.
      destruct (dict_get (py "confidence") d); [|discriminate].
      destruct (as_str j); [|discriminate]. cbn [opt_bind] in E4.
      now apply one_of_In in E4 as [E4 _]. }
    assert (Hs : dict_get (py "source") d = Some (JStr a3)).
    { unfold required in E3. destruct (dict_get (py "source") d) as [[]|];
        try discriminate. now injection E3 as ->. }
    repeat split; try assumption.
    intros s. unfold new_DecisionLogEntry, required in *.
    rewrite !dict_get_set_other by discriminate.
    rewrite dict_get_set_same.
    rewrite !dict_get_set_other by discriminate.
    rewrite E, E0, E1, E2, E4. reflexivity.
Qed.

End VocabularyFacts.

Module VocabularyWitness.
Import Json Schema LLMService.

Lemma validated_vocabularies_witness :
  new_DecisionLogEntry (decision_fields "HIGH")
  = Some (mkDecisionLogEntry (py "projects") (py "merged") [py "ResumeForge"]
            (py "recent") (py "somewhere else") (py "high"))
  /\ In (py "high") CONFIDENCES.
Proof.
  assert (H : new_DecisionLogEntry (decision_fields "HIGH")
              = Some (mkDecisionLogEntry (py "projects") (py "merged")
                        [py "ResumeForge"] (py "recent")
                        (py "somewhere else") (py "high"))) by reflexivity.
  split; [exact H|].
  exact (proj1 (proj2 (proj2 (VocabularyFacts.validated_vocabularies any_email
                               (decision_fields "HIGH")) _ H))).
Defined.

End VocabularyWitness.

(* ================================================================= *)
(** ** One call to the model, one load of the prompt *)

Module ServiceMoreFacts.
Import Json Schema LLMService.

Section WithWorld.
Variable json_loads : str -> option json.
Variable validate_email : str -> option str.
Variable isprintable : char -> bool.
Variable repr : json -> str.
Variable complete : str -> str -> result str str.

#[local] Abbreviation build := (_build_user_prompt isprintable repr).

(** Without GitHub data nothing can go wrong in the prompt. *)
Lemma prompt_builds_without_github
    (resume_text : option str) (github_data : option dict)
    (instructions : option str) (settings_ : option StructuringSettings) :
  truthy_dict github_data = false ->
  exists user_prompt,
    build resume_text github_data instructions settings_ = Ok user_prompt.
Proof.
  intros H. unfold _build_user_prompt.
  destruct github_data as [[|b d]|]; try discriminate H; cbn [Py.bind]; eauto.
Qed.

(** X17: a call that has a data source first builds the user prompt.
    When that succeeds the model is asked exactly once, with the
    system prompt of the service and that user prompt; when the model
    call raises, the call fails with the provider's message and
    nothing is parsed or retried.  When building the prompt raises,
    as it does with [KeyError] for GitHub data with a repository that
    has no name and with [AttributeError] for GitHub data whose
    profile is a string, that exception is the outcome and the model
    is not asked and nothing is logged.  Without GitHub data the prompt
    always builds.  Either way the system prompt is left cached:
    whatever the prompt file holds later, the service goes on using
    the prompt it loaded first. *)
Theorem structure_resume_calls_the_model_once
    (prompt_file : option str) (default_prompt : str)
    (resume_text : option str) (github_data : option dict)
    (instructions : option str) (settings_ : option StructuringSettings)
    (self : service) :
  truthy_text resume_text || truthy_dict github_data = true ->
  let prompt := fst (_load_system_prompt prompt_file default_prompt self) in
  let out := structure_resume json_loads validate_email isprintable repr
               prompt_file default_prompt complete resume_text github_data
               instructions settings_ self in
  (forall user_prompt,
     build resume_text github_data instructions settings_ = Ok user_prompt ->
     model_calls (snd out) = model_calls self ++ [(prompt, user_prompt)]
     /\ (forall message, complete prompt user_prompt = Err message ->
           fst out = Err (LLMApiError message)
           /\ log (snd out)
              = log self
                ++ [calling_llm (truthy_text resume_text)
                      (truthy_dict github_data);
                    llm_api_error message]))
  /\ (forall e,
        build resume_text github_data instructions settings_ = Err e ->
        fst out = Err (PromptError e)
        /\ model_calls (snd out) = model_calls self
        /\ log (snd out) = log self)
  /\ (truthy_dict github_data = false ->
      exists user_prompt,
        build resume_text github_data instructions settings_ = Ok user_prompt)
  /\ (build resume_text (Some nameless_repository) instructions settings_
      = Err KeyError
      /\ build resume_text (Some profile_of_text) instructions settings_
         = Err AttributeError)
  /\ _system_prompt (snd out) = Some prompt
  /\ (forall later_file later_default,
        fst (_load_system_prompt later_file later_default (snd out)) = prompt)
  /\ (_system_prompt self = None ->
      prompt = match prompt_file with
               | Some t => t
               | None => default_prompt
               end).
Proof.
  intros H. cbv zeta.
  split; [|split; [|split; [apply prompt_builds_without_github
                          |split; [split; now destruct resume_text as [[|c t]|]
                                  |]]]].
  - intros user_prompt Hb. unfold structure_resume.
    rewrite <- negb_orb, H. simpl negb. cbv iota.
    unfold _load_system_prompt. destruct self as [cache calls lg].
    cbn [_system_prompt model_calls log].
    destruct cache as [p|]; cbn [fst snd _system_prompt model_calls log];
      rewrite Hb;
      match goal with
      | |- context [complete ?a ?b] => destruct (complete a b) as [raw|m] eqn:Ec
      end;
      try (destruct (_parse_response json_loads validate_email
                       (clean_content raw)) as [r logs]);
      cbn [fst snd _system_prompt model_calls log];
      repeat split; try discriminate; congruence.
  - intros e Hb. unfold structure_resume.
    rewrite <- negb_orb, H. simpl negb. cbv iota.
    unfold _load_system_prompt. destruct self as [cache calls lg].
    cbn [_system_prompt model_calls log].
    destruct cache as [p|]; cbn [fst snd _system_prompt model_calls log];
      rewrite Hb; repeat split.
  - unfold structure_resume.
    rewrite <- negb_orb, H. simpl negb. cbv iota.
    unfold _load_system_prompt. destruct self as [cache calls lg].
    cbn [_system_prompt model_calls log].
    destruct (build resume_text github_data instructions settings_)
      as [user_prompt|e];
      destruct cache as [p|]; cbn [fst snd _system_prompt model_calls log];
      try match goal with
          | |- context [complete ?a ?b] => destruct (complete a b) as [raw|m]
          end;
      try (destruct (_parse_response json_loads validate_email
                       (clean_content raw)) as [r logs]);
      cbn [fst snd _system_prompt model_calls log];
      repeat split; try discriminate; congruence.
Qed.

End WithWorld.

Lemma structure_resume_calls_the_model_once_witness :
  truthy_text (Some (py "cv")) || truthy_dict None = true
  /\ (exists user_prompt,
        _build_user_prompt Utils.ascii_isprintable no_repr (Some (py "cv")) None
          None None = Ok user_prompt
        /\ model_calls
             (snd (structure_resume example_loads any_email
                     Utils.ascii_isprintable no_repr (Some (py "SYSTEM")) []
                     failing_model (Some (py "cv")) None None None
                     fresh_service))
           = [(py "SYSTEM", user_prompt)])
  /\ model_calls
       (snd (structure_resume example_loads any_email Utils.ascii_isprintable
               no_repr (Some (py "SYSTEM")) [] failing_model (Some (py "cv"))
               (Some nameless_repository) None None fresh_service))
     = [].
Proof.
  split; [reflexivity|]. split.
  - eexists. split; [reflexivity|].
    exact (proj1 (proj1 (structure_resume_calls_the_model_once example_loads
                           any_email Utils.ascii_isprintable no_repr
                           failing_model (Some (py "SYSTEM")) []
                           (Some (py "cv")) None None None fresh_service
                           eq_refl) _ eq_refl)).
  - exact (proj1 (proj2 (proj1 (proj2
             (structure_resume_calls_the_model_once example_loads any_email
                Utils.ascii_isprintable no_repr failing_model
                (Some (py "SYSTEM")) [] (Some (py "cv"))
                (Some nameless_repository) None None fresh_service eq_refl))
             KeyError eq_refl))).
Defined.

End ServiceMoreFacts.

(* ================================================================= *)
(** ** More on the sanitizer *)

Module SanitizerMoreFacts.
Import Utils UtilsFacts.

Section Sanitizer.
Variable isprintable : char -> bool.
#[local] Abbreviation sanitize := (sanitize_text isprintable).

Lemma sanitize_is_clean (text : option str) :
  is_clean isprintable (sanitize text) = true.
Proof.
  destruct text as [t|]; [|reflexivity].
  rewrite sanitize_filter. unfold is_clean. apply forallb_forall.
  intros c H. now apply filter_In in H.
Qed.

Lemma is_clean_firstn (n : nat) (t : str) :
  is_clean isprintable t = true -> is_clean isprintable (firstn n t) = true.
Proof.
  unfold is_clean. rewrite !forallb_forall. intros H c Hc.
  apply H. rewrite <- (firstn_skipn n t). apply in_or_app. now left.
Qed.

Lemma sanitize_clean (t : str) :
  is_clean isprintable t = true -> sanitize (Some t) = t.
Proof. intros H. rewrite sanitize_filter. now apply filter_id. Qed.

(** X18: the sanitizer works character by character.  Sanitizing a
    text that is put together from two pieces gives the sanitized
    pieces put together; the result is never longer than the input;
    and a prefix of a sanitized text is clean, so sanitizing it again
    changes nothing. *)
Theorem sanitize_text_piecewise (a b : str) (n : nat) :
  sanitize (Some (a ++ b)) = sanitize (Some a) ++ sanitize (Some b)
  /\ (List.length (sanitize (Some a)) <= List.length a)%nat
  /\ sanitize (Some (firstn n (sanitize (Some a))))
     = firstn n (sanitize (Some a)).
Proof.
  split; [|split].
  - rewrite !sanitize_filter. apply filter_app.
  - rewrite sanitize_filter. apply filter_length_le.
  - apply sanitize_clean, is_clean_firstn, sanitize_is_clean.
Qed.

End Sanitizer.
End SanitizerMoreFacts.

(* ================================================================= *)
(** ** Fetching GitHub data *)

Module GitHubFetchFacts.
Import Utils GitHubService RankerFacts SanitizerMoreFacts PyFacts.
#[local] Open Scope Z_scope.

Section WithGitHub.
Variable isprintable : char -> bool.
Variable utf8_decode_ignore : list Byte.byte -> str.
Variable isoformat : Z -> str.
Variable api : Repository -> RepoApi.

#[local] Abbreviation sanitize := (sanitize_text isprintable).
#[local] Abbreviation extract :=
  (_extract_repo_data isprintable utf8_decode_ignore isoformat api).

(** X19: what is extracted is clean.  The description of a repository
    and the name, bio and location of a profile come out with no
    character that the sanitizer removes, the description as the empty
    string when the repository has none; a README preview is there
    exactly when the README could be read, is clean and has at most
    2000 characters; sanitizing a description or a preview again, as
    the prompt builder does, changes nothing.  A repository has no
    [updated_at] exactly when it was never pushed to. *)
Theorem extracted_data_is_clean (repo : Repository) (user : User) :
  let d := extract repo in
  let p := _extract_profile isprintable user in
  is_clean isprintable (data_description d) = true
  /\ sanitize (Some (data_description d)) = data_description d
  /\ (description repo = None -> data_description d = [])
  /\ (forall readme, data_readme d = Some readme ->
        is_clean isprintable readme = true
        /\ (List.length readme <= 2000)%nat
        /\ sanitize (Some readme) = readme)
  /\ (data_readme d = None <-> get_readme (api repo) = None)
  /\ (data_updated_at d = None <-> pushed_at repo = None)
  /\ is_clean isprintable (profile_name p) = true
  /\ is_clean isprintable (profile_bio p) = true
  /\ is_clean isprintable (profile_location p) = true.
Proof.
  cbv zeta. unfold _extract_repo_data, _extract_profile.
  cbn [data_description data_readme data_updated_at profile_name profile_bio
         profile_location].
  repeat match goal with |- _ /\ _ => split end;
    try apply sanitize_is_clean.
  - apply sanitize_clean, sanitize_is_clean.
  - now intros ->.
  - destruct (get_readme (api repo)) as [decoded_content|]; [|discriminate].
    intros readme H.
    assert (Hr : readme = firstn README_PREVIEW_LENGTH
                            (sanitize (Some (utf8_decode_ignore decoded_content))))
      by congruence.
    rewrite Hr. split; [|split].
    + apply is_clean_firstn, sanitize_is_clean.
    + apply firstn_le_length.
    + apply sanitize_clean, is_clean_firstn, sanitize_is_clean.
  - destruct (get_readme (api repo)); split; intros H;
      try discriminate H; reflexivity.
  - destruct (pushed_at repo); cbn [option_map]; split; intros H;
      try discriminate H; reflexivity.
Qed.

Variable get_user : str -> result GithubException User.
Variable get_repos : User -> result GithubException (list Repository).
Variable clock : nat -> Z.

#[local] Abbreviation fetch :=
  (fetch_user_data isprintable utf8_decode_ignore isoformat get_user get_repos
     api clock).
#[local] Abbreviation route :=
  (fetch_github_data isprintable utf8_decode_ignore isoformat get_user
     get_repos api clock).



Lemma not_found_message (username : str) :
  contains (ascii_lower (py "GitHub user '" ++ username ++ py "' not found"))
    (py "not found") = true.
Proof.
  unfold ascii_lower. rewrite !map_app.
  apply contains_app_r, contains_app_r. reflexivity.
Qed.

(** X21: how the route reports errors of GitHub.  Without a fresh
    cache entry, a 404 for the user becomes the user-not-found error
    for the stripped user name, whatever that name is, and a 403
    becomes the API error with the rate-limit message; the cache row
    is left as it was. *)
Theorem github_errors_surface
    (cached : option GitHubData) (now later new_id : Z) (username : str)
    (e : GithubException) :
  (forall row, cached = Some row -> cache_expires_at row <= now) ->
  get_user (strip username) = Err e ->
  (status e = 404 ->
   route cached now later new_id username
   = (Err (GitHubUserNotFoundError (strip username)), cached))
  /\ (status e = 403 ->
      route cached now later new_id username
      = (Err (GitHubAPIError
                (py "GitHub API rate limit exceeded. Please try again later.")),
         cached)).
Proof.
  intros Hstale He.
  assert (Hfresh : forall row,
            cached = Some row -> (now <? cache_expires_at row) = false).
  { intros row Hr. apply Z.ltb_ge. now apply Hstale. }
  unfold fetch_github_data, fetch_user_data. rewrite He.
  split; intros Hs; unfold error_raised; rewrite Hs; cbn [Z.eqb Pos.eqb];
    try rewrite not_found_message;
    destruct cached as [row|]; try rewrite (Hfresh row eq_refl); reflexivity.
Qed.

(** X22: the cache.  A row holds for 24 hours from the instant that
    [get_cache_expiry] read: after a fetch that succeeded the row
    holds the fetched profile and repositories, and every request
    before its expiry is answered from it, marked as cached, without
    a word to GitHub, whatever GitHub would have said. *)
Theorem cache_answers_for_a_day
    (cached : option GitHubData) (now later new_id : Z) (username : str)
    (profile : Profile) (repos : list RepoData) :
  (forall row, cached = Some row -> cache_expires_at row <= now) ->
  fetch (strip username) = Ok (profile, repos) ->
  exists row,
    snd (route cached now later new_id username) = Some row
    /\ profile_data row = profile
    /\ repositories row = repos
    /\ row_username row = strip username
    /\ cache_expires_at row = later + 24 * 3600 * 1000000
    /\ fst (route cached now later new_id username) = _build_response row false
    /\ forall get_user' get_repos' api' clock' now' later' new_id' username',
         now' < later + 24 * 3600 * 1000000 ->
         fetch_github_data isprintable utf8_decode_ignore isoformat get_user'
           get_repos' api' clock' (Some row) now' later' new_id' username'
         = (_build_response row true, Some row).
Proof.
  intros Hstale Hf.
  assert (Hfresh : forall row,
            cached = Some row -> (now <? cache_expires_at row) = false).
  { intros row Hr. apply Z.ltb_ge. now apply Hstale. }
  unfold fetch_github_data. rewrite Hf.
  exists (mkGitHubData
            (match cached with Some old => row_id old | None => new_id end)
            (strip username) profile repos (get_cache_expiry later)).
  split.
  - destruct cached as [row|]; [rewrite (Hfresh row eq_refl)|]; reflexivity.
  - cbn [profile_data repositories row_username cache_expires_at].
    repeat split.
    + destruct cached as [row|]; [rewrite (Hfresh row eq_refl)|]; reflexivity.
    + intros get_user' get_repos' api' clock' now' later' new_id' username' Hn.
      apply Z.ltb_lt in Hn. unfold get_cache_expiry, CACHE_DURATION_HOURS.
      now rewrite Hn.
Qed.

Lemma api_error_words (message : str) :
  contains (ascii_lower (py "GitHub API error: " ++ message)) (py "not found")
  = contains (ascii_lower message) (py "not found").
Proof.
  unfold ascii_lower. rewrite map_app.
  set (m := List.map lower_char message).
  let l := eval vm_compute in (List.map lower_char (py "GitHub API error: ")) in
  change (List.map lower_char (py "GitHub API error: ")) with l.
  cbn [List.app].
  repeat (rewrite contains_miss by reflexivity). reflexivity.
Qed.

(** X23: the route tells a missing user by the words of the message.
    Without a fresh cache entry, an error of GitHub with a status
    other than 404 and 403, raised for the user or for the list of
    repositories, is reported as user not found when its own message
    holds the words [not found] in any letter case, and as an API
    error with that message otherwise.  When the exception has no
    data the service raises an [AttributeError], which the route does
    not catch: it leaves the handler as it is.  The cache row stays
    as it was in each case. *)
Theorem github_error_told_by_its_words
    (cached : option GitHubData) (now later new_id : Z) (username : str)
    (e : GithubException) :
  (forall row, cached = Some row -> cache_expires_at row <= now) ->
  (get_user (strip username) = Err e
   \/ exists user, get_user (strip username) = Ok user
                   /\ get_repos user = Err e) ->
  status e <> 404 -> status e <> 403 ->
  route cached now later new_id username
  = (match data_message e with
     | Some message =>
         if contains (ascii_lower message) (py "not found")
         then Err (GitHubUserNotFoundError (strip username))
         else Err (GitHubAPIError (py "GitHub API error: " ++ message))
     | None => Err UncaughtAttributeError
     end,
     cached).
Proof.
  intros Hstale He H4 H3.
  assert (Hfresh : forall row,
            cached = Some row -> (now <? cache_expires_at row) = false).
  { intros row Hr. apply Z.ltb_ge. now apply Hstale. }
  assert (Hf : fetch (strip username)
               = Err (match data_message e with
                      | Some message =>
                          ValueError (py "GitHub API error: " ++ message)
                      | None => AttributeError
                      end)).
  { unfold fetch_user_data, error_raised.
    apply Z.eqb_neq in H4, H3.
    destruct He as [He | (user & Hu & He)].
    - now rewrite He, H4, H3.
    - now rewrite Hu, He, H4, H3. }
  unfold fetch_github_data. rewrite Hf.
  destruct (data_message e) as [message|].
  - rewrite api_error_words.
    destruct cached as [row|]; [rewrite (Hfresh row eq_refl)|];
      now destruct (contains _ _).
  - destruct cached as [row|]; [rewrite (Hfresh row eq_refl)|]; reflexivity.
Qed.

End WithGitHub.

Lemma extracted_data_is_clean_witness :
  data_readme (_extract_repo_data ascii_isprintable ascii_decode
                 example_isoformat example_api never_pushed)
  = Some (py "Hi!")
  /\ is_clean ascii_isprintable (py "Hi!") = true
  /\ (List.length (py "Hi!") <= 2000)%nat
  /\ sanitize_text ascii_isprintable (Some (py "Hi!")) = py "Hi!".
Proof.
  pose proof (extracted_data_is_clean ascii_isprintable ascii_decode
                example_isoformat example_api never_pushed example_user) as H.
  cbv zeta in H. destruct H as (_ & _ & _ & Hreadme & _).
  split; [reflexivity|]. apply Hreadme. reflexivity.
Defined.


Lemma github_errors_surface_witness :
  fetch_github_data ascii_isprintable ascii_decode example_isoformat
    example_get_user example_get_repos example_api (fun _ => 0)
    None 0 0 1 (py " nobody ")
  = (Err (GitHubUserNotFoundError (py "nobody")), None)
  /\ fetch_github_data ascii_isprintable ascii_decode example_isoformat
       limited_get_user example_get_repos example_api (fun _ => 0)
       (Some (example_row [])) 5 5 1 (py "octo")
     = (Err (GitHubAPIError
               (py "GitHub API rate limit exceeded. Please try again later.")),
        Some (example_row [])).
Proof.
  split.
  - apply (github_errors_surface ascii_isprintable ascii_decode
             example_isoformat example_api example_get_user example_get_repos
             (fun _ => 0) None 0 0 1 (py " nobody ")
             (mkGithubException 404 (Some (py "Not Found")))).
    + discriminate.
    + reflexivity.
    + reflexivity.
  - apply (github_errors_surface ascii_isprintable ascii_decode
             example_isoformat example_api limited_get_user example_get_repos
             (fun _ => 0) (Some (example_row [])) 5 5 1 (py "octo")
             (mkGithubException 403 (Some (py "API rate limit exceeded")))).
    + intros row [= <-]. cbn. lia.
    + reflexivity.
    + reflexivity.
Defined.

Lemma cache_answers_for_a_day_witness :
  exists row,
    snd (fetch_github_data ascii_isprintable ascii_decode example_isoformat
           example_get_user example_get_repos example_api (fun _ => 0)
           None 0 7 1 (py "octo "))
    = Some row
    /\ cache_expires_at row = 86400000007
    /\ fetch_github_data ascii_isprintable ascii_decode example_isoformat
         limited_get_user example_get_repos example_api (fun _ => 0)
         (Some row) 86400000006 86400000006 2 (py "octo")
       = (_build_response row true, Some row).
Proof.
  destruct (cache_answers_for_a_day ascii_isprintable ascii_decode
              example_isoformat example_api example_get_user example_get_repos
              (fun _ => 0) None 0 7 1 (py "octo ")
              (_extract_profile ascii_isprintable example_user)
              (List.map (_extract_repo_data ascii_isprintable ascii_decode
                           example_isoformat example_api)
                 [example_repo 0; never_pushed]))
    as (row & Hrow & _ & _ & _ & Hexp & _ & Hhit).
  - discriminate.
  - reflexivity.
  - exists row. split; [exact Hrow|]. split; [exact Hexp|].
    apply Hhit. lia.
Defined.

Lemma github_error_told_by_its_words_witness :
  fetch_github_data ascii_isprintable ascii_decode example_isoformat
    (fun _ => Err (mkGithubException 500 (Some (py "Upstream: Not Found"))))
    example_get_repos example_api (fun _ => 0) None 0 0 1 (py "octo")
  = (Err (GitHubUserNotFoundError (py "octo")), None)
  /\ fetch_github_data ascii_isprintable ascii_decode example_isoformat
       (fun _ => Err (mkGithubException 500 None))
       example_get_repos example_api (fun _ => 0) None 0 0 1 (py "octo")
     = (Err UncaughtAttributeError, None).
Proof.
  split.
  - apply (github_error_told_by_its_words ascii_isprintable ascii_decode
             example_isoformat example_api
             (fun _ =>
                Err (mkGithubException 500 (Some (py "Upstream: Not Found"))))
             example_get_repos (fun _ => 0) None 0 0 1 (py "octo")
             (mkGithubException 500 (Some (py "Upstream: Not Found")))).
    + discriminate.
    + left. reflexivity.
    + cbn. lia.
    + cbn. lia.
  - apply (github_error_told_by_its_words ascii_isprintable ascii_decode
             example_isoformat example_api
             (fun _ => Err (mkGithubException 500 None))
             example_get_repos (fun _ => 0) None 0 0 1 (py "octo")
             (mkGithubException 500 None)).
    + discriminate.
    + left. reflexivity.
    + cbn. lia.
    + cbn. lia.
Defined.

Lemma repo_summaries_length (repos : list RepoData) (top : list GitHubRepoSummary) :
  repo_summaries repos = Some top -> List.length top = List.length repos.
Proof.
  revert top. induction repos as [|r repos IH]; intros top; simpl.
  - now intros [= <-].
  - destruct (repo_summary r); [|discriminate].
    destruct (repo_summaries repos); [|discriminate].
    intros [= <-]. simpl. now rewrite (IH _ eq_refl).
Qed.

Lemma repo_summaries_some (repos : list RepoData) :
  (exists top, repo_summaries repos = Some top)
  <-> Forall (fun r => data_updated_at r <> None) repos.
Proof.
  induction repos as [|r repos IH]; simpl.
  - split; [constructor | eauto].
  - unfold repo_summary at 1. split.
    + intros [top H]. destruct (data_updated_at r) eqn:E; [|discriminate].
      destruct (repo_summaries repos) eqn:Er; [|discriminate].
      constructor; [congruence | apply IH; eauto].
    + intros H. inversion H as [|? ? Hr Hrest]; subst.
      apply IH in Hrest as [top Ht]. rewrite Ht.
      destruct (data_updated_at r); [eauto | congruence].
Qed.

(** X24: the response of the route.  It is built exactly when each of
    the first five stored repositories has an [updated_at]; it then
    counts all stored repositories and lists the first five of them,
    fewer when fewer are stored.  One repository among them that was
    never pushed to makes the response fail. *)
Theorem build_response_needs_push_times (row : GitHubData) (cached : bool) :
  ((exists response, _build_response row cached = Ok response)
   <-> Forall (fun r => data_updated_at r <> None)
         (firstn 5 (repositories row)))
  /\ (forall response, _build_response row cached = Ok response ->
        repository_count response = N.of_nat (List.length (repositories row))
        /\ List.length (top_repositories response)
           = Nat.min 5 (List.length (repositories row))
        /\ response_cached response = cached
        /\ response_profile response = profile_data row)
  /\ (forall r, In r (firstn 5 (repositories row)) ->
        data_updated_at r = None ->
        _build_response row cached = Err ResponseValidationError).
Proof.
  unfold _build_response. split; [|split].
  - rewrite <- repo_summaries_some. split.
    + intros [response H].
      destruct (repo_summaries (firstn 5 (repositories row))); [eauto | discriminate].
    + intros [top H]. rewrite H. eauto.
  - intros response H.
    destruct (repo_summaries (firstn 5 (repositories row))) as [top|] eqn:E;
      [|discriminate].
    injection H as <-. cbn. repeat split.
    rewrite (repo_summaries_length _ _ E). apply length_firstn.
  - intros r Hin Hnone.
    destruct (repo_summaries (firstn 5 (repositories row))) as [top|] eqn:E;
      [|reflexivity].
    assert (Hall : Forall (fun r => data_updated_at r <> None)
                     (firstn 5 (repositories row)))
      by (apply repo_summaries_some; eauto).
    rewrite Forall_forall in Hall. now elim (Hall r Hin).
Qed.

Lemma build_response_needs_push_times_witness :
  _build_response (example_row [example_repo 0; never_pushed]) false
  = Err ResponseValidationError
  /\ forall response,
       _build_response (example_row [example_repo 0]) true = Ok response ->
       repository_count response = 1%N.
Proof.
  split.
  - apply (proj2 (proj2 (build_response_needs_push_times
                           (example_row [example_repo 0; never_pushed]) false))
             (_extract_repo_data ascii_isprintable ascii_decode
                example_isoformat example_api never_pushed)).
    + right. left. reflexivity.
    + reflexivity.
  - intros response H.
    exact (proj1 (proj1 (proj2 (build_response_needs_push_times
                                  (example_row [example_repo 0]) true))
                    response H)).
Defined.

End GitHubFetchFacts.

(* ================================================================= *)
(** ** The upload route *)

Module UploadRouteFacts.
Import Codec Parsers ParserFactory ResumeRoutes PyFacts StripFacts ParserFacts
  TextParserFacts PdfParseFacts.

Lemma preview_text (t : str) :
  t <> [] -> preview (Some t) = Some (firstn 500 t).
Proof. destruct t; [congruence | reflexivity]. Qed.

Section WithLibraries.
Variables (path_suffix : str -> str) (lower : str -> str).
Variable lossy : list Byte.byte -> str.
Variable open_pdf : list Byte.byte -> option PDFParser.PdfReader.
Variable _extract_text : str -> str.
Variable pdfplumber_pages : list Byte.byte -> option (list str).
Variable pypdf_pages : list Byte.byte -> option (list str).
Variable max_upload_size_bytes : N.

#[local] Abbreviation checks :=
  (upload_resume_checks path_suffix lower lossy open_pdf max_upload_size_bytes).
#[local] Abbreviation parse :=
  (ResumeRoutes.parse lossy _extract_text pdfplumber_pages pypdf_pages).
#[local] Abbreviation upload :=
  (upload_resume path_suffix lower lossy open_pdf _extract_text
     pdfplumber_pages pypdf_pages max_upload_size_bytes).

Lemma checks_ok (filename : str) (content : list Byte.byte) (p : parser) :
  fst (checks filename content) = Ok p ->
  get_parser path_suffix lower filename = Some p
  /\ len content <= max_upload_size_bytes
  /\ is_valid (validate_file path_suffix lower lossy open_pdf p content filename)
     = true.
Proof.
  unfold upload_resume_checks, is_supported.
  destruct (get_parser path_suffix lower filename) as [q|]; simpl;
    [|discriminate].
  destruct (max_upload_size_bytes <? len content) eqn:Es; [discriminate|].
  apply N.ltb_ge in Es.
  destruct (is_valid (validate_file _ _ _ _ q content filename)) eqn:Ev; simpl;
    [|discriminate].
  intros [= <-]. auto.
Qed.

Lemma pdf_text (content : list Byte.byte) (filename : str) (r : ParseResult) :
  PDFParser.parse pdfplumber_pages pypdf_pages content filename = Ok r ->
  text r <> [] /\ strip (text r) = text r.
Proof.
  assert (Hp : forall r, PDFParser._parse_with_pdfplumber pdfplumber_pages content
                         = Ok r -> PDFParser.well_extracted r).
  { intros r'. unfold PDFParser._parse_with_pdfplumber.
    destruct (pdfplumber_pages content); [apply extraction_shape | discriminate]. }
  assert (Hs : forall r, PDFParser._parse_with_pypdf pypdf_pages content
                         = Ok r -> PDFParser.well_extracted r).
  { intros r'. unfold PDFParser._parse_with_pypdf.
    destruct (pypdf_pages content); [apply extraction_shape | discriminate]. }
  unfold PDFParser.parse.
  destruct (PDFParser._parse_with_pdfplumber _ _) as [r1|e1].
  - intros [= <-]. destruct (Hp r1 eq_refl) as (A & B & _). auto.
  - destruct (PDFParser._parse_with_pypdf _ _) as [r2|e2]; [|discriminate].
    intros [= <-]. destruct (Hs r2 eq_refl) as (A & B & _). auto.
Qed.

Lemma markdown_text (content : list Byte.byte) (filename : str) :
  is_valid (MarkdownParser.validate_file path_suffix lower lossy content filename)
  = true ->
  exists r, MarkdownParser.parse lossy content filename = Ok r
            /\ text r <> [] /\ strip (text r) = text r.
Proof.
  unfold MarkdownParser.validate_file, MarkdownParser.parse,
    MarkdownParser._decode_content.
  rewrite decode_chain.
  destruct (BaseParser.can_handle _ _ _ _); simpl; [|discriminate].
  destruct content as [|b content]; [discriminate|].
  destruct (MarkdownParser.MAX_FILE_SIZE <? len (b :: content)); [discriminate|].
  set (t := MarkdownSpec.first_lossless (b :: content)).
  destruct (truthy_str (strip t)) eqn:Et; simpl; [|discriminate].
  intros _. eexists. split; [reflexivity|]. unfold new_ParseResult. simpl.
  rewrite <- clean_text_truthy in Et. split.
  - intros E. rewrite E in Et. discriminate.
  - unfold MarkdownParser._clean_text. apply strip_idem.
Qed.

(** The shape of every outcome of the route. *)
Lemma upload_shape (new_id : Z) (filename : str) (content : list Byte.byte) :
  let name := if truthy_str filename then filename else py "unknown" in
  let file_ext :=
    if truthy_str filename then lower (last_part filename) else py "unknown" in
  (exists e, upload new_id filename content = (Err (BeforeRecord e), None))
  \/ (exists p t,
        get_parser path_suffix lower filename = Some p
        /\ len content <= max_upload_size_bytes
        /\ upload new_id filename content
           = (Ok (mkResumeUploadResponse new_id name file_ext (len content)
                    PARSED (preview (Some t))),
              Some (mkResumeUpload new_id name file_ext (len content) (Some t)
                      PARSED None))
        /\ (p <> LaTeX -> t <> [] /\ strip t = t)
        /\ (p = LaTeX -> t = _extract_text (MarkdownSpec.first_lossless content)))
  \/ (get_parser path_suffix lower filename = Some PDF
      /\ upload new_id filename content
         = (Err (FailedToParseFile (PdfFailure PDFParser.FailedToParsePDF)),
            Some (mkResumeUpload new_id name file_ext (len content) None FAILED
                    (Some (ParseFailure
                             (PdfFailure PDFParser.FailedToParsePDF)))))).
Proof.
  cbv zeta. unfold upload_resume.
  destruct (fst (checks filename content)) as [p|e] eqn:Ec; [|left; eauto].
  right. apply checks_ok in Ec as (Hp & Hsize & Hv).
  destruct p; unfold ResumeRoutes.parse.
  - destruct (PDFParser.parse pdfplumber_pages pypdf_pages content filename)
      as [r|e] eqn:Er.
    + left. exists PDF, (text r). repeat split; try assumption.
      * now apply pdf_text in Er.
      * now apply pdf_text in Er.
      * discriminate.
    + right. split; [assumption|].
      assert (e = PDFParser.FailedToParsePDF) as ->; [|reflexivity].
      revert Er. unfold PDFParser.parse.
      destruct (PDFParser._parse_with_pdfplumber _ _); [discriminate|].
      destruct (PDFParser._parse_with_pypdf _ _); [discriminate|].
      now intros [= <-].
  - left. cbn [validate_file] in Hv.
    apply markdown_text in Hv as (r & Hr & Ht & Hs). rewrite Hr.
    exists Markdown, (text r). repeat split; try assumption. discriminate.
  - left. unfold LaTeXParser.parse, LaTeXParser._decode_content.
    rewrite decode_chain. cbn [Py.bind].
    exists LaTeX, (_extract_text (MarkdownSpec.first_lossless content)).
    split; [assumption|]. split; [assumption|]. split; [reflexivity|].
    split; [congruence | reflexivity].
Qed.

(** X25: what an upload leaves behind.  A response means a row with
    the status PARSED and a text, of a file that was not longer than
    the configured maximum; for a PDF and for a Markdown file that
    text is not empty and has no white space at its ends, and the
    preview is its first 500 characters; for a LaTeX file it is
    whatever the extraction gives for the decoded file.  After the
    checks only a PDF can fail to parse, and that leaves a row with
    the status FAILED and no text.  An error of the checks leaves no
    row. *)
Theorem upload_outcome (new_id : Z) (filename : str) (content : list Byte.byte) :
  (forall response row,
     upload new_id filename content = (Ok response, row) ->
     exists p t u,
       get_parser path_suffix lower filename = Some p
       /\ row = Some u
       /\ upload_id u = new_id
       /\ upload_status u = PARSED
       /\ raw_text u = Some t
       /\ file_size u = len content
       /\ len content <= max_upload_size_bytes
       /\ response_status response = PARSED
       /\ text_preview response = preview (Some t)
       /\ (p <> LaTeX ->
           t <> [] /\ strip t = t
           /\ text_preview response = Some (firstn 500 t))
       /\ (p = LaTeX ->
           t = _extract_text (MarkdownSpec.first_lossless content)))
  /\ (forall e row,
        upload new_id filename content = (Err (FailedToParseFile e), row) ->
        get_parser path_suffix lower filename = Some PDF
        /\ e = PdfFailure PDFParser.FailedToParsePDF
        /\ exists u, row = Some u
                     /\ upload_status u = FAILED
                     /\ raw_text u = None
                     /\ upload_error_message u = Some (ParseFailure e))
  /\ (forall e row,
        upload new_id filename content = (Err (BeforeRecord e), row) ->
        row = None).
Proof.
  destruct (upload_shape new_id filename content)
    as [[e0 H] | [(p & t & Hp & Hsize & H & Ht & Hl) | [Hp H]]];
    rewrite H; (split; [|split]).
  - discriminate.
  - discriminate.
  - now intros e row [= _ <-].
  - intros response row [= <- <-]. exists p, t. eexists.
    repeat split; try eassumption; try reflexivity.
    + now apply Ht.
    + now apply Ht.
    + cbn [text_preview]. apply preview_text. now apply Ht.
  - discriminate.
  - discriminate.
  - discriminate.
  - intros e row [= <- <-]. repeat split; try assumption. eexists.
    repeat split.
  - discriminate.
Qed.

End WithLibraries.

Lemma upload_outcome_witness :
  upload_resume posix_suffix ascii_lower (fun _ => []) (fun _ => None)
    (fun t => t) (fun _ => None) (fun _ => None) 10485760 1 (py "cv.MD")
    example_markdown
  = (Ok (mkResumeUploadResponse 1 (py "cv.MD") (py "md") 6 PARSED
           (Some (py "# Ada"))),
     Some (mkResumeUpload 1 (py "cv.MD") (py "md") 6 (Some (py "# Ada"))
             PARSED None))
  /\ exists p t u,
       get_parser posix_suffix ascii_lower (py "cv.MD") = Some p
       /\ Some (mkResumeUpload 1 (py "cv.MD") (py "md") 6 (Some (py "# Ada"))
                  PARSED None) = Some u
       /\ raw_text u = Some t
       /\ (p <> LaTeX -> t <> [] /\ strip t = t).
Proof.
  assert (H : upload_resume posix_suffix ascii_lower (fun _ => [])
                (fun _ => None) (fun t => t) (fun _ => None) (fun _ => None)
                10485760 1 (py "cv.MD") example_markdown
              = (Ok (mkResumeUploadResponse 1 (py "cv.MD") (py "md") 6 PARSED
                       (Some (py "# Ada"))),
                 Some (mkResumeUpload 1 (py "cv.MD") (py "md") 6
                         (Some (py "# Ada")) PARSED None)))
    by reflexivity.
  split; [exact H|].
  destruct (proj1 (upload_outcome posix_suffix ascii_lower (fun _ => [])
                     (fun _ => None) (fun t => t) (fun _ => None)
                     (fun _ => None) 10485760 1 (py "cv.MD") example_markdown)
              _ _ H)
    as (p & t & u & Hp & Hu & _ & _ & Ht & _ & _ & _ & _ & Hn & _).
  exists p, t, u. repeat split; try assumption; now apply Hn.
Defined.

End UploadRouteFacts.

(* ================================================================= *)
(** ** The structure route *)

Module StructureRouteFacts.
Import Json Schema LLMService ResumeRoutes.

Section WithService.
Variable json_loads : str -> option json.
Variable validate_email : str -> option str.
Variable isprintable : char -> bool.
Variable repr : json -> str.
Variable prompt_file : option str.
Variable default_prompt : str.
Variable complete : str -> str -> result str str.
Variable find_upload : Z -> option ResumeUpload.
Variable find_github : Z -> option GitHubService.GitHubData.

#[local] Abbreviation route :=
  (ResumeRoutes.structure_resume json_loads validate_email isprintable repr
     prompt_file default_prompt complete find_upload find_github).
#[local] Abbreviation service_run :=
  (LLMService.structure_resume json_loads validate_email isprintable repr
     prompt_file default_prompt complete).
#[local] Abbreviation build := (_build_user_prompt isprintable repr).
#[local] Abbreviation resume_of := (fetch_resume find_upload).
#[local] Abbreviation github_of := (fetch_github find_github).
#[local] Abbreviation untouched := (mkSession None None None false fresh_service).
#[local] Abbreviation system_prompt :=
  (match prompt_file with Some text => text | None => default_prompt end).

Lemma truthy_id_spec (i : option Z) :
  truthy_id i = true <-> exists z, i = Some z /\ z <> 0%Z.
Proof.
  destruct i as [z|]; simpl.
  - rewrite negb_true_iff, Z.eqb_neq. split.
    + intros H. now exists z.
    + now intros (z' & [= <-] & H).
  - split; [discriminate | intros (z & H & _); discriminate].
Qed.

Lemma resume_of_ok (request : StructureRequest)
    (resume_text : option str) (resume_upload : option ResumeUpload) :
  resume_of request = Ok (resume_text, resume_upload) ->
  (truthy_id (resume_upload_id request) = false
   /\ resume_text = None /\ resume_upload = None)
  \/ (exists z u,
        resume_upload_id request = Some z /\ z <> 0%Z
        /\ find_upload z = Some u
        /\ upload_status u = PARSED
        /\ resume_text = raw_text u
        /\ resume_upload = Some u).
Proof.
  unfold fetch_resume.
  destruct (truthy_id (resume_upload_id request)) eqn:Et.
  - apply truthy_id_spec in Et as (z & Hz & Hnz). rewrite Hz. simpl.
    destruct (find_upload z) as [u|] eqn:Eu; [|discriminate].
    destruct (upload_status u) eqn:Es; simpl; try discriminate.
    intros [= <- <-]. right. exists z, u. auto 7.
  - intros [= <- <-]. auto.
Qed.

Lemma github_of_ok (request : StructureRequest) (github : option dict) :
  github_of request = Ok github ->
  truthy_dict github = truthy_id (github_data_id request)
  /\ (truthy_id (github_data_id request) = true ->
      exists z g, github_data_id request = Some z /\ z <> 0%Z
                  /\ find_github z = Some g).
Proof.
  unfold fetch_github.
  destruct (truthy_id (github_data_id request)) eqn:Et.
  - apply truthy_id_spec in Et as (z & Hz & Hnz). rewrite Hz. simpl.
    destruct (find_github z) as [g|] eqn:Eg; [|discriminate].
    intros [= <-]. split; [reflexivity|]. intros _. now exists z, g.
  - intros [= <-]. split; [reflexivity | discriminate].
Qed.

(** The service, started afresh: without a source it does nothing;
    with one it calls the model once, with the prompt built from what
    it was given. *)
Lemma service_without_source (resume_text : option str) (github : option dict)
    (instructions : option str) (settings_ : option StructuringSettings) :
  truthy_text resume_text || truthy_dict github = false ->
  service_run resume_text github instructions settings_ fresh_service
  = (Err MissingDataSource, fresh_service).
Proof.
  intros H. unfold LLMService.structure_resume.
  now rewrite <- negb_orb, H.
Qed.

(** The prompt builder on the columns of a GitHub row: what the
    GitHub route stored has the shape that the builder reads, so that
    it raises nothing. *)
Lemma sanitize_value_str (s : str) :
  exists t, sanitize_value isprintable (JStr s) = Ok t.
Proof. unfold sanitize_value. destruct (truthy (JStr s)); simpl; eauto. Qed.

Lemma join_value_dump (sep : str) (l : list str) :
  join_value sep (dump_list l) = Ok (join sep l).
Proof.
  unfold join_value, dump_list, iterate.
  replace (traverse as_str (List.map JStr l)) with (Some l); [reflexivity|].
  induction l as [|x l IH]; simpl; [reflexivity|]. now rewrite <- IH.
Qed.

Lemma repo_lines_of_row (i : nat) (r : GitHubService.RepoData) :
  exists lines, repo_lines isprintable repr i (repo_json r) = Ok lines.
Proof.
  unfold repo_lines.
  change (subscript (repo_json r) "name")
    with (Ok (E := exn) (JStr (GitHubService.data_name r))).
  change (get (repo_json r) "description" JNull)
    with (Ok (E := exn) (JStr (GitHubService.data_description r))).
  change (get (repo_json r) "languages" (JArr []))
    with (Ok (E := exn) (dump_list (GitHubService.data_languages r))).
  change (get (repo_json r) "url" (JStr (py "N/A")))
    with (Ok (E := exn) (JStr (GitHubService.data_url r))).
  change (get (repo_json r) "stars" (JInt 0))
    with (Ok (E := exn) (JInt (GitHubService.data_stars r))).
  change (get (repo_json r) "readme" JNull)
    with (Ok (E := exn) (dump_opt (GitHubService.data_readme r))).
  change (subscript (repo_json r) "readme")
    with (Ok (E := exn) (dump_opt (GitHubService.data_readme r))).
  cbn [Py.bind].
  destruct (sanitize_value_str (GitHubService.data_description r)) as [d ->].
  cbn [Py.bind]. rewrite join_value_dump. cbn [Py.bind].
  destruct (GitHubService.data_readme r) as [readme|]; cbn [dump_opt].
  - destruct (truthy (JStr readme)); cbn [Py.bind]; [|eauto].
    destruct (sanitize_value_str readme) as [t ->]. cbn [Py.bind]. eauto.
  - cbn [truthy Py.bind]. eauto.
Qed.

Lemma repos_lines_of_rows (l : list GitHubService.RepoData) (i : nat) :
  exists lines,
    repos_lines isprintable repr i (List.map repo_json l) = Ok lines.
Proof.
  revert i. induction l as [|r l IH]; intros i; cbn [List.map repos_lines].
  - eauto.
  - destruct (repo_lines_of_row i r) as [lines ->]. cbn [Py.bind].
    destruct (IH (S i)) as [more ->]. cbn [Py.bind]. eauto.
Qed.

Lemma github_lines_of_row (g : GitHubService.GitHubData) :
  exists lines,
    github_lines isprintable repr
      [(py "profile", profile_json (GitHubService.profile_data g));
       (py "repositories",
        repositories_json (GitHubService.repositories g))]
    = Ok lines.
Proof.
  unfold github_lines.
  change (dict_get (py "profile") _)
    with (Some (profile_json (GitHubService.profile_data g))).
  change (dict_get (py "repositories") _)
    with (Some (repositories_json (GitHubService.repositories g))).
  cbv iota.
  set (p := GitHubService.profile_data g).
  change (get (profile_json p) "username" (JStr (py "N/A")))
    with (Ok (E := exn) (JStr (GitHubService.profile_username p))).
  change (get (profile_json p) "name" (JStr (py "N/A")))
    with (Ok (E := exn) (JStr (GitHubService.profile_name p))).
  change (get (profile_json p) "bio" (JStr (py "N/A")))
    with (Ok (E := exn) (JStr (GitHubService.profile_bio p))).
  change (get (profile_json p) "location" (JStr (py "N/A")))
    with (Ok (E := exn) (JStr (GitHubService.profile_location p))).
  change (get (profile_json p) "email" (JStr (py "N/A")))
    with (Ok (E := exn) (dump_opt (GitHubService.profile_email p))).
  cbn [Py.bind].
  destruct (sanitize_value_str (GitHubService.profile_name p)) as [n ->].
  cbn [Py.bind].
  destruct (sanitize_value_str (GitHubService.profile_bio p)) as [b ->].
  cbn [Py.bind].
  destruct (sanitize_value_str (GitHubService.profile_location p)) as [lo ->].
  cbn [Py.bind]. unfold repositories_json. cbn [iterate Py.bind].
  destruct (repos_lines_of_rows (GitHubService.repositories g) 1)
    as [lines ->].
  cbn [Py.bind]. eauto.
Qed.

Lemma prompt_builds_from_rows (request : StructureRequest)
    (github : option dict) (resume_text instructions : option str)
    (settings_ : option StructuringSettings) :
  github_of request = Ok github ->
  exists user_prompt,
    build resume_text github instructions settings_ = Ok user_prompt.
Proof.
  unfold fetch_github.
  destruct (truthy_id (github_data_id request)).
  - destruct (opt_bind (github_data_id request) find_github) as [g|];
      [|discriminate].
    intros [= <-]. unfold _build_user_prompt.
    destruct (github_lines_of_row g) as [lines ->]. cbn [Py.bind]. eauto.
  - intros [= <-]. unfold _build_user_prompt. cbn [Py.bind]. eauto.
Qed.

Lemma service_with_source (resume_text : option str) (github : option dict)
    (instructions : option str) (settings_ : option StructuringSettings)
    (user_prompt : str) :
  truthy_text resume_text || truthy_dict github = true ->
  build resume_text github instructions settings_ = Ok user_prompt ->
  model_calls (snd (service_run resume_text github instructions settings_
                      fresh_service))
  = [(system_prompt, user_prompt)]
  /\ fst (service_run resume_text github instructions settings_ fresh_service)
     <> Err MissingDataSource.
Proof.
  intros H Hb. split.
  - unfold LLMService.structure_resume.
    rewrite <- negb_orb, H. simpl negb. cbv iota.
    unfold _load_system_prompt, fresh_service. simpl. rewrite Hb.
    match goal with
    | |- context [complete ?a ?b] => destruct (complete a b) as [raw|m]
    end; simpl; [|reflexivity].
    now destruct (_parse_response json_loads validate_email (clean_content raw)).
  - now apply ServiceFacts.structure_resume_passes_guard.
Qed.

(** The four ways through the handler. *)
Lemma route_cases (new_id : Z) (request : StructureRequest) :
  (truthy_id (resume_upload_id request) = false
   /\ truthy_id (github_data_id request) = false
   /\ route new_id request = (Err (ValidationError NoDataSource), untouched))
  \/ (exists e, resume_of request = Err e
                /\ (forall le, e <> LLMServiceError le)
                /\ route new_id request = (Err e, untouched))
  \/ (exists e resume_text resume_upload,
        resume_of request = Ok (resume_text, resume_upload)
        /\ github_of request = Err e
        /\ (forall le, e <> LLMServiceError le)
        /\ route new_id request
           = (Err e, mkSession resume_upload None None false fresh_service))
  \/ (exists resume_text resume_upload github,
        resume_of request = Ok (resume_text, resume_upload)
        /\ github_of request = Ok github
        /\ truthy_id (resume_upload_id request)
           || truthy_id (github_data_id request) = true
        /\ (forall e llm_service,
              service_run resume_text github (custom_instructions request)
                (request_settings request) fresh_service
              = (Err e, llm_service) ->
              route new_id request
              = (Err (LLMServiceError e),
                 mkSession
                   (option_map (set_status FAILED (Some (StructureFailure e)))
                      (option_map (set_status STRUCTURING None) resume_upload))
                   None None false llm_service))
        /\ (forall structured_resume decision_log llm_service,
              service_run resume_text github (custom_instructions request)
                (request_settings request) fresh_service
              = (Ok (structured_resume, decision_log), llm_service) ->
              route new_id request
              = (Ok new_id,
                 mkSession
                   (option_map (set_status COMPLETED None)
                      (option_map (set_status STRUCTURING None) resume_upload))
                   (Some (new_StructuredResume new_id (resume_upload_id request)
                            (github_data_id request) structured_resume))
                   (new_DecisionLog new_id decision_log) true llm_service))).
Proof.
  unfold ResumeRoutes.structure_resume.
  destruct (negb (truthy_id (resume_upload_id request))
            && negb (truthy_id (github_data_id request))) eqn:Eg.
  { left. apply andb_true_iff in Eg as [A B].
    apply negb_true_iff in A, B. auto. }
  right.
  assert (Hsome : truthy_id (resume_upload_id request)
                  || truthy_id (github_data_id request) = true).
  { rewrite <- negb_orb in Eg. now apply negb_false_iff in Eg. }
  destruct (resume_of request) as [[resume_text resume_upload]|e] eqn:Er.
  2:{ left. exists e. repeat split. intros le ->. revert Er. unfold fetch_resume.
      destruct (truthy_id (resume_upload_id request)); [|discriminate].
      destruct (opt_bind (resume_upload_id request) find_upload) as [u|];
        [|discriminate].
      destruct (is_parsed (upload_status u)); discriminate. }
  right.
  destruct (github_of request) as [github|e] eqn:Eh.
  2:{ left. exists e, resume_text, resume_upload. repeat split.
      intros le ->. revert Eh. unfold fetch_github.
      destruct (truthy_id (github_data_id request)); [|discriminate].
      destruct (opt_bind (github_data_id request) find_github) as [g|];
        discriminate. }
  right. exists resume_text, resume_upload, github.
  repeat split; try assumption.
  - intros e llm_service ->. reflexivity.
  - intros structured_resume decision_log llm_service ->. reflexivity.
Qed.

Lemma set_status_status (s : UploadStatus) (e : option failure) (u : ResumeUpload) :
  upload_status (set_status s e u) = s.
Proof. reflexivity. Qed.

Lemma source_truthy (request : StructureRequest)
    (resume_text : option str) (resume_upload : option ResumeUpload)
    (github : option dict) :
  resume_of request = Ok (resume_text, resume_upload) ->
  github_of request = Ok github ->
  truthy_text resume_text || truthy_dict github = false ->
  truthy_dict github = false /\ truthy_id (github_data_id request) = false.
Proof.
  intros _ Hg H. apply orb_false_iff in H as [_ H].
  apply github_of_ok in Hg as [Hg _]. split; congruence.
Qed.

(** X26: what a request can leave behind.  Rows are stored and the
    session is committed exactly when the response is a success, and
    the success names the new row; a decision log is stored only with
    a resume.  The model is called at most once, and only after every
    row that the request names was found and the upload had the
    status PARSED, where an id of 0 names nothing; a request that is
    refused by the route itself reaches no model. *)
Theorem structure_route_outcomes (new_id : Z) (request : StructureRequest) :
  let r := fst (route new_id request) in
  let s := snd (route new_id request) in
  (r = Ok new_id <-> committed s = true)
  /\ (forall id, r = Ok id -> id = new_id)
  /\ (committed s = true <-> stored s <> None)
  /\ (stored_log s <> None -> stored s <> None)
  /\ (List.length (model_calls (service_after s)) <= 1)%nat
  /\ (model_calls (service_after s) <> [] ->
      (forall z, resume_upload_id request = Some z -> z <> 0%Z ->
         exists u, find_upload z = Some u /\ upload_status u = PARSED)
      /\ (forall z, github_data_id request = Some z -> z <> 0%Z ->
            exists g, find_github z = Some g))
  /\ (forall e, r = Err e -> (forall le, e <> LLMServiceError le) ->
        model_calls (service_after s) = []).
Proof.
  cbv zeta.
  destruct (route_cases new_id request)
    as [(A & B & H) | [(e & He & Hne & H) | [(e & t & u & Hr & Hg & Hne & H)
       | (t & u & g & Hr & Hg & Hsome & Herr & Hok)]]].
  1-3: rewrite H;
       cbn [fst snd committed stored stored_log service_after model_calls
              fresh_service List.length];
       repeat match goal with |- _ /\ _ => split end;
       [ split; [intros E; congruence | discriminate]
       | intros id E; congruence
       | split; [discriminate | intros E; now elim E]
       | auto
       | lia
       | intros E; now elim E
       | reflexivity ].
  assert (Hfound :
            (forall z, resume_upload_id request = Some z -> z <> 0%Z ->
               exists u, find_upload z = Some u /\ upload_status u = PARSED)
            /\ (forall z, github_data_id request = Some z -> z <> 0%Z ->
                  exists g, find_github z = Some g)).
  { split.
    - intros z Hz Hnz. apply resume_of_ok in Hr
        as [(Hf & _) | (z' & u' & Hz' & _ & Hu & Hs & _)].
      + rewrite Hz in Hf. simpl in Hf. apply negb_false_iff, Z.eqb_eq in Hf.
        contradiction.
      + rewrite Hz in Hz'. injection Hz' as <-. eauto.
    - intros z Hz Hnz. apply github_of_ok in Hg as [_ Hg].
      destruct Hg as (z' & g' & Hz' & _ & Hg').
      + apply truthy_id_spec. eauto.
      + rewrite Hz in Hz'. injection Hz' as <-. eauto. }
  destruct (prompt_builds_from_rows request g t (custom_instructions request)
              (request_settings request) Hg) as [user_prompt Hb].
  assert (Hcalls :
            truthy_text t || truthy_dict g = true ->
            model_calls (snd (service_run t g (custom_instructions request)
                                (request_settings request) fresh_service))
            = [(system_prompt, user_prompt)])
    by (intros Ht; now apply service_with_source).
  pose proof (service_without_source t g (custom_instructions request)
                (request_settings request)) as Hnone.
  destruct (service_run t g (custom_instructions request)
              (request_settings request) fresh_service)
    as [[[structured_resume decision_log]|e] llm_service] eqn:Es.
  - rewrite (Hok _ _ _ eq_refl).
    cbn [fst snd committed stored stored_log service_after].
    destruct (truthy_text t || truthy_dict g) eqn:Ht;
      [|discriminate (Hnone eq_refl)].
    cbn [snd] in Hcalls. rewrite (Hcalls eq_refl). cbn [List.length].
    repeat match goal with |- _ /\ _ => split end.
    + split; reflexivity.
    + intros id E. congruence.
    + split; [discriminate | reflexivity].
    + discriminate.
    + lia.
    + intros _. exact Hfound.
    + discriminate.
  - rewrite (Herr _ _ eq_refl).
    cbn [fst snd committed stored stored_log service_after].
    repeat match goal with |- _ /\ _ => split end.
    + split; discriminate.
    + discriminate.
    + split; [discriminate | intros E; now elim E].
    + auto.
    + destruct (truthy_text t || truthy_dict g) eqn:Ht.
      * cbn [snd] in Hcalls. rewrite (Hcalls eq_refl). cbn [List.length]. lia.
      * injection (Hnone eq_refl) as _ ->. cbn. lia.
    + intros _. exact Hfound.
    + intros e' E Hne. injection E as <-. now elim (Hne e).
Qed.

(** X27: an upload is structured once.  When a request that names an
    upload succeeds, the upload was parsed and is left, committed,
    with the status COMPLETED and its text as it was; a later request
    that names it is refused as not ready, whatever else it asks for
    and whatever the model would answer, and reaches no model. *)
Theorem an_upload_is_structured_once
    (new_id : Z) (request : StructureRequest) (id z : Z) :
  fst (route new_id request) = Ok id ->
  resume_upload_id request = Some z ->
  z <> 0%Z ->
  exists before after,
    find_upload z = Some before
    /\ upload_status before = PARSED
    /\ upload_after (snd (route new_id request)) = Some after
    /\ upload_status after = COMPLETED
    /\ raw_text after = raw_text before
    /\ upload_id after = upload_id before
    /\ committed (snd (route new_id request)) = true
    /\ forall json_loads' validate_email' isprintable' repr' prompt_file'
              default_prompt' complete' find_upload' find_github' new_id'
              (request' : StructureRequest),
         resume_upload_id request' = Some z ->
         find_upload' z = Some after ->
         ResumeRoutes.structure_resume json_loads' validate_email'
           isprintable' repr' prompt_file' default_prompt' complete'
           find_upload' find_github' new_id' request'
         = (Err (ValidationError (UploadNotReady COMPLETED)), untouched).
Proof.
  intros Hok Hz Hnz.
  destruct (route_cases new_id request)
    as [(A & B & H) | [(e & He & Hne & H) | [(e & t & u & Hr & Hg & Hne & H)
       | (t & u & g & Hr & Hg & Hsome & Herr & Hok')]]];
    try (rewrite H in Hok; discriminate).
  destruct (service_run t g (custom_instructions request)
              (request_settings request) fresh_service)
    as [[[structured_resume decision_log]|e] llm_service] eqn:Es.
  2:{ rewrite (Herr _ _ eq_refl) in Hok. discriminate. }
  rewrite (Hok' _ _ _ eq_refl). cbn [snd upload_after committed].
  apply resume_of_ok in Hr as [(Hf & _) | (z' & u' & Hz' & _ & Hu & Hs & _ & ->)].
  { rewrite Hz in Hf. simpl in Hf. apply negb_false_iff, Z.eqb_eq in Hf.
    contradiction. }
  rewrite Hz in Hz'. injection Hz' as <-.
  exists u', (set_status COMPLETED None (set_status STRUCTURING None u')).
  repeat split; try assumption.
  intros json_loads' validate_email' isprintable' repr' prompt_file'
    default_prompt' complete' find_upload' find_github' new_id' request'
    Hz' Hu'.
  unfold ResumeRoutes.structure_resume, fetch_resume.
  assert (Ht : truthy_id (resume_upload_id request') = true)
    by (apply truthy_id_spec; eauto).
  rewrite Ht, Hz'. cbn [negb andb opt_bind]. rewrite Hu'. reflexivity.
Qed.

(** X28: the text of the upload is the source.  For a request that
    names a parsed upload, and GitHub data that is there if it names
    any: when the text of the upload is not empty the prompt builder
    raises nothing on that text and the stored GitHub columns, the
    model is called once, with the prompt that it built, and the
    outcome is not the missing-source error; when the upload has no
    text, or an empty one, and no GitHub data is named, the service
    refuses for want of a source, although the request named one, and
    the upload is set to FAILED with no model consulted. *)
Theorem parsed_upload_is_the_source
    (new_id : Z) (request : StructureRequest) (z : Z)
    (u : ResumeUpload) (github : option dict) :
  resume_upload_id request = Some z ->
  z <> 0%Z ->
  find_upload z = Some u ->
  upload_status u = PARSED ->
  github_of request = Ok github ->
  (forall t, raw_text u = Some t -> t <> [] ->
     fst (route new_id request) <> Err (LLMServiceError MissingDataSource)
     /\ exists user_prompt,
          build (Some t) github (custom_instructions request)
            (request_settings request) = Ok user_prompt
          /\ model_calls (service_after (snd (route new_id request)))
             = [(system_prompt, user_prompt)])
  /\ (raw_text u = None \/ raw_text u = Some [] ->
      truthy_id (github_data_id request) = false ->
      route new_id request
      = (Err (LLMServiceError MissingDataSource),
         mkSession
           (Some (mkResumeUpload (upload_id u) (upload_filename u) (file_type u)
                    (file_size u) (raw_text u) FAILED
                    (Some (StructureFailure MissingDataSource))))
           None None false fresh_service)).
Proof.
  intros Hz Hnz Hu Hs Hg.
  assert (Hr : resume_of request = Ok (raw_text u, Some u)).
  { unfold fetch_resume.
    assert (Ht : truthy_id (resume_upload_id request) = true)
      by (apply truthy_id_spec; eauto).
    rewrite Ht, Hz. cbn [opt_bind]. now rewrite Hu, Hs. }
  destruct (route_cases new_id request)
    as [(A & B & H) | [(e & He & Hne & H) | [(e & t & u0 & Hr' & Hg' & Hne & H)
       | (t & u0 & g & Hr' & Hg' & Hsome & Herr & Hok)]]].
  - rewrite Hz in A. simpl in A. apply negb_false_iff, Z.eqb_eq in A.
    contradiction.
  - congruence.
  - congruence.
  - rewrite Hr in Hr'. injection Hr' as <- <-.
    rewrite Hg in Hg'. injection Hg' as <-.
    split.
    + intros t Ht Hne. rewrite Ht in *.
      assert (Htr : truthy_text (Some t) || truthy_dict github = true)
        by (destruct t; [congruence | reflexivity]).
      destruct (prompt_builds_from_rows request github (Some t)
                  (custom_instructions request) (request_settings request) Hg)
        as [user_prompt Hb].
      destruct (service_with_source (Some t) github (custom_instructions request)
                  (request_settings request) user_prompt Htr Hb)
        as [Hcalls Hguard].
      destruct (service_run (Some t) github (custom_instructions request)
                  (request_settings request) fresh_service)
        as [[[structured_resume decision_log]|e] llm_service] eqn:Es.
      * rewrite (Hok _ _ _ eq_refl).
        split; [discriminate | exists user_prompt; split; [exact Hb | exact Hcalls]].
      * rewrite (Herr _ _ eq_refl).
        split; [|exists user_prompt; split; [exact Hb | exact Hcalls]].
        cbn [fst] in *. congruence.
    + intros Hempty Hnog.
      assert (Htr : truthy_text (raw_text u) || truthy_dict github = false).
      { apply github_of_ok in Hg as [Hg _]. rewrite Hg, Hnog.
        now destruct Hempty as [-> | ->]. }
      rewrite (Herr _ _ (service_without_source _ _ _ _ Htr)).
      reflexivity.
Qed.

End WithService.

Lemma structure_route_outcomes_witness :
  fst (ResumeRoutes.structure_resume reads_example_response any_email
         Utils.ascii_isprintable no_repr None [] example_model example_uploads
         no_github 3 example_request) = Ok 3%Z
  /\ committed
       (snd (ResumeRoutes.structure_resume reads_example_response any_email
               Utils.ascii_isprintable no_repr None [] example_model
               example_uploads no_github 3 example_request)) = true.
Proof.
  assert (H : fst (ResumeRoutes.structure_resume reads_example_response
                     any_email Utils.ascii_isprintable no_repr None []
                     example_model example_uploads no_github 3
                     example_request) = Ok 3%Z) by reflexivity.
  split; [exact H|].
  exact (proj1 (proj1 (structure_route_outcomes reads_example_response
                         any_email Utils.ascii_isprintable no_repr None []
                         example_model example_uploads no_github 3
                         example_request)) H).
Defined.

Lemma an_upload_is_structured_once_witness :
  exists before after,
    example_uploads 7 = Some before
    /\ upload_status before = PARSED
    /\ upload_status after = COMPLETED
    /\ raw_text after = raw_text before
    /\ ResumeRoutes.structure_resume reads_example_response any_email
         Utils.ascii_isprintable no_repr None [] example_model
         (fun _ => Some after) no_github 4 example_request
       = (Err (ValidationError (UploadNotReady COMPLETED)),
          mkSession None None None false fresh_service).
Proof.
  destruct (an_upload_is_structured_once reads_example_response any_email
              Utils.ascii_isprintable no_repr None [] example_model
              example_uploads no_github 3 example_request 3 7)
    as (before & after & Hb & Hs & _ & Ha & Hr & _ & _ & Hagain).
  - reflexivity.
  - reflexivity.
  - discriminate.
  - exists before, after. repeat split; try assumption.
    apply Hagain; reflexivity.
Defined.

Lemma parsed_upload_is_the_source_witness :
  fst (ResumeRoutes.structure_resume reads_example_response any_email
         Utils.ascii_isprintable no_repr None [] example_model example_uploads
         no_github 3 example_request)
  <> Err (LLMServiceError MissingDataSource)
  /\ model_calls
       (service_after
          (snd (ResumeRoutes.structure_resume reads_example_response any_email
                  Utils.ascii_isprintable no_repr None [] example_model
                  example_uploads no_github 3 example_request)))
     = [([], example_user_prompt)].
Proof.
  destruct (proj1 (parsed_upload_is_the_source reads_example_response any_email
                     Utils.ascii_isprintable no_repr None [] example_model
                     example_uploads no_github 3 example_request 7
                     example_upload None eq_refl ltac:(discriminate) eq_refl
                     eq_refl eq_refl)
              (py "# Ada") eq_refl ltac:(discriminate))
    as (Hne & user_prompt & Hb & Hcalls).
  split; [exact Hne|]. rewrite Hcalls. f_equal. f_equal.
  vm_compute in Hb. injection Hb as <-. reflexivity.
Defined.

End StructureRouteFacts.

(* ================================================================= *)
(** ** Reading a stored resume back *)

Module ReadBackFacts.
Import Json Schema LLMService ResumeRoutes StripFacts.

(** Look a key up in a dumped model. *)
Ltac lookup :=
  cbn [dict_get str_eqb py List.map list_ascii_of_string N_of_ascii N.eqb
         Pos.eqb andb N_of_digits N.add N.mul Pos.add Pos.mul Pos.succ].

(** Take a chain of field validations that succeeded apart. *)
Ltac unchain H :=
  repeat match type of H with
         | opt_bind ?o _ = Some _ =>
             let a := fresh "a" in
             let E := fresh "E" in
             destruct o as [a|] eqn:E; cbn [opt_bind] in H;
             [|discriminate H]
         end.

Lemma lower_char_idem (c : char) : lower_char (lower_char c) = lower_char c.
Proof.
  unfold lower_char.
  destruct ((65 <=? c) && (c <=? 90))%N eqn:E; [|now rewrite E].
  apply andb_true_iff in E as [A B]. apply N.leb_le in A, B.
  destruct ((65 <=? c + 32) && (c + 32 <=? 90))%N eqn:E2; [|reflexivity].
  apply andb_true_iff in E2 as [_ B2]. apply N.leb_le in B2. lia.
Qed.

Lemma ascii_lower_idem (s : str) : ascii_lower (ascii_lower s) = ascii_lower s.
Proof.
  unfold ascii_lower. rewrite map_map. apply map_ext. apply lower_char_idem.
Qed.

(** A word that a vocabulary validator returned is one that it takes,
    and returns as it is. *)
Lemma one_of_fixed (allowed : list string) (v w : str) :
  one_of allowed v = Some w -> one_of allowed w = Some w.
Proof.
  unfold one_of.
  destruct (existsb (fun a => str_eqb (ascii_lower v) (py a)) allowed) eqn:E;
    [|discriminate].
  intros [= <-]. now rewrite ascii_lower_idem, E.
Qed.

Lemma traverse_dump (l : list str) : traverse as_str (List.map JStr l) = Some l.
Proof. induction l as [|a l IH]; simpl; [reflexivity|]. now rewrite IH. Qed.

Lemma as_list_dump (l : list str) : as_list as_str (dump_list l) = Some l.
Proof. apply traverse_dump. Qed.

Lemma optional_dump (v : option str) :
  match dump_opt v with
  | JNull => Some None
  | _ => option_map Some (as_str (dump_opt v))
  end = Some v.
Proof. now destruct v. Qed.

Lemma traverse_images {A B} (f : A -> option B) (l : list A) (bs : list B) :
  traverse f l = Some bs -> Forall (fun b => exists a, f a = Some b) bs.
Proof.
  revert bs. induction l as [|a l IH]; simpl; intros bs.
  - intros [= <-]. constructor.
  - destruct (f a) as [b|] eqn:Ea; [|discriminate].
    destruct (traverse f l) as [bs'|]; [|discriminate].
    intros [= <-]. constructor; eauto.
Qed.

Lemma traverse_load {A} (f : dict -> option A) (dump : A -> dict) (l : list A) :
  Forall (fun x => f (dump x) = Some x) l ->
  traverse f (List.map dump l) = Some l.
Proof.
  induction 1 as [|x l Hx _ IH]; simpl; [reflexivity|]. now rewrite Hx, IH.
Qed.

Lemma load_all_dumps {A} (f : dict -> option A) (dump : A -> dict) (l : list A) :
  Forall (fun x => f (dump x) = Some x) l ->
  load_all f (dumps_or_none dump l) = Some l.
Proof.
  intros H. destruct l as [|x l]; [reflexivity|].
  exact (traverse_load f dump (x :: l) H).
Qed.

(** *** Each model validates from its own dump *)

Lemma load_TechnicalSkills (s : TechnicalSkills) :
  new_TechnicalSkills (dump_TechnicalSkills s) = Some s.
Proof.
  destruct s. unfold new_TechnicalSkills, dump_TechnicalSkills, defaulted.
  cbn [languages frameworks_libraries tools_platforms databases other].
  lookup. now rewrite !as_list_dump.
Qed.

Lemma load_Experience (e : Experience) :
  new_Experience (dump_Experience e) = Some e.
Proof.
  destruct e. unfold new_Experience, dump_Experience, required, optional,
    defaulted.
  cbn [role organization experience_location start_date end_date
         experience_description experience_technologies].
  lookup. now rewrite !as_list_dump, !optional_dump.
Qed.

Lemma load_Certification (c : Certification) :
  new_Certification (dump_Certification c) = Some c.
Proof.
  destruct c. unfold new_Certification, dump_Certification, required, optional.
  cbn [certification_name issuer date credential_id certification_url].
  lookup. now rewrite !optional_dump.
Qed.

Lemma load_Project (p : Project) :
  validate_source (project_source p) = Some (project_source p) ->
  new_Project (dump_Project p) = Some p.
Proof.
  destruct p. cbn [project_source]. intros Hs.
  unfold new_Project, dump_Project, required, optional, defaulted.
  cbn [project_name project_description project_technologies project_source
         project_url highlights project_start_date project_end_date].
  lookup. cbn [as_str opt_bind]. rewrite Hs.
  now rewrite !as_list_dump, !optional_dump.
Qed.

Lemma load_Education (e : Education) :
  validate_gpa (gpa e) = gpa e ->
  new_Education (dump_Education e) = Some e.
Proof.
  destruct e. cbn [gpa]. intros Hg.
  unfold new_Education, dump_Education, required, optional, defaulted.
  cbn [degree institution education_location graduation_date gpa
         relevant_coursework honors].
  lookup. rewrite !as_list_dump, !optional_dump. cbn [as_str opt_bind].
  now rewrite Hg.
Qed.

Lemma load_DecisionLogEntry (e : DecisionLogEntry) :
  validate_action (action e) = Some (action e) ->
  validate_confidence (confidence e) = Some (confidence e) ->
  new_DecisionLogEntry (dump_DecisionLogEntry e) = Some e.
Proof.
  destruct e. cbn [action confidence]. intros Ha Hc.
  unfold new_DecisionLogEntry, dump_DecisionLogEntry, required.
  cbn [section action items Schema.reason source confidence].
  lookup. cbn [as_str opt_bind]. now rewrite Ha, Hc, as_list_dump.
Qed.

Lemma load_ContactInfo (validate_email : str -> option str) (c : ContactInfo) :
  (forall e, email c = Some e -> validate_email e = Some e) ->
  new_ContactInfo validate_email (dump_ContactInfo c) = Some c.
Proof.
  destruct c as [n e ph lo gh li we]. cbn [email]. intros He.
  unfold new_ContactInfo, dump_ContactInfo, optional.
  cbn [full_name email phone contact_location github linkedin website].
  lookup. rewrite !optional_dump. cbn [opt_bind].
  destruct e as [e|]; cbn [dump_opt as_email as_str opt_bind option_map];
    [|reflexivity].
  now rewrite (He e eq_refl).
Qed.

(** *** What validated once validates from its dump *)

Lemma valid_Project (d : dict) (p : Project) :
  new_Project d = Some p -> new_Project (dump_Project p) = Some p.
Proof.
  intros H. apply load_Project. unfold new_Project in H. unchain H.
  injection H as <-. cbn [project_source].
  unfold required in E2. destruct (dict_get (py "source") d) as [v|];
    [|discriminate].
  destruct (as_str v) as [s|]; [|discriminate]. cbn [opt_bind] in E2.
  exact (one_of_fixed _ _ _ E2).
Qed.

Lemma valid_Education (d : dict) (e : Education) :
  new_Education d = Some e -> new_Education (dump_Education e) = Some e.
Proof.
  intros H. apply load_Education. unfold new_Education in H. unchain H.
  injection H as <-. cbn [gpa]. destruct a3 as [g|]; [|reflexivity].
  unfold validate_gpa. now rewrite strip_idem.
Qed.

Lemma valid_DecisionLogEntry (d : dict) (e : DecisionLogEntry) :
  new_DecisionLogEntry d = Some e ->
  new_DecisionLogEntry (dump_DecisionLogEntry e) = Some e.
Proof.
  intros H. unfold new_DecisionLogEntry in H. unchain H. injection H as <-.
  apply load_DecisionLogEntry; cbn [action confidence].
  - unfold required in E0. destruct (dict_get (py "action") d) as [v|];
      [|discriminate].
    destruct (as_str v) as [s|]; [|discriminate]. cbn [opt_bind] in E0.
    exact (one_of_fixed _ _ _ E0).
  - unfold required in E4. destruct (dict_get (py "confidence") d) as [v|];
      [|discriminate].
    destruct (as_str v) as [s|]; [|discriminate]. cbn [opt_bind] in E4.
    exact (one_of_fixed _ _ _ E4).
Qed.

Lemma valid_ContactInfo (validate_email : str -> option str) (d : dict)
    (c : ContactInfo) :
  (forall v e, validate_email v = Some e -> validate_email e = Some e) ->
  new_ContactInfo validate_email d = Some c ->
  new_ContactInfo validate_email (dump_ContactInfo c) = Some c.
Proof.
  intros Hidem H. apply load_ContactInfo. unfold new_ContactInfo in H.
  unchain H. injection H as <-. cbn [email]. intros e ->.
  unfold optional in E0. destruct (dict_get (py "email") d) as [v|];
    [|discriminate].
  destruct v; try discriminate. unfold as_email in E0. cbn in E0.
  destruct (validate_email s) as [e'|] eqn:Ev; [|discriminate].
  injection E0 as <-. exact (Hidem _ _ Ev).
Qed.

Lemma as_model_some {A} (f : dict -> option A) (v : json) (a : A) :
  as_model f v = Some a -> exists d, f d = Some a.
Proof. destruct v; try discriminate. simpl. eauto. Qed.

Lemma defaulted_models {A} (f : dict -> option A) (k : string) (d : dict)
    (l : list A) :
  defaulted (as_list (as_model f)) [] k d = Some l ->
  Forall (fun x => exists d', f d' = Some x) l.
Proof.
  unfold defaulted. destruct (dict_get (py k) d) as [v|].
  - destruct v; try discriminate. simpl. intros H.
    apply traverse_images in H. eapply Forall_impl; [|exact H].
    intros x [a Ha]. now apply as_model_some in Ha.
  - intros [= <-]. constructor.
Qed.

Lemma decision_log_loop_validated (entries : list json) :
  Forall (fun e => exists d, new_DecisionLogEntry d = Some e)
    (fst (decision_log_loop entries)).
Proof.
  induction entries as [|entry rest IH]; simpl; [constructor|].
  destruct (decision_log_loop rest) as [decision_log warnings].
  destruct (as_model new_DecisionLogEntry entry) as [e|] eqn:Ee; simpl;
    [|exact IH].
  constructor; [|exact IH]. now apply as_model_some in Ee.
Qed.

Lemma load_decisions_dump (l : list DecisionLogEntry) :
  Forall (fun e => new_DecisionLogEntry (dump_DecisionLogEntry e) = Some e) l ->
  load_decisions (List.map dump_DecisionLogEntry l) = l.
Proof.
  induction 1 as [|e l He _ IH]; [reflexivity|].
  cbn [List.map load_decisions]. now rewrite He, IH.
Qed.

Section WithService.
Variable json_loads : str -> option json.
Variable validate_email : str -> option str.
Variable isprintable : char -> bool.
Variable repr : json -> str.
Variable prompt_file : option str.
Variable default_prompt : str.
Variable complete : str -> str -> result str str.
Variable find_upload : Z -> option ResumeUpload.
Variable find_github : Z -> option GitHubService.GitHubData.

#[local] Abbreviation route :=
  (ResumeRoutes.structure_resume json_loads validate_email isprintable repr
     prompt_file default_prompt complete find_upload find_github).
#[local] Abbreviation service_run :=
  (LLMService.structure_resume json_loads validate_email isprintable repr
     prompt_file default_prompt complete).

Hypothesis validate_email_settles :
  forall v e, validate_email v = Some e -> validate_email e = Some e.

(** What the service returns has been validated. *)
Lemma validated_response (parsed : json) (resume : CanonicalResume)
    (decision_log : list DecisionLogEntry) :
  fst (validate_parsed validate_email parsed) = Ok (resume, decision_log) ->
  (exists d, new_CanonicalResume validate_email d = Some resume)
  /\ Forall (fun e => exists d, new_DecisionLogEntry d = Some e) decision_log.
Proof.
  unfold validate_parsed.
  destruct (_normalize_schema parsed) as [[| | | | | |d]|x]; simpl;
    try discriminate.
  destruct (as_model _ _) as [r|] eqn:Er; simpl; [|discriminate].
  destruct (iterate _) as [entries|]; simpl; [|discriminate].
  pose proof (decision_log_loop_validated entries) as Hl.
  destruct (decision_log_loop entries) as [l w]. simpl in *.
  intros [= <- <-]. split; [|exact Hl]. now apply as_model_some in Er.
Qed.

Lemma service_response (resume_text : option str) (github : option dict)
    (instructions : option str) (settings_ : option StructuringSettings) (self : service)
    (resume : CanonicalResume) (decision_log : list DecisionLogEntry) :
  fst (service_run resume_text github instructions settings_ self)
  = Ok (resume, decision_log) ->
  (exists d, new_CanonicalResume validate_email d = Some resume)
  /\ Forall (fun e => exists d, new_DecisionLogEntry d = Some e) decision_log.
Proof.
  destruct (truthy_text resume_text || truthy_dict github) eqn:Ht.
  - rewrite (RecoveryFacts.structure_resume_result json_loads validate_email
               isprintable repr prompt_file default_prompt complete
               resume_text github instructions settings_ self Ht).
    destruct (_build_user_prompt _ _ _ _ _ _) as [user_prompt|x];
      [|discriminate].
    destruct (complete _ _) as [raw|m]; [|discriminate].
    unfold _parse_response.
    destruct (json_loads (clean_content raw)) as [parsed|].
    + apply validated_response.
    + destruct (_attempt_json_repair json_loads (clean_content raw))
        as [parsed|x]; [|discriminate].
      pose proof (validated_response parsed resume decision_log) as Hv.
      destruct (validate_parsed validate_email parsed). exact Hv.
  - unfold LLMService.structure_resume. rewrite <- negb_orb, Ht. discriminate.
Qed.

Lemma read_back (find_structured : Z -> option StructuredResume)
    (find_decision_log : Z -> option DecisionLog) (id : Z) (rid gid : option Z)
    (resume : CanonicalResume) (decision_log : list DecisionLogEntry) :
  (exists d, new_CanonicalResume validate_email d = Some resume) ->
  Forall (fun e => exists d, new_DecisionLogEntry d = Some e) decision_log ->
  find_structured id = Some (new_StructuredResume id rid gid resume) ->
  find_decision_log id = new_DecisionLog id decision_log ->
  get_structured_resume validate_email find_structured find_decision_log id
  = Ok (mkStructuredResumeResponse id resume decision_log (is_some rid)
          (is_some gid)).
Proof.
  intros [d Hd] Hlog Hrow Hdl.
  unfold new_CanonicalResume in Hd. unchain Hd. injection Hd as <-.
  unfold get_structured_resume. rewrite Hrow, Hdl.
  unfold new_StructuredResume.
  cbn [row_contact row_summary row_technical_skills row_projects row_education
         row_experience row_certifications row_additional_info structured_id
         row_resume_upload_id row_github_data_id contact summary
         technical_skills projects education experience certifications
         additional_info].
  assert (Hc : new_ContactInfo validate_email (dump_ContactInfo a) = Some a).
  { unfold required in E. destruct (dict_get (py "contact") d) as [v|];
      [|discriminate].
    apply as_model_some in E as [d' Hd'].
    now apply (valid_ContactInfo validate_email d'). }
  pose proof (load_TechnicalSkills a1) as Hk.
  unfold dump_ContactInfo in Hc |- *. unfold dump_TechnicalSkills in Hk |- *.
  cbv iota. rewrite Hc. cbn [opt_bind]. rewrite Hk. cbn [opt_bind].
  rewrite (load_all_dumps new_Project dump_Project a2).
  2:{ apply defaulted_models in E2. eapply Forall_impl; [|exact E2].
      intros p [d' Hp]. now apply (valid_Project d'). }
  cbn [opt_bind].
  rewrite (load_all_dumps new_Education dump_Education a3).
  2:{ apply defaulted_models in E3. eapply Forall_impl; [|exact E3].
      intros p [d' Hp]. now apply (valid_Education d'). }
  cbn [opt_bind].
  rewrite (load_all_dumps new_Experience dump_Experience a4).
  2:{ apply Forall_forall. intros x _. apply load_Experience. }
  cbn [opt_bind].
  rewrite (load_all_dumps new_Certification dump_Certification a5).
  2:{ apply Forall_forall. intros x _. apply load_Certification. }
  cbn [opt_bind].
  f_equal. f_equal.
  destruct decision_log as [|e l]; [reflexivity|].
  cbn [new_DecisionLog decisions]. apply load_decisions_dump.
  eapply Forall_impl; [|exact Hlog].
  intros x [d' Hx]. now apply (valid_DecisionLogEntry d').
Qed.

(** X29: a stored resume reads back.  When the structure route
    succeeds, [get_structured_resume] for the new key, on tables that
    hold the rows it stored, returns the very resume and the very
    decision log that the service had returned: everything that
    validated once validates again from its dump, to the same value.
    The sources it reports are the ids of the request that are not
    [None], an id of 0 included. *)
Theorem stored_resume_reads_back
    (new_id : Z) (request : StructureRequest) (id : Z) :
  fst (route new_id request) = Ok id ->
  exists row resume decision_log resume_text github,
    stored (snd (route new_id request)) = Some row
    /\ fst (service_run resume_text github (custom_instructions request)
              (request_settings request) fresh_service)
       = Ok (resume, decision_log)
    /\ forall find_structured find_decision_log,
         find_structured id = Some row ->
         find_decision_log id = stored_log (snd (route new_id request)) ->
         get_structured_resume validate_email find_structured
           find_decision_log id
         = Ok (mkStructuredResumeResponse id resume decision_log
                 (is_some (resume_upload_id request))
                 (is_some (github_data_id request))).
Proof.
  intros Hok.
  destruct (StructureRouteFacts.route_cases json_loads validate_email
              isprintable repr prompt_file default_prompt complete
              find_upload find_github new_id request)
    as [(A & B & H) | [(e & He & Hne & H) | [(e & t & u & Hr & Hg & Hne & H)
       | (t & u & g & Hr & Hg & Hsome & Herr & Hok')]]];
    try (rewrite H in Hok; discriminate).
  destruct (service_run t g (custom_instructions request)
              (request_settings request) fresh_service)
    as [[[resume decision_log]|e] llm_service] eqn:Es.
  2:{ rewrite (Herr _ _ eq_refl) in Hok. discriminate. }
  rewrite (Hok' _ _ _ eq_refl) in *. cbn [fst snd stored stored_log] in *.
  injection Hok as <-.
  eexists _, resume, decision_log, t, g.
  split; [reflexivity|]. split; [now rewrite Es|].
  intros find_structured find_decision_log Hrow Hdl.
  destruct (service_response t g (custom_instructions request)
              (request_settings request) fresh_service resume decision_log)
    as [Hres Hlog]; [now rewrite Es|].
  now apply read_back.
Qed.

End WithService.

Lemma stored_resume_reads_back_witness :
  (forall v e, any_email v = Some e -> any_email e = Some e)
  /\ fst (ResumeRoutes.structure_resume reads_example_response any_email
            Utils.ascii_isprintable no_repr None [] example_model
            example_uploads no_github 3 example_request) = Ok 3%Z
  /\ exists row resume decision_log,
       stored (snd (ResumeRoutes.structure_resume reads_example_response
                      any_email Utils.ascii_isprintable no_repr None []
                      example_model example_uploads no_github 3
                      example_request)) = Some row
       /\ get_structured_resume any_email (fun _ => Some row)
            (fun _ =>
               stored_log
                 (snd (ResumeRoutes.structure_resume reads_example_response
                         any_email Utils.ascii_isprintable no_repr None []
                         example_model example_uploads no_github 3
                         example_request))) 3
          = Ok (mkStructuredResumeResponse 3 resume decision_log true false).
Proof.
  assert (Hs : forall v e, any_email v = Some e -> any_email e = Some e)
    by (intros v e _; reflexivity).
  assert (H : fst (ResumeRoutes.structure_resume reads_example_response
                     any_email Utils.ascii_isprintable no_repr None []
                     example_model example_uploads no_github 3
                     example_request) = Ok 3%Z) by reflexivity.
  split; [exact Hs|]. split; [exact H|].
  destruct (stored_resume_reads_back reads_example_response any_email
              Utils.ascii_isprintable no_repr None [] example_model
              example_uploads no_github Hs 3 example_request 3 H)
    as (row & resume & decision_log & t & g & Hrow & Hrun & Hread).
  exists row, resume, decision_log. split; [exact Hrow|].
  apply Hread; reflexivity.
Defined.

End ReadBackFacts.
